(** * ihatesheets: ingestion pipeline and header normalisation

    A shallow embedding of [models.py], [transformations.py],
    [sheets.py], the cache calls of [cache.py] and [new_iso] of [app.py].  Text is modelled as [string] over 8-bit characters; the
    Python [str] methods used by the code are written out for the ASCII
    range (characters above 127 are neither whitespace, digits nor
    letters with a case).  External collaborators (the redis server, the
    CSV export, the gspread client) are section variables or explicit
    state. *)

From Stdlib Require Import ZArith Ascii String List Bool Lia Sorted.
From stdpp Require Import base decidable option list gmap strings fin_maps sorting.
From Equations Require Import Equations.

Local Open Scope string_scope.
Local Open Scope list_scope.
Local Open Scope nat_scope.

(** ** Python [str] primitives *)

Module Py.

(** [c.isspace()] for a one-character ASCII string. *)
Definition is_space (c : ascii) : bool :=
  let n := nat_of_ascii c in
  (9 <=? n) && (n <=? 13) || (28 <=? n) && (n <=? 32).

Definition is_digit (c : ascii) : bool :=
  let n := nat_of_ascii c in (48 <=? n) && (n <=? 57).

Definition is_upper (c : ascii) : bool :=
  let n := nat_of_ascii c in (65 <=? n) && (n <=? 90).

Definition lower_char (c : ascii) : ascii :=
  if is_upper c then ascii_of_nat (nat_of_ascii c + 32) else c.

(** [s.lower()] *)
Fixpoint lower (s : string) : string :=
  match s with
  | EmptyString => EmptyString
  | String c t => String (lower_char c) (lower t)
  end.

(** [s.lstrip()], [s.rstrip()], [s.strip()] *)
Fixpoint lstrip (s : string) : string :=
  match s with
  | EmptyString => EmptyString
  | String c t => if is_space c then lstrip t else s
  end.

Fixpoint rstrip (s : string) : string :=
  match s with
  | EmptyString => EmptyString
  | String c t =>
      match rstrip t with
      | EmptyString => if is_space c then EmptyString else String c EmptyString
      | r => String c r
      end
  end.

Definition strip (s : string) : string := rstrip (lstrip s).

(** [s.startswith(p)] *)
Fixpoint startswith (s p : string) : bool :=
  match p, s with
  | EmptyString, _ => true
  | String a p', String b s' => if Ascii.eqb a b then startswith s' p' else false
  | String _ _, EmptyString => false
  end.

(** [s.find(sub)]: index of the first occurrence, [-1] when there is none. *)
Fixpoint find (s sub : string) : Z :=
  if startswith s sub then 0%Z
  else match s with
       | EmptyString => (-1)%Z
       | String _ t => let r := find t sub in if (r <? 0)%Z then (-1)%Z else (r + 1)%Z
       end.

(** [sub in s] *)
Definition contains (sub s : string) : bool := (0 <=? find s sub)%Z.

Fixpoint drop (n : nat) (s : string) : string :=
  match n, s with
  | O, _ => s
  | S n', String _ t => drop n' t
  | S _, EmptyString => EmptyString
  end.

(** [s[i:]], with Python's reading of a negative start. *)
Definition slice_from (i : Z) (s : string) : string :=
  let len := Z.of_nat (String.length s) in
  let start := if (i <? 0)%Z then Z.max 0 (len + i) else i in
  drop (Z.to_nat start) s.

(** The first maximal run of non-whitespace characters and what follows it. *)
Fixpoint span_token (s : string) : string * string :=
  match s with
  | EmptyString => (EmptyString, EmptyString)
  | String c t =>
      if is_space c then (EmptyString, s)
      else let '(w, r) := span_token t in (String c w, r)
  end.

(** [s.split()]: whitespace-separated tokens.  The fuel is the length of
    the text, which every token consumes at least one character of. *)
Fixpoint split_go (fuel : nat) (s : string) : list string :=
  match fuel with
  | O => []
  | S fuel' =>
      match lstrip s with
      | EmptyString => []
      | s' => let '(w, r) := span_token s' in w :: split_go fuel' r
      end
  end.

Definition split (s : string) : list string := split_go (String.length s) s.

(** [s.split(maxsplit=1)]: the first token and, when anything but
    whitespace follows, the remainder with its leading whitespace removed
    (trailing whitespace of the remainder is kept). *)
Definition split_maxsplit1 (s : string) : list string :=
  match lstrip s with
  | EmptyString => []
  | s' =>
      let '(w, r) := span_token s' in
      match lstrip r with
      | EmptyString => [w]
      | r' => [w; r']
      end
  end.

(** [s.split(ch)[0]] for a one-character separator: the text before the
    first [ch]. *)
Fixpoint before_char (ch : ascii) (s : string) : string :=
  match s with
  | EmptyString => EmptyString
  | String c t => if Ascii.eqb c ch then EmptyString else String c (before_char ch t)
  end.

(** [ch in s] for a one-character [ch]. *)
Fixpoint has_char (ch : ascii) (s : string) : bool :=
  match s with
  | EmptyString => false
  | String c t => Ascii.eqb c ch || has_char ch t
  end.

(** [s.replace(ch, "")] for a one-character [ch]. *)
Fixpoint remove_char (ch : ascii) (s : string) : string :=
  match s with
  | EmptyString => EmptyString
  | String c t => if Ascii.eqb c ch then remove_char ch t else String c (remove_char ch t)
  end.

(** [s.endswith(ch)] for a one-character [ch]. *)
Fixpoint ends_with_char (ch : ascii) (s : string) : bool :=
  match s with
  | EmptyString => false
  | String c EmptyString => Ascii.eqb c ch
  | String _ t => ends_with_char ch t
  end.

(** [s[:-1]] *)
Fixpoint drop_last (s : string) : string :=
  match s with
  | EmptyString => EmptyString
  | String _ EmptyString => EmptyString
  | String c t => String c (drop_last t)
  end.

(** [s.isdigit()] *)
Fixpoint all_digits (s : string) : bool :=
  match s with
  | EmptyString => true
  | String c t => is_digit c && all_digits t
  end.

Definition isdigit (s : string) : bool :=
  match s with
  | EmptyString => false
  | _ => all_digits s
  end.

(** [int(s)] in base ten for a token without surrounding whitespace: an
    optional sign, then digits in which single underscores may separate
    digit groups.  [None] stands for [ValueError]. *)
Fixpoint int_digits (acc : Z) (prev_digit : bool) (s : string) : option Z :=
  match s with
  | EmptyString => if prev_digit then Some acc else None
  | String c t =>
      if is_digit c then int_digits (10 * acc + Z.of_nat (nat_of_ascii c - 48))%Z true t
      else if Ascii.eqb c "_"%char then
             if prev_digit then int_digits acc false t else None
           else None
  end.

Definition int_literal (s : string) : option Z :=
  match s with
  | String c t =>
      if Ascii.eqb c "-" then Z.opp <$> int_digits 0 false t
      else if Ascii.eqb c "+" then int_digits 0 false t
      else int_digits 0 false s
  | EmptyString => None
  end.

(** The number of digit characters of a text. *)
Fixpoint count_digits (s : string) : Z :=
  match s with
  | EmptyString => 0%Z
  | String c t => ((if is_digit c then 1 else 0) + count_digits t)%Z
  end.

(** [sys.get_int_max_str_digits()]: [int] raises [ValueError] on a literal
    with more digits, leading zeros included, sign and underscores not. *)
Definition int_max_str_digits : Z := 4300.

Definition int (s : string) : option Z :=
  if (int_max_str_digits <? count_digits s)%Z then None else int_literal s.

End Py.

(** ** Exceptions *)

Inductive exn : Set := ValueError | IndexError | AttributeError | TypeError.

Inductive result (A : Type) : Type :=
| Return (a : A)
| Raise (e : exn).
Arguments Return {A} a.
Arguments Raise {A} e.

Definition bind {A B} (r : result A) (k : A -> result B) : result B :=
  match r with
  | Return a => k a
  | Raise e => Raise e
  end.

Notation "x <- c1 ;; c2" := (bind c1 (fun x => c2))
  (at level 100, c1 at next level, right associativity).

(** [l[i]] *)
Definition item {A} (l : list A) (i : nat) : result A :=
  match l !! i with
  | Some a => Return a
  | None => Raise IndexError
  end.

(** [int(s)] *)
Definition int (s : string) : result Z :=
  match Py.int s with
  | Some z => Return z
  | None => Raise ValueError
  end.

(** ** models.py *)

Module Models.

Record Author := {
  name : string;
  flair : Z;
  author_flair_text : option string
}.

(** The body of the [try] block of [Author.__post_init__]. *)
Definition parse_flair (flair_text : string) : result Z :=
  let flair_parts := Py.split_maxsplit1 flair_text in
  p0 <- item flair_parts 0 ;;
  if Py.isdigit p0 then int p0
  else
    p1 <- item flair_parts 1 ;;
    tok <- item (Py.split p1) 1 ;;
    int tok.

(** [Author.__post_init__]: the value assigned to [self.flair].  Only
    [ValueError] and [IndexError] are caught. *)
Definition post_init (author_flair_text : option string) : result Z :=
  match author_flair_text with
  | Some flair_text =>
      if String.eqb flair_text "" then Return 0%Z
      else match parse_flair flair_text with
           | Return z => Return z
           | Raise ValueError | Raise IndexError => Return 0%Z
           | Raise e => Raise e
           end
  | None => Return 0%Z
  end.

(** [Author(name=..., author_flair_text=...)] *)
Definition mkAuthor (name : string) (author_flair_text : option string) : result Author :=
  flair <- post_init author_flair_text ;;
  Return {| name := name; flair := flair; author_flair_text := author_flair_text |}.

(** [SheetPost], with the fields of [Post] it inherits.  [created] and
    [sheet_dl_date] are seconds since the epoch. *)
Record SheetPost := {
  id : string;
  title : string;
  created : Z;
  shortlink : string;
  num_comments : Z;
  score : Z;
  author : option Author;
  sheet_id : option string;
  sheet_url : option string;
  sheet_dl_date : option Z;
  sheet_raw : option string
}.

(** [Spreadsheet.__struct_fields__] *)
Definition Spreadsheet_struct_fields : list string :=
  [ "price"; "manufacturer"; "mold"; "plastic"; "color"; "condition"; "ink";
    "picture"; "price_shipped"; "stamp"; "weight"; "status"; "notes";
    "weight_scaled"; "sheet_id"; "sheet_url" ].

End Models.

(** ** transformations.py *)

Module Transformations.

(** A cell of a [pandas.DataFrame]: text, any other scalar, or a missing
    value ([None] / [NaN]). *)
Inductive Cell : Set :=
| Str (s : string)
| Num (z : Z)
| NaN.

Global Instance Cell_eq_dec : EqDecision Cell.
Proof. solve_decision. Defined.

(** A frame with string column labels and a [RangeIndex]: the label of a
    row is its position. *)
Record DataFrame := {
  columns : list string;
  rows : list (list Cell)
}.

Definition mapping_keys : list string := Models.Spreadsheet_struct_fields.

Definition mappings_list : list (list string) :=
  [ ["price"; "bin"; "buy it now"; "amount"; "cost"];
    ["manuf"; "company"; "brand"; "mfg"];
    ["mold"; "mold name"; "model"; "disc"; "name"];
    ["plastic"];
    ["color"; "colour"];
    ["condition"; "cond."; "rating"];
    ["ink"; "marked"];
    ["image"; "photo"; "pic"];
    ["shipp"];
    ["stamp"];
    ["weight"; "grams"];
    ["status"];
    ["note"; "comment"; "details"];
    ["scale"] ].

(** [dict(zip(mapping_keys, mappings_list))]: the keys are distinct, so
    the items of the dict are the zipped pairs in order. *)
Definition mappings : list (string * list string) := zip mapping_keys mappings_list.

(** [dataframe.columns.str.lower().str.strip().tolist()] *)
Definition df_lower_strip (dataframe : DataFrame) : list string :=
  map (fun c => Py.strip (Py.lower c)) (columns dataframe).

(** [collections.Counter(l)] *)
Definition Counter (l : list string) : gmap string nat :=
  fold_left (fun m k => <[k := S (default 0 (m !! k))]> m) l ∅.

(** [header_match_count]: [matches] is a dict keyed by the labels of the
    row, so a label that occurs twice is one key. *)
Definition header_match_count (row : list string) : nat :=
  let mapping_keys_counter := Counter mapping_keys in
  let matches : gmap string nat :=
    fold_left (fun m key => <[key := default 0 (mapping_keys_counter !! key)]> m) row ∅ in
  map_fold (fun _ v acc => v + acc) 0 matches.

(** [dataframe.fillna('', inplace=True)] *)
Definition fillna (dataframe : DataFrame) : DataFrame :=
  {| columns := columns dataframe;
     rows := map (map (fun c => match c with NaN => Str "" | _ => c end))
                 (rows dataframe) |}.

Definition is_None (c : Cell) : bool := match c with NaN => true | _ => false end.

(** [lambda x: x.lower().strip() if isinstance(x, str) else x] *)
Definition lower_strip (x : Cell) : Cell :=
  match x with
  | Str s => Str (Py.strip (Py.lower s))
  | _ => x
  end.

(** The test of one row in [search_rows_for_header]: [True] when the
    loop returns at this row. *)
Definition row_hits (values : list Cell) : bool :=
  if negb (forallb is_None values) || negb (bool_decide (values = [])) then
    let values := filter (fun x => is_None x = false) values in
    let values := map lower_strip values in
    existsb (fun header => bool_decide (Str header ∈ values)) mapping_keys
  else false.

Fixpoint search_rows_loop (i : nat) (rs : list (list Cell)) : option nat :=
  match rs with
  | [] => None
  | row :: rest => if row_hits row then Some i else search_rows_loop (S i) rest
  end.

(** [search_rows_for_header]: the frame after the in-place [fillna] and
    the returned index. *)
Definition search_rows_for_header (dataframe : DataFrame) : DataFrame * option nat :=
  let dataframe := fillna dataframe in
  (dataframe, search_rows_loop 0 (rows dataframe)).

Inductive Loc : Set := LocColumn | LocRow (i : nat).

(** The dict returned by [header_find]. *)
Record Found := {
  loc : Loc;
  col_values : list string;
  match_count : nat;
  found : bool
}.

(** [x.lower().strip()] on a cell: only text has [lower]. *)
Definition cell_lower_strip (x : Cell) : result string :=
  match x with
  | Str s => Return (Py.strip (Py.lower s))
  | _ => Raise AttributeError
  end.

Fixpoint map_cells (l : list Cell) : result (list string) :=
  match l with
  | [] => Return []
  | x :: rest =>
      s <- cell_lower_strip x ;;
      ss <- map_cells rest ;;
      Return (s :: ss)
  end.

(** [header_find]: the frame as the call leaves it, and the value
    returned ([None] for not found) or the exception raised. *)
Definition header_find (dataframe : DataFrame) : DataFrame * result (option Found) :=
  let df_cols := df_lower_strip dataframe in
  let count := header_match_count df_cols in
  if 2 <=? count then
    (dataframe,
     Return (Some {| loc := LocColumn; col_values := df_cols;
                     match_count := count; found := true |}))
  else
    let '(dataframe, search_rows_result) := search_rows_for_header dataframe in
    match search_rows_result with
    | Some i =>
        (dataframe,
         df_cols <- item (rows dataframe) i ;;
         let df_cols := filter (fun x => is_None x = false) df_cols in
         df_cols <- map_cells df_cols ;;
         let count := header_match_count df_cols in
         if 2 <? count then
           Return (Some {| loc := LocRow i; col_values := df_cols;
                           match_count := count; found := true |})
         else Return None)
    | None => (dataframe, Return None)
    end.

(** The inner [for possible_value in possible_values] loop of
    [map_headers], run on the pair ([new_headers], [mapped]); its
    [break] leaves this loop only. *)
Fixpoint scan_values (key header : string) (possible_values : list string)
    (st : list string * bool) : list string * bool :=
  match possible_values with
  | [] => st
  | possible_value :: rest =>
      if Py.contains (Py.lower possible_value) (Py.lower header)
      then (st.1 ++ [key], true)
      else scan_values key header rest st
  end.

(** The [for key, possible_values in mappings.items()] loop. *)
Fixpoint scan_items (header : string) (items : list (string * list string))
    (st : list string * bool) : list string * bool :=
  match items with
  | [] => st
  | (key, possible_values) :: rest =>
      if bool_decide (Py.lower header ∈ possible_values)
      then (st.1 ++ [key], true)
      else scan_items header rest (scan_values key header possible_values st)
  end.

Definition map_headers (headers : list string) (mappings : list (string * list string))
    : list string :=
  fold_left
    (fun new_headers header =>
       let '(new_headers, mapped) := scan_items header mappings (new_headers, false) in
       if mapped then new_headers else new_headers ++ [header])
    headers [].

(** [re.match(r"\d+", x) is None]: the label does not start with a digit. *)
Definition no_leading_digit (x : string) : bool :=
  match x with
  | String c _ => negb (Py.is_digit c)
  | EmptyString => true
  end.

(** [unique_headers]: the labels of all frames gathered in a set, then
    [sorted]. *)
Definition unique_headers (dataframes : list DataFrame) : list string :=
  let headers : gset string :=
    fold_left (fun headers df => headers ∪ list_to_set (df_lower_strip df))
      dataframes ∅ in
  merge_sort String.le (elements headers).

(** [header_counter] *)
Definition header_counter (dataframes : list DataFrame) : gmap string nat :=
  let headers := fold_left (fun headers df => headers ++ df_lower_strip df) dataframes [] in
  let headers := filter (fun x => Py.contains "unnamed:" x = false) headers in
  let headers := filter (fun x => no_leading_digit x = true) headers in
  Counter headers.

Global Instance Loc_eq_dec : EqDecision Loc.
Proof. solve_decision. Defined.

(** The dataclass [Headers]. *)
Module Headers.
Record t := {
  df : DataFrame;
  sheet_post : Models.SheetPost;
  found : bool;
  col_trans : bool;
  match_count : nat;
  loc : option Loc;
  col_values : option (list string)
}.
End Headers.

(** [dataframe.columns = labels]: pandas takes the labels only when there
    is one per column. *)
Definition set_columns (dataframe : DataFrame) (labels : list string) : result DataFrame :=
  if length labels =? length (columns dataframe)
  then Return {| columns := labels; rows := rows dataframe |}
  else Raise ValueError.

(** Reading an optional attribute where the code needs a value. *)
Definition required {A} (x : option A) : result A :=
  match x with
  | Some a => Return a
  | None => Raise TypeError
  end.

(** [replace_headers], one element of the list. *)
Definition replace_header (h : Headers.t) : result Headers.t :=
  if Headers.found h then
    col_values <- required (Headers.col_values h) ;;
    let new_headers := map_headers col_values mappings in
    if length new_headers =? length col_values then
      df <- set_columns (Headers.df h) new_headers ;;
      Return {| Headers.df := df;
                Headers.sheet_post := Headers.sheet_post h;
                Headers.found := Headers.found h;
                Headers.col_trans := true;
                Headers.match_count := Headers.match_count h;
                Headers.loc := Headers.loc h;
                Headers.col_values := Headers.col_values h |}
    else Return h
  else Return h.

(** [replace_headers]: the list as the in-place updates leave it. *)
Fixpoint replace_headers (headers : list Headers.t) : result (list Headers.t) :=
  match headers with
  | [] => Return []
  | h :: rest =>
      h' <- replace_header h ;;
      rest' <- replace_headers rest ;;
      Return (h' :: rest')
  end.

(** [header_format] *)
Definition header_format (data : Headers.t) : result Headers.t :=
  if Headers.found data && negb (bool_decide (Headers.loc data = Some LocColumn)) then
    col_values <- required (Headers.col_values data) ;;
    df1 <- set_columns (Headers.df data) col_values ;;
    i <- match Headers.loc data with
         | Some (LocRow i) => Return i
         | _ => Raise TypeError
         end ;;
    Return {| Headers.df := {| columns := columns df1; rows := drop (S i) (rows df1) |};
              Headers.sheet_post := Headers.sheet_post data;
              Headers.found := Headers.found data;
              Headers.col_trans := Headers.col_trans data;
              Headers.match_count := Headers.match_count data;
              Headers.loc := Headers.loc data;
              Headers.col_values := Headers.col_values data |}
  else if Headers.found data && bool_decide (Headers.loc data = Some LocColumn) then
    col_values <- required (Headers.col_values data) ;;
    df1 <- set_columns (Headers.df data) col_values ;;
    Return {| Headers.df := df1;
              Headers.sheet_post := Headers.sheet_post data;
              Headers.found := Headers.found data;
              Headers.col_trans := Headers.col_trans data;
              Headers.match_count := Headers.match_count data;
              Headers.loc := Headers.loc data;
              Headers.col_values := Headers.col_values data |}
  else Return data.

(** The [Headers] entry built of a result of [header_find] (its dict
    supplies the other fields) and the entry built when it returned [None]. *)
Definition new_Headers (sheet_post : Models.SheetPost) (dataframe : DataFrame)
    (h : option Found) : Headers.t :=
  match h with
  | Some h =>
      {| Headers.df := dataframe; Headers.sheet_post := sheet_post;
         Headers.found := found h; Headers.col_trans := false;
         Headers.match_count := match_count h; Headers.loc := Some (loc h);
         Headers.col_values := Some (col_values h) |}
  | None =>
      {| Headers.df := dataframe; Headers.sheet_post := sheet_post;
         Headers.found := false; Headers.col_trans := false;
         Headers.match_count := 0; Headers.loc := None;
         Headers.col_values := None |}
  end.

(** The comprehension [[header_find(df) for df in sheet_dfs]]: the frames
    as the calls leave them, with what each call returned. *)
Fixpoint header_find_all (sheets : list (Models.SheetPost * DataFrame))
    : result (list (Models.SheetPost * DataFrame * option Found)) :=
  match sheets with
  | [] => Return []
  | (sheet_post, dataframe) :: rest =>
      let '(dataframe, r) := header_find dataframe in
      h <- r ;;
      rest' <- header_find_all rest ;;
      Return ((sheet_post, dataframe, h) :: rest')
  end.

Fixpoint header_format_all (results : list Headers.t) : result (list Headers.t) :=
  match results with
  | [] => Return []
  | x :: rest =>
      x' <- header_format x ;;
      rest' <- header_format_all rest ;;
      Return (x' :: rest')
  end.

(** [header_parse], from the cached sheets and the frames built of their
    [sheet_raw]. *)
Definition header_parse (sheets : list (Models.SheetPost * DataFrame))
    : result (list Headers.t) :=
  header_find_results <- header_find_all sheets ;;
  let results :=
    map (fun '(sheet_post, dataframe, h) => new_Headers sheet_post dataframe h)
      header_find_results in
  header_format_all results.

End Transformations.

(** ** sheets.py *)

Module Sheets.
Import Models.

Definition BASE_URL : string := "https://docs.google.com/".

(** What the code reads of a praw submission.  [post_author] is the name
    of [post.author], absent when the account was deleted;
    [post_comments] holds what iterating [post.comments] yields, in
    listing order: the body of a [Comment], or [None] for a [MoreComments]
    entry of a truncated listing, which has no [body]. *)
Record Submission := {
  post_id : string;
  post_title : string;
  post_selftext : string;
  post_url : string;
  post_created_utc : Z;
  post_shortlink : string;
  post_num_comments : Z;
  post_score : Z;
  post_author : option string;
  post_author_flair_text : option string;
  post_comments : list (option string)
}.

(** [clean_url] *)
Definition clean_url (comment : string) : result string :=
  ss_url <- item (Py.split (Py.slice_from (Py.find comment BASE_URL) comment)) 0 ;;
  let ss_url :=
    if Py.has_char "]" ss_url then Py.before_char "]" ss_url else ss_url in
  let ss_url :=
    if Py.ends_with_char "." ss_url then Py.drop_last ss_url else ss_url in
  let ss_url :=
    if Py.has_char "\" ss_url
    then Py.remove_char "\" (Py.remove_char ")" ss_url) else ss_url in
  let ss_url :=
    if Py.has_char ")" ss_url then Py.remove_char ")" ss_url else ss_url in
  Return ss_url.

(** The loop over [post.comments] in [find_sheet_url]: reading
    [comment.body] of an entry without one raises [AttributeError]. *)
Fixpoint find_in_comments (comments : list (option string)) : result (option string) :=
  match comments with
  | [] => Return None
  | comment :: rest =>
      body <- match comment with
              | Some body => Return body
              | None => Raise AttributeError
              end ;;
      if Py.contains BASE_URL body then
        ss_url <- clean_url body ;; Return (Some ss_url)
      else find_in_comments rest
  end.

(** [find_sheet_url] *)
Definition find_sheet_url (post : Submission) : result (option string) :=
  if Py.contains BASE_URL (post_title post) then
    u <- clean_url (post_title post) ;; Return (Some u)
  else if negb (String.eqb (post_selftext post) "")
          && Py.contains BASE_URL (post_selftext post) then
    u <- clean_url (post_selftext post) ;; Return (Some u)
  else if String.eqb (post_selftext post) ""
          && Py.contains BASE_URL (post_url post) then
    Return (Some (post_url post))
  else find_in_comments (post_comments post).

(** The character class [[a-zA-Z0-9-_]]. *)
Definition is_id_char (c : ascii) : bool :=
  let n := nat_of_ascii c in
  (97 <=? n) && (n <=? 122) || (65 <=? n) && (n <=? 90) || (48 <=? n) && (n <=? 57)
  || Ascii.eqb c "-" || Ascii.eqb c "_".

Fixpoint take_id (s : string) : string :=
  match s with
  | EmptyString => EmptyString
  | String c t => if is_id_char c then String c (take_id t) else EmptyString
  end.

(** [re.search(prefix + "([a-zA-Z0-9-_]+)", s)]: group 1 of the leftmost
    match of a literal prefix followed by a greedy, non-empty run of id
    characters. *)
Fixpoint re_search_id (prefix s : string) : option string :=
  let here :=
    if Py.startswith s prefix then take_id (Py.drop (String.length prefix) s)
    else EmptyString in
  match here with
  | String _ _ => Some here
  | EmptyString =>
      match s with
      | EmptyString => None
      | String _ t => re_search_id prefix t
      end
  end.

(** The literal prefixes of the two [patterns] of [gen_doc_id]; each is
    followed by the group [([a-zA-Z0-9-_]+)]. *)
Definition patterns : list string :=
  [ "/spreadsheets/d/e/"; "/spreadsheets/u/0/d/" ].

(** Events the pipeline causes outside the process. *)
Inductive Event : Set :=
| EvDownload (sheet_id : string)       (* a call of [download_sheet] *)
| EvReadCsv (dl_url : string)          (* [pd.read_csv] *)
| EvOpenByKey (sheet_id : string)      (* [gc.open_by_key] and the read of worksheet 0 *)
| EvSleep (seconds : nat).             (* [time.sleep] *)

Global Instance Event_eq_dec : EqDecision Event.
Proof. solve_decision. Defined.

(** The redis server behind [RedisCache]: plain keys and hashes, with the
    values stored decoded.  Redis keeps both in one key space; they are two
    maps here, which is redis as long as no plain key carries the name of a
    hash.  The program writes plain keys under [post:{id}] and hash fields
    in [sheets] only. *)
Record RedisCache := {
  r_keys : gmap string SheetPost;
  r_hashes : gmap string (gmap string SheetPost)
}.

Definition cache_exists (cache : RedisCache) (key : string) : bool :=
  bool_decide (is_Some (r_keys cache !! key)).

Definition cache_set (cache : RedisCache) (key : string) (value : SheetPost) : RedisCache :=
  {| r_keys := <[key := value]> (r_keys cache); r_hashes := r_hashes cache |}.

Definition cache_hexists (cache : RedisCache) (hash key : string) : bool :=
  bool_decide (is_Some (default ∅ (r_hashes cache !! hash) !! key)).

Definition cache_hset (cache : RedisCache) (hash key : string) (value : SheetPost)
    : RedisCache :=
  {| r_keys := r_keys cache;
     r_hashes := <[hash := <[key := value]> (default ∅ (r_hashes cache !! hash))]>
                   (r_hashes cache) |}.

(** [RedisCache.get]: decoding the [None] redis answers for a missing key
    raises. *)
Definition cache_get (cache : RedisCache) (key : string) : result SheetPost :=
  match r_keys cache !! key with
  | Some value => Return value
  | None => Raise TypeError
  end.

(** [RedisCache.hget] *)
Definition cache_hget (cache : RedisCache) (hash key : string) : result SheetPost :=
  match default ∅ (r_hashes cache !! hash) !! key with
  | Some value => Return value
  | None => Raise TypeError
  end.

(** [f"{x}"] for an optional string. *)
Definition fmt (x : option string) : string := default "None" x.

(** [check_cache] *)
Definition check_cache (cache : RedisCache) (sheet_id : option string) : bool :=
  cache_hexists cache "sheets" ("sheet:" +:+ fmt sheet_id).

Definition max_retries : nat := 3.

Section Collaborators.

(** [gspread.utils.extract_id_from_url]; [None] when it raises
    [NoValidUrlKeyFound]. *)
Variable extract_id_from_url : string -> option string.

(** [pd.read_csv(dl_url)] after the events so far; [None] when it raises. *)
Variable read_csv : list Event -> string -> option Transformations.DataFrame.

(** [gc.open_by_key(sheet_id)] and the read of its first worksheet after
    the events so far: [inl] is [str(e)] of the exception raised. *)
Variable open_by_key : list Event -> string -> string + Transformations.DataFrame.

(** [df.to_json()] and [datetime.now()]. *)
Variable to_json : Transformations.DataFrame -> string.
Variable now : list Event -> Z.

(** The loop over [patterns] in [gen_doc_id]: group 1 of the first pattern
    that matches. *)
Fixpoint search_patterns (patterns : list string) (sheet_url : string) : option string :=
  match patterns with
  | [] => None
  | pattern :: rest =>
      match re_search_id pattern sheet_url with
      | Some group1 => Some group1
      | None => search_patterns rest sheet_url
      end
  end.

(** [gen_doc_id] *)
Definition gen_doc_id (sheet_url : string) : option string :=
  match search_patterns patterns sheet_url with
  | Some sheet_id => Some sheet_id
  | None => extract_id_from_url sheet_url
  end.

(** [SheetPost(id=post.id, ..., author=Author(name=post.author.name, ...),
    sheet_id=..., sheet_url=...)]: reading [post.author.name] of a deleted
    account raises [AttributeError]. *)
Definition new_SheetPost (post : Submission) (sheet_id sheet_url : option string)
    : result SheetPost :=
  author_name <- match post_author post with
                 | Some n => Return n
                 | None => Raise AttributeError
                 end ;;
  a <- mkAuthor author_name (post_author_flair_text post) ;;
  Return {| id := post_id post;
            title := post_title post;
            created := post_created_utc post;
            shortlink := post_shortlink post;
            num_comments := post_num_comments post;
            score := post_score post;
            author := Some a;
            sheet_id := sheet_id;
            sheet_url := sheet_url;
            sheet_dl_date := None;
            sheet_raw := None |}.

(** One submission of the loop of [parse_submissions], on the cache and
    the list [sheet_posts]. *)
Definition parse_submission (post : Submission) (cache : RedisCache)
    (sheet_posts : list SheetPost) : RedisCache * result (list SheetPost) :=
  if cache_exists cache ("post:" +:+ post_id post) then (cache, Return sheet_posts)
  else
    match find_sheet_url post with
    | Raise e => (cache, Raise e)
    | Return (Some (String _ _ as sheet_url)) =>
        let sheet_id := gen_doc_id sheet_url in
        match new_SheetPost post sheet_id (Some sheet_url) with
        | Raise e => (cache, Raise e)
        | Return submission =>
            (cache_set cache ("post:" +:+ id submission) submission,
             Return (sheet_posts ++ [submission]))
        end
    | Return _ =>
        match new_SheetPost post None None with
        | Raise e => (cache, Raise e)
        | Return submission =>
            (cache_set cache ("post:" +:+ post_id post) submission, Return sheet_posts)
        end
    end.

Fixpoint parse_loop (submissions : list Submission) (cache : RedisCache)
    (sheet_posts : list SheetPost) : RedisCache * result (list SheetPost) :=
  match submissions with
  | [] => (cache, Return sheet_posts)
  | post :: rest =>
      match parse_submission post cache sheet_posts with
      | (cache, Return sheet_posts) => parse_loop rest cache sheet_posts
      | (cache, Raise e) => (cache, Raise e)
      end
  end.

(** [parse_submissions] *)
Definition parse_submissions (submissions : list Submission) (cache : RedisCache)
    : RedisCache * result (list SheetPost) :=
  parse_loop submissions cache [].

(** [unique_sheets].  The warning of the [else] branch formats
    [post.author.name], which raises when the post has no author. *)
Fixpoint unique_sheets_loop (sheet_posts : list SheetPost) (seen_sheet_ids : gset string)
    (unique_sheet_posts : list SheetPost) : result (list SheetPost) :=
  match sheet_posts with
  | [] => Return unique_sheet_posts
  | post :: rest =>
      match sheet_id post with
      | Some sid =>
          if bool_decide (sid ∉ seen_sheet_ids) then
            unique_sheets_loop rest ({[sid]} ∪ seen_sheet_ids) (unique_sheet_posts ++ [post])
          else
            match author post with
            | Some _ => unique_sheets_loop rest seen_sheet_ids unique_sheet_posts
            | None => Raise AttributeError
            end
      | None =>
          match author post with
          | Some _ => unique_sheets_loop rest seen_sheet_ids unique_sheet_posts
          | None => Raise AttributeError
          end
      end
  end.

Definition unique_sheets (sheet_posts : list SheetPost) : result (list SheetPost) :=
  unique_sheets_loop sheet_posts ∅ [].

(** [dedupe_submissions] *)
Fixpoint dedupe_loop (submissions : list SheetPost) (seen_ids : gset string)
    (unique_submissions : list SheetPost) : list SheetPost :=
  match submissions with
  | [] => unique_submissions
  | post :: rest =>
      if bool_decide (id post ∉ seen_ids) then
        dedupe_loop rest ({[id post]} ∪ seen_ids) (unique_submissions ++ [post])
      else dedupe_loop rest seen_ids unique_submissions
  end.

Definition dedupe_submissions (submissions : list SheetPost) : list SheetPost :=
  dedupe_loop submissions ∅ [].

(** [DFhandler.gen_df_gspread], from the value of [retries] at the loop
    head: the events so far extended, and [self.df] at the end. *)
Equations? gen_df_gspread_loop (sheet_id : string) (retries : nat) (tr : list Event)
    : list Event * option Transformations.DataFrame by wf (max_retries - retries) lt :=
  gen_df_gspread_loop sheet_id retries tr with lt_dec retries max_retries => {
    | right _ => (tr, None)
    | left _ with open_by_key tr sheet_id => {
        | inr df => (tr ++ [EvOpenByKey sheet_id], Some df)
        | inl e with Py.contains "Quota exceeded" e => {
            | true =>
                gen_df_gspread_loop sheet_id (S retries)
                  (tr ++ [EvOpenByKey sheet_id; EvSleep 65])
            | false with Py.contains "This operation is not supported" e => {
                | true => (tr ++ [EvOpenByKey sheet_id], None)
                | false with lt_dec (S retries) max_retries => {
                    | left _ =>
                        gen_df_gspread_loop sheet_id (S retries)
                          (tr ++ [EvOpenByKey sheet_id; EvSleep 5])
                    | right _ => (tr ++ [EvOpenByKey sheet_id], None) } } } } }.
Proof. all: unfold max_retries in *; lia. Qed.

Definition gen_df_gspread (sheet_id : string) (tr : list Event)
    : list Event * option Transformations.DataFrame :=
  gen_df_gspread_loop sheet_id 0 tr.

(** [DFhandler.gen_df] *)
Definition gen_df (sheet_id : string) (tr : list Event)
    : list Event * option Transformations.DataFrame :=
  let ss_base_url := "https://docs.google.com/spreadsheets/d/" in
  let export_url := "/export?format=csv&gid=0" in
  let dl_url := ss_base_url +:+ sheet_id +:+ export_url in
  match read_csv tr dl_url with
  | Some df => (tr ++ [EvReadCsv dl_url], Some df)
  | None => gen_df_gspread sheet_id (tr ++ [EvReadCsv dl_url])
  end.

(** [download_sheet]: [DFhandler(sheet_id)] runs [gen_df]; concatenating
    [None] to the base url raises [TypeError]. *)
Definition download_sheet (sheet_id : option string) (tr : list Event)
    : list Event * result (option Transformations.DataFrame) :=
  match sheet_id with
  | Some sid =>
      let '(tr, df) := gen_df sid (tr ++ [EvDownload sid]) in (tr, Return df)
  | None => (tr, Raise TypeError)
  end.

(** [add_sheet_data] *)
Fixpoint add_sheet_data_loop (unique_posts : list SheetPost) (cache : RedisCache)
    (tr : list Event) (items : list SheetPost) : list Event * result (list SheetPost) :=
  match unique_posts with
  | [] => (tr, Return items)
  | sheet :: rest =>
      if negb (check_cache cache (sheet_id sheet)) then
        match download_sheet (sheet_id sheet) tr with
        | (tr, Raise e) => (tr, Raise e)
        | (tr, Return (Some df)) =>
            let updated_sheet :=
              {| id := id sheet;
                 title := title sheet;
                 created := created sheet;
                 shortlink := shortlink sheet;
                 num_comments := 0;
                 score := 0;
                 author := author sheet;
                 sheet_id := sheet_id sheet;
                 sheet_url := sheet_url sheet;
                 sheet_dl_date := Some (now tr);
                 sheet_raw := Some (to_json df) |} in
            add_sheet_data_loop rest cache tr (items ++ [updated_sheet])
        | (tr, Return None) => add_sheet_data_loop rest cache tr items
        end
      else add_sheet_data_loop rest cache tr items
  end.

Definition add_sheet_data (unique_posts : list SheetPost) (cache : RedisCache)
    (tr : list Event) : list Event * result (list SheetPost) :=
  add_sheet_data_loop unique_posts cache tr [].

(** [cache_sheets] *)
Definition cache_sheets (items : list SheetPost) (cache : RedisCache) : RedisCache :=
  fold_left
    (fun cache item => cache_hset cache "sheets" ("sheet:" +:+ fmt (sheet_id item)) item)
    items cache.

(** [list.sort(key=lambda x: x.created, reverse=True)]: stable, descending. *)
Fixpoint insert_desc (x : SheetPost) (l : list SheetPost) : list SheetPost :=
  match l with
  | [] => [x]
  | y :: l' => if (created y <=? created x)%Z then x :: l else y :: insert_desc x l'
  end.

Definition sort_created_desc (l : list SheetPost) : list SheetPost :=
  foldr insert_desc [] l.

(** The process state a run works on. *)
Record World := {
  cache : RedisCache;
  trace : list Event
}.

(** The dict returned by [sheet_query]. *)
Record QueryResult := {
  search_results : list Submission;
  unique_sheet_posts : list SheetPost;
  posts : list SheetPost;
  unique_sheets_out : list SheetPost;
  sheets_downloaded : list SheetPost
}.

(** [sheet_query], from the submissions the search returned. *)
Definition sheet_query (ss : list Submission) (w : World) : World * result QueryResult :=
  match parse_submissions ss (cache w) with
  | (c, Raise e) => ({| cache := c; trace := trace w |}, Raise e)
  | (c, Return posts) =>
      let posts := sort_created_desc posts in
      let u_posts := dedupe_submissions posts in
      match unique_sheets posts with
      | Raise e => ({| cache := c; trace := trace w |}, Raise e)
      | Return u_sheets =>
          match add_sheet_data u_sheets c (trace w) with
          | (tr, Raise e) => ({| cache := c; trace := tr |}, Raise e)
          | (tr, Return dl_sheets) =>
              ({| cache := cache_sheets dl_sheets c; trace := tr |},
               Return {| search_results := ss;
                         unique_sheet_posts := u_posts;
                         posts := posts;
                         unique_sheets_out := u_sheets;
                         sheets_downloaded := dl_sheets |})
          end
      end
  end.

End Collaborators.

(** A stand-in for gspread's [extract_id_from_url], after its two patterns
    [/spreadsheets/d/([a-zA-Z0-9-_]+)] and [key=([^&#]+)]. *)
Fixpoint take_key (s : string) : string :=
  match s with
  | EmptyString => EmptyString
  | String c t =>
      if Ascii.eqb c "&" || Ascii.eqb c "#" then EmptyString else String c (take_key t)
  end.

Fixpoint re_search_key (s : string) : option string :=
  let here := if Py.startswith s "key=" then take_key (Py.drop 4 s) else EmptyString in
  match here with
  | String _ _ => Some here
  | EmptyString =>
      match s with
      | EmptyString => None
      | String _ t => re_search_key t
      end
  end.

Definition gspread_extract_id_from_url (url : string) : option string :=
  match re_search_id "/spreadsheets/d/" url with
  | Some k => Some k
  | None => re_search_key url
  end.

End Sheets.

(** ** app.py *)

Module App.

(** [models.Post] *)
Record Post := {
  id : string;
  title : string;
  created : Z;
  shortlink : string;
  num_comments : Z;
  score : Z;
  author : option Models.Author
}.

(** One submission of the loop of [new_iso], with its [link_flair_text]. *)
Definition iso_post (link_flair_text : option string) (post : Sheets.Submission)
    : result (option Post) :=
  if bool_decide (link_flair_text = Some "In Search Of") then
    author <- match Sheets.post_author post with
              | Some author_name =>
                  a <- Models.mkAuthor author_name (Sheets.post_author_flair_text post) ;;
                  Return (Some a)
              | None => Return None
              end ;;
    Return (Some {| id := Sheets.post_id post;
                    title := Sheets.post_title post;
                    created := Sheets.post_created_utc post;
                    shortlink := Sheets.post_shortlink post;
                    num_comments := 0;
                    score := 0;
                    author := author |})
  else Return None.

(** [new_iso], from the submissions [subreddit.new(limit=limit)] yields. *)
Fixpoint new_iso (posts : list (option string * Sheets.Submission)) : result (list Post) :=
  match posts with
  | [] => Return []
  | (link_flair_text, post) :: rest =>
      item <- iso_post link_flair_text post ;;
      iso_posts <- new_iso rest ;;
      Return (match item with Some item => item :: iso_posts | None => iso_posts end)
  end.

End App.

(** ** Notions used to state the properties *)

(** The number of distinct labels of a row that are canonical field names. *)
Definition canonical_count (labels : list string) : nat :=
  length (filter (fun l => l ∈ Transformations.mapping_keys) (remove_dups labels)).

(** The number of labels of a row, counted with repetition, that are
    canonical field names. *)
Definition canonical_occurrences (labels : list string) : nat :=
  length (filter (fun l => l ∈ Transformations.mapping_keys) labels).

(** A row holds some canonical field name verbatim once its text cells
    are lower-cased and trimmed. *)
Definition has_canonical_name (row : list Transformations.Cell) : Prop :=
  exists k, k ∈ Transformations.mapping_keys
            /\ Transformations.Str k ∈ map Transformations.lower_strip row.

(** Row [i] is the row the data-row scan stops at: the first row of the
    frame, missing values filled, that holds a canonical field name. *)
Definition scanned_row (df : Transformations.DataFrame) (i : nat)
    (row : list Transformations.Cell) : Prop :=
  Transformations.rows (Transformations.fillna df) !! i = Some row
  /\ has_canonical_name row
  /\ forall j r, j < i ->
       Transformations.rows (Transformations.fillna df) !! j = Some r ->
       ~ has_canonical_name r.

(** A grid whose first candidate row has two canonical labels and whose
    next row has three. *)
Definition grid_two_candidates : Transformations.DataFrame :=
  {| Transformations.columns := ["Unnamed: 0"; "Unnamed: 1"; "Unnamed: 2"];
     Transformations.rows :=
       [ [Transformations.Str "My discs"; Transformations.NaN; Transformations.NaN];
         [Transformations.Str "Mold"; Transformations.Str " plastic"; Transformations.Str "grams"];
         [Transformations.Str "mold"; Transformations.Str "plastic"; Transformations.Str "price"] ] |}.

(** Some character of the text is whitespace. *)
Fixpoint has_space (s : string) : bool :=
  match s with
  | EmptyString => false
  | String c t => Py.is_space c || has_space t
  end.

(** What [clean_url] returns: it starts with the base url and holds no
    whitespace, closing bracket, backslash or closing parenthesis. *)
Definition cleaned (r : string) : Prop :=
  Py.startswith r Sheets.BASE_URL = true
  /\ has_space r = false
  /\ Py.has_char "]" r = false
  /\ Py.has_char "\" r = false
  /\ Py.has_char ")" r = false.

(** What a cache leaves of an earlier cache: the hashes, every entry, and
    new entries that have a url whenever they have an id. *)
Definition extends (cache cache' : Sheets.RedisCache) : Prop :=
  Sheets.r_hashes cache' = Sheets.r_hashes cache
  /\ (forall k q, Sheets.r_keys cache !! k = Some q -> Sheets.r_keys cache' !! k = Some q)
  /\ (forall k p, Sheets.r_keys cache' !! k = Some p ->
        Sheets.r_keys cache !! k = Some p
        \/ (Sheets.r_keys cache !! k = None
            /\ (is_Some (Models.sheet_id p) -> is_Some (Models.sheet_url p)))).

(** C8 read to the letter: of two posts with one document id, the post
    with the later creation time is dropped. *)
Definition later_post_dropped : Prop :=
  forall (posts : list Models.SheetPost) (p q : Models.SheetPost) (x : string)
         (u : list Models.SheetPost),
    p ∈ posts -> q ∈ posts ->
    Models.sheet_id p = Some x -> Models.sheet_id q = Some x ->
    (Models.created p < Models.created q)%Z ->
    Sheets.unique_sheets (Sheets.sort_created_desc posts) = Return u ->
    q ∉ u.

(** Sorted by creation time, latest first. *)
Definition desc (l : list Models.SheetPost) : Prop :=
  StronglySorted (fun a b => (Models.created b <= Models.created a)%Z) l.

(** The number of calls to the spreadsheet API among some events. *)
Definition is_attempt (ev : Sheets.Event) : bool :=
  match ev with Sheets.EvOpenByKey _ => true | _ => false end.

Definition attempts (evs : list Sheets.Event) : nat :=
  length (List.filter is_attempt evs).

(** How each API call among the events [new], made after the events [tr]
    with the retry counter starting at [retries], is followed up. *)
Definition retry_policy
    (open_by_key : list Sheets.Event -> string -> string + Transformations.DataFrame)
    (sheet_id : string) (retries : nat) (tr new : list Sheets.Event)
    (df : option Transformations.DataFrame) : Prop :=
  forall pre post, new = pre ++ Sheets.EvOpenByKey sheet_id :: post ->
    match open_by_key (tr ++ pre) sheet_id with
    | inr d => post = [] /\ df = Some d
    | inl e =>
        if Py.contains "Quota exceeded" e then
          exists post', post = Sheets.EvSleep 65 :: post'
            /\ if decide (retries + attempts pre + 1 < Sheets.max_retries)
               then exists post'', post' = Sheets.EvOpenByKey sheet_id :: post''
               else post' = [] /\ df = None
        else if Py.contains "This operation is not supported" e then
          post = [] /\ df = None
        else if decide (retries + attempts pre + 1 < Sheets.max_retries) then
          exists post', post = Sheets.EvSleep 5 :: Sheets.EvOpenByKey sheet_id :: post'
        else post = [] /\ df = None
    end.

(** What the loop of [gen_df_gspread] leaves when [k] calls remain. *)
Definition loop_outcome
    (open_by_key : list Sheets.Event -> string -> string + Transformations.DataFrame)
    (sheet_id : string) (k retries : nat) (tr new : list Sheets.Event)
    (df : option Transformations.DataFrame) : Prop :=
  attempts new <= k
  /\ (k = 0 -> new = [] /\ df = None)
  /\ (0 < k -> exists rest, new = Sheets.EvOpenByKey sheet_id :: rest)
  /\ Forall (fun ev => ev = Sheets.EvOpenByKey sheet_id \/ exists n, ev = Sheets.EvSleep n) new
  /\ retry_policy open_by_key sheet_id retries tr new df.

(** The export url [gen_df] builds for a document id. *)
Definition dl_url (sheet_id : string) : string :=
  "https://docs.google.com/spreadsheets/d/" +:+ sheet_id +:+ "/export?format=csv&gid=0".

(** The document ids [download_sheet] was called with. *)
Definition download_ids (evs : list Sheets.Event) : list string :=
  omap (fun ev => match ev with Sheets.EvDownload sid => Some sid | _ => None end) evs.

(** An event caused while downloading document [sid]. *)
Definition about (sid : string) (ev : Sheets.Event) : Prop :=
  ev = Sheets.EvDownload sid \/ ev = Sheets.EvReadCsv (dl_url sid)
  \/ ev = Sheets.EvOpenByKey sid \/ exists n, ev = Sheets.EvSleep n.

(** The ids of the posts [add_sheet_data] goes on to download. *)
Definition uncached_ids (cache : Sheets.RedisCache) (us : list Models.SheetPost)
    : list string :=
  omap (fun p => match Models.sheet_id p with
                 | Some sid =>
                     if Sheets.check_cache cache (Some sid) then None else Some sid
                 | None => None
                 end) us.

(** ** Sample inputs *)

Definition empty_cache : Sheets.RedisCache :=
  {| Sheets.r_keys := ∅; Sheets.r_hashes := ∅ |}.

(** A submission of a deleted account. *)
Definition post_deleted_author : Sheets.Submission :=
  {| Sheets.post_id := "1abcde";
     Sheets.post_title := "Spring cleaning spreadsheet";
     Sheets.post_selftext := "https://docs.google.com/spreadsheets/d/abc123/edit";
     Sheets.post_url := "https://www.reddit.com/r/discexchange/comments/1abcde/";
     Sheets.post_created_utc := 1700000000;
     Sheets.post_shortlink := "https://redd.it/1abcde";
     Sheets.post_num_comments := 3;
     Sheets.post_score := 7;
     Sheets.post_author := None;
     Sheets.post_author_flair_text := None;
     Sheets.post_comments := [] |}.

(** A submission that links a document which is not a spreadsheet. *)
Definition post_document_link : Sheets.Submission :=
  {| Sheets.post_id := "1fghij";
     Sheets.post_title := "My discs https://docs.google.com/document/d/mePFEWTz/edit";
     Sheets.post_selftext := "";
     Sheets.post_url := "https://www.reddit.com/r/discexchange/comments/1fghij/";
     Sheets.post_created_utc := 1700000100;
     Sheets.post_shortlink := "https://redd.it/1fghij";
     Sheets.post_num_comments := 0;
     Sheets.post_score := 1;
     Sheets.post_author := Some "thrower";
     Sheets.post_author_flair_text := Some "12 exchanges";
     Sheets.post_comments := [] |}.

(** A submission that links a spreadsheet in its first comment. *)
Definition post_spreadsheet_link : Sheets.Submission :=
  {| Sheets.post_id := "1klmno";
     Sheets.post_title := "Moving sale spreadsheet";
     Sheets.post_selftext := "List in the comments";
     Sheets.post_url := "https://www.reddit.com/r/discexchange/comments/1klmno/";
     Sheets.post_created_utc := 1700000200;
     Sheets.post_shortlink := "https://redd.it/1klmno";
     Sheets.post_num_comments := 1;
     Sheets.post_score := 4;
     Sheets.post_author := Some "huck";
     Sheets.post_author_flair_text := Some "Exchanges: 4";
     Sheets.post_comments :=
       [Some "[sheet](https://docs.google.com/spreadsheets/d/MGAxiQwHHr2t/edit?usp=sharing)."] |}.

Definition post_newer : Models.SheetPost :=
  {| Models.id := "1newer"; Models.title := "Updated list";
     Models.created := 200; Models.shortlink := "https://redd.it/1newer";
     Models.num_comments := 0; Models.score := 0;
     Models.author := Some {| Models.name := "thrower"; Models.flair := 3;
                              Models.author_flair_text := Some "3 exchanges" |};
     Models.sheet_id := Some "X";
     Models.sheet_url := Some "https://docs.google.com/spreadsheets/d/X";
     Models.sheet_dl_date := None; Models.sheet_raw := None |}.

Definition post_older : Models.SheetPost :=
  {| Models.id := "1older"; Models.title := "My list";
     Models.created := 100; Models.shortlink := "https://redd.it/1older";
     Models.num_comments := 0; Models.score := 0;
     Models.author := Some {| Models.name := "thrower"; Models.flair := 3;
                              Models.author_flair_text := Some "3 exchanges" |};
     Models.sheet_id := Some "X";
     Models.sheet_url := Some "https://docs.google.com/spreadsheets/d/X";
     Models.sheet_dl_date := None; Models.sheet_raw := None |}.

(** A world whose hash [sheets] already holds document [MGAxiQwHHr2t]. *)
Definition world_with_cached_sheet : Sheets.World :=
  {| Sheets.cache :=
       Sheets.cache_hset empty_cache "sheets" "sheet:MGAxiQwHHr2t" post_newer;
     Sheets.trace := [] |}.

(** ** Further notions and sample inputs *)

(** A sheet whose first data row holds the canonical name [stamp] next
    to a number. *)
Definition frame_number_in_candidate : Transformations.DataFrame :=
  {| Transformations.columns := ["Disc"; "Brand"; "Weight (g)"; "Notes"];
     Transformations.rows :=
       [ [Transformations.Str "Buzzz"; Transformations.Str "Discraft";
          Transformations.Num 175; Transformations.Str "stamp"];
         [Transformations.Str "Zone"; Transformations.Str "Discraft";
          Transformations.Num 173; Transformations.Str "ink on rim"] ] |}.

(** Every character of the text is in the ASCII range, on which the
    [str] primitives above are written out. *)
Fixpoint ascii_text (s : string) : bool :=
  match s with
  | EmptyString => true
  | String c t => (nat_of_ascii c <? 128) && ascii_text t
  end.

(** The canonical fields [map_headers] appends for a lower-cased label:
    every field with a synonym inside the label, in table order, up to and
    including the first field the label is a synonym of. *)
Fixpoint labels_for (lowered : string) (items : list (string * list string))
    : list string :=
  match items with
  | [] => []
  | (key, possible_values) :: rest =>
      if bool_decide (lowered ∈ possible_values) then [key]
      else if existsb (fun v => Py.contains (Py.lower v) lowered) possible_values
           then key :: labels_for lowered rest
           else labels_for lowered rest
  end.

(** What one raw label contributes to the output of [map_headers]. *)
Definition mapped_labels (header : string) (items : list (string * list string))
    : list string :=
  match labels_for (Py.lower header) items with
  | [] => [header]
  | keys => keys
  end.
(** A frame with a line of text above its header row. *)
Definition frame_with_preamble : Transformations.DataFrame :=
  {| Transformations.columns := ["Unnamed: 0"; "Unnamed: 1"; "Unnamed: 2"; "Unnamed: 3"];
     Transformations.rows := [ [Transformations.Str "Prices include shipping"; Transformations.NaN; Transformations.NaN; Transformations.NaN];
               [Transformations.Str "Mold"; Transformations.Str " Plastic"; Transformations.Str "Price"; Transformations.Str "Ink?"];
               [Transformations.Str "Teebird"; Transformations.Str "Champion"; Transformations.Num 12; Transformations.Str "none"];
               [Transformations.Str "Buzzz"; Transformations.Str "ESP"; Transformations.Num 15; Transformations.NaN] ] |}.

(** A cached sheet post to hang frames on. *)
Definition sample_sheet_post : Models.SheetPost :=
  {| Models.id := "1sheet"; Models.title := "Discs"; Models.created := 0;
     Models.shortlink := ""; Models.num_comments := 0; Models.score := 0;
     Models.author := None; Models.sheet_id := Some "X"; Models.sheet_url := None;
     Models.sheet_dl_date := None; Models.sheet_raw := None |}.

(** Every character of the text is a document-id character. *)
Fixpoint all_id_chars (s : string) : bool :=
  match s with
  | EmptyString => true
  | String c t => Sheets.is_id_char c && all_id_chars t
  end.

(** Neither the title nor the self-text or, for a post without
    self-text, the link holds the base url. *)
Definition no_link_in_post (post : Sheets.Submission) : Prop :=
  Py.contains Sheets.BASE_URL (Sheets.post_title post) = false
  /\ (if String.eqb (Sheets.post_selftext post) ""
      then Py.contains Sheets.BASE_URL (Sheets.post_url post) = false
      else Py.contains Sheets.BASE_URL (Sheets.post_selftext post) = false).

(** An entry of a comment listing that has a body without the base url. *)
Definition body_without_link (comment : option string) : Prop :=
  exists body, comment = Some body /\ Py.contains Sheets.BASE_URL body = false.

(** None of the texts [find_sheet_url] searches holds the base url, and
    every entry of the comment listing is a comment. *)
Definition no_link (post : Sheets.Submission) : Prop :=
  no_link_in_post post /\ Forall body_without_link (Sheets.post_comments post).

(** The comment listing holds an entry without a body, and no comment
    before that entry holds the base url. *)
Definition bodiless_entry_first (comments : list (option string)) : Prop :=
  exists before rest,
    comments = before ++ None :: rest /\ Forall body_without_link before.
(** The time a list of events spends in [time.sleep]. *)
Definition total_sleep (evs : list Sheets.Event) : nat :=
  foldr (fun ev acc => match ev with Sheets.EvSleep n => n + acc | _ => acc end) 0 evs.
(** A run of [sheet_query] on an empty cache whose CSV export succeeds. *)
Definition first_run : Sheets.World * result Sheets.QueryResult :=
  Sheets.sheet_query Sheets.gspread_extract_id_from_url
    (fun _ _ => Some frame_with_preamble) (fun _ _ => inl "Quota exceeded")
    (fun _ => "{}") (fun _ => 1700000300%Z)
    [post_spreadsheet_link] {| Sheets.cache := empty_cache; Sheets.trace := [] |}.

(** * Properties *)

(** ** Flair rank ([models.py]) *)

Lemma int_digits_nonneg s : forall acc b z,
  (0 <= acc)%Z -> Py.int_digits acc b s = Some z -> (0 <= z)%Z.
Proof.
  induction s as [|c t IH]; intros acc b z Hacc; simpl.
  - destruct b; congruence.
  - destruct (Py.is_digit c).
    + apply IH. lia.
    + destruct (Ascii.eqb c "_"); [|discriminate].
      destruct b; [|discriminate]. now apply IH.
Qed.

Lemma int_negative_has_minus s z :
  Py.int s = Some z -> (z < 0)%Z -> exists t, s = String "-" t.
Proof.
  unfold Py.int. destruct (_ <? _)%Z; [discriminate|].
  destruct s as [|c t]; unfold Py.int_literal; [discriminate|].
  destruct (Ascii.eqb_spec c "-") as [->|_]; [eauto|].
  intros H Hz. exfalso.
  destruct (Ascii.eqb c "+"); apply int_digits_nonneg in H; lia.
Qed.

Lemma int_of_isdigit_nonneg s z :
  Py.isdigit s = true -> Py.int s = Some z -> (0 <= z)%Z.
Proof.
  intros Hd Hi. destruct (Z_lt_le_dec z 0) as [Hneg|]; [|done].
  destruct (int_negative_has_minus _ _ Hi Hneg) as [t ->].
  simpl in Hd. discriminate.
Qed.

(** C7, as the spec words it, fails: a rank read from the third token keeps
    the sign of that token. *)
Lemma flair_rank_negative_counterexample :
  Models.mkAuthor "u" (Some "Trades confirmed -5")
  = Return {| Models.name := "u"; Models.flair := (-5)%Z;
              Models.author_flair_text := Some "Trades confirmed -5" |}.
Proof. reflexivity. Qed.

(** C7 (amended): constructing an [Author] from any flair text succeeds;
    the rank is 0 when the text is absent, empty or does not parse; and it
    is negative only when the first token is not numeric and the token the
    rank is read from starts with a minus sign. *)
Theorem flair_rank_default_and_sign (name : string) (text : option string) :
  exists a, Models.mkAuthor name text = Return a
    /\ Models.name a = name
    /\ (text = None \/ text = Some "" -> Models.flair a = 0%Z)
    /\ (forall t e, text = Some t -> Models.parse_flair t = Raise e -> Models.flair a = 0%Z)
    /\ ((Models.flair a < 0)%Z ->
        exists t p0 p1 rest tok,
          text = Some t
          /\ Py.split_maxsplit1 t = p0 :: p1 :: rest
          /\ Py.isdigit p0 = false
          /\ Py.split p1 !! 1 = Some (String "-" tok)).
Proof.
  assert (Hzero : forall t0 : option string,
            exists a, Return {| Models.name := name; Models.flair := 0;
                                Models.author_flair_text := t0 |} = Return a
              /\ Models.name a = name /\ Models.flair a = 0%Z).
  { intros t0. eexists. repeat split. }
  unfold Models.mkAuthor, Models.post_init.
  destruct text as [t|]; simpl.
  2:{ destruct (Hzero None) as (a & Ha & Hn & Hf). exists a.
      repeat split; try done; intros; lia. }
  destruct (String.eqb_spec t "") as [->|Hne]; simpl.
  { destruct (Hzero (Some "")) as (a & Ha & Hn & Hf). exists a.
    repeat split; try done; intros; lia. }
  destruct (Models.parse_flair t) as [z|e] eqn:Hp; simpl.
  - eexists. split; [reflexivity|]. simpl. split; [done|].
    split; [intros [?|[=]]; congruence|]. split; [intros ? ? [= <-]; congruence|].
    intros Hz. unfold Models.parse_flair, item in Hp.
    destruct (Py.split_maxsplit1 t) as [|p0 [|p1 rest]] eqn:Hs; simpl in Hp;
      try discriminate.
    + destruct (Py.isdigit p0) eqn:Hd; [|discriminate].
      unfold int in Hp. destruct (Py.int p0) eqn:Hi; [|discriminate].
      injection Hp as ->. apply int_of_isdigit_nonneg in Hi; [lia|done].
    + destruct (Py.isdigit p0) eqn:Hd.
      { unfold int in Hp. destruct (Py.int p0) eqn:Hi; [|discriminate].
        injection Hp as ->. apply int_of_isdigit_nonneg in Hi; [lia|done]. }
      destruct (Py.split p1 !! 1) as [tok|] eqn:Htok; simpl in Hp; [|discriminate].
      unfold int in Hp. destruct (Py.int tok) eqn:Hi; [|discriminate].
      injection Hp as ->.
      destruct (int_negative_has_minus _ _ Hi Hz) as [d ->].
      exists t, p0, p1, rest, d. done.
  - assert (He : e = ValueError \/ e = IndexError).
    { unfold Models.parse_flair, item, int in Hp.
      repeat (match type of Hp with
              | context [match ?x with _ => _ end] => destruct x; simpl in Hp
              end); try discriminate; injection Hp as <-; auto. }
    destruct (Hzero (Some t)) as (a & Ha & Hn & Hf).
    exists a. destruct He as [-> | ->]; repeat split; try done; intros; lia.
Qed.

Lemma flair_rank_default_and_sign_witness :
  exists a, Models.mkAuthor "u" (Some "12 exchanges") = Return a
    /\ Models.flair a = 12%Z.
Proof.
  destruct (flair_rank_default_and_sign "u" (Some "12 exchanges"))
    as (a & Ha & _ & _ & _ & _).
  exists a. split; [exact Ha|].
  vm_compute in Ha. injection Ha as <-. reflexivity.
Defined.

(** ** Header detection ([transformations.py]) *)

Section MatchCount.
Import Transformations.

Lemma Counter_fold_lookup (l : list string) : forall (m : gmap string nat) k,
  default 0 (fold_left (fun m k => <[k := S (default 0 (m !! k))]> m) l m !! k)
  = default 0 (m !! k) + length (filter (fun x => x = k) l).
Proof.
  induction l as [|x l IH]; intros m k; simpl; [lia|].
  rewrite IH. rewrite filter_cons. destruct (decide (x = k)) as [->|Hne].
  - rewrite lookup_insert_eq. simpl. lia.
  - rewrite lookup_insert_ne by done. lia.
Qed.

Lemma Counter_mapping_keys k :
  default 0 (Counter mapping_keys !! k) = if bool_decide (k ∈ mapping_keys) then 1 else 0.
Proof.
  unfold Counter. rewrite Counter_fold_lookup, lookup_empty. simpl.
  case_bool_decide as Hin.
  - unfold mapping_keys, Models.Spreadsheet_struct_fields in *.
    repeat (apply elem_of_cons in Hin as [->|Hin]; [reflexivity|]).
    by apply elem_of_nil in Hin.
  - assert (Hnil : forall l : list string, k ∉ l -> filter (fun x => x = k) l = []).
    { induction l as [|y l IH]; [done|]. intros Hy.
      apply not_elem_of_cons in Hy as [Hy1 Hy2].
      rewrite filter_cons_False by congruence. auto. }
    by rewrite Hnil.
Qed.

Lemma matches_lookup (f : string -> nat) (row : list string) :
  forall (m : gmap string nat) k,
  fold_left (fun m key => <[key := f key]> m) row m !! k
  = if bool_decide (k ∈ row) then Some (f k) else m !! k.
Proof.
  induction row as [|x row IH]; intros m k; cbn [fold_left].
  - rewrite bool_decide_eq_false_2; [done|]. apply not_elem_of_nil.
  - rewrite IH. destruct (decide (k ∈ row)) as [Hin|Hin].
    + rewrite (bool_decide_eq_true_2 (k ∈ row)) by done.
      rewrite bool_decide_eq_true_2; [done|]. by apply list_elem_of_further.
    + rewrite (bool_decide_eq_false_2 (k ∈ row)) by done.
      destruct (decide (k = x)) as [->|Hne].
      * rewrite lookup_insert_eq, bool_decide_eq_true_2; [done|]. apply list_elem_of_here.
      * rewrite lookup_insert_ne by done.
        rewrite bool_decide_eq_false_2; [done|].
        intros [?|?]%elem_of_cons; done.
Qed.

Lemma sum_values_keys (f : string -> nat) (l : list string) :
  foldr (uncurry (fun (_ : string) (v acc : nat) => v + acc)) 0 (map (fun k => (k, f k)) l)
  = foldr (fun k acc => f k + acc) 0 l.
Proof. induction l as [|x l IH]; simpl; congruence. Qed.

Lemma sum_indicator (keys l : list string) :
  foldr (fun k acc => (if bool_decide (k ∈ keys) then 1 else 0) + acc) 0 l
  = length (filter (fun x => x ∈ keys) l).
Proof.
  induction l as [|x l IH]; simpl; [done|].
  rewrite filter_cons, IH. case_bool_decide; destruct (decide (x ∈ keys)); simpl; done.
Qed.

(** [header_match_count] counts the distinct labels that are canonical
    field names. *)
Lemma header_match_count_distinct (row : list string) :
  header_match_count row = canonical_count row.
Proof.
  unfold header_match_count, canonical_count.
  set (f := fun key => default 0 (Counter mapping_keys !! key)).
  set (m := fold_left _ row ∅).
  assert (Hm : m = list_to_map (map (fun k => (k, f k)) (remove_dups row))).
  { apply map_eq. intros k. unfold m.
    rewrite (matches_lookup f row ∅ k), lookup_empty.
    case_bool_decide as Hin.
    - symmetry. apply elem_of_list_to_map.
      + rewrite <- list_fmap_compose. simpl.
        rewrite list_fmap_id. apply NoDup_remove_dups.
      + apply (list_elem_of_fmap_2 (fun k => (k, f k))). by apply elem_of_remove_dups.
    - symmetry. apply not_elem_of_list_to_map.
      rewrite <- list_fmap_compose. simpl. rewrite list_fmap_id.
      by rewrite elem_of_remove_dups. }
  rewrite map_fold_foldr.
  assert (Hperm : map_to_list m ≡ₚ map (fun k => (k, f k)) (remove_dups row)).
  { rewrite Hm. apply map_to_list_to_map.
    rewrite <- list_fmap_compose. simpl. rewrite list_fmap_id. apply NoDup_remove_dups. }
  transitivity (foldr (uncurry (fun (_ : string) (v acc : nat) => v + acc)) 0
                  (map (fun k => (k, f k)) (remove_dups row))).
  { assert (Hcomm : forall (a1 a2 : string * nat) (b : nat),
              uncurry (fun (_ : string) (v acc : nat) => v + acc) a1
                (uncurry (fun (_ : string) (v acc : nat) => v + acc) a2 b)
              = uncurry (fun (_ : string) (v acc : nat) => v + acc) a2
                  (uncurry (fun (_ : string) (v acc : nat) => v + acc) a1 b)).
    { intros [? ?] [? ?] b. simpl. lia. }
    exact (foldr_permutation_proper (=) _ 0 Hcomm _ _ Hperm). }
  rewrite sum_values_keys.
  rewrite <- sum_indicator.
  clear Hm Hperm.
  induction (remove_dups row) as [|x l IH]; simpl; [done|].
  unfold f at 1. by rewrite Counter_mapping_keys, IH.
Qed.

Lemma row_hits_iff (row : list Cell) : row_hits row = true <-> has_canonical_name row.
Proof.
  unfold row_hits, has_canonical_name. split.
  - destruct (negb (forallb is_None row) || negb (bool_decide (row = []))); [|done].
    intros (k & Hk & Hin)%existsb_exists. exists k. split.
    + by apply list_elem_of_In.
    + apply bool_decide_eq_true_1 in Hin.
      apply list_elem_of_In, in_map_iff in Hin as (c & Hc & Hin).
      apply list_elem_of_In, in_map_iff. exists c. split; [done|].
      apply list_elem_of_In. apply list_elem_of_In in Hin.
      by apply list_elem_of_filter in Hin as [_ ?].
  - intros (k & Hk & Hin).
    apply list_elem_of_In, in_map_iff in Hin as (c & Hc & Hin).
    assert (Hguard : negb (forallb is_None row) || negb (bool_decide (row = [])) = true).
    { destruct row; [destruct Hin|]. rewrite bool_decide_eq_false_2 by done.
      apply orb_true_r. }
    rewrite Hguard. apply existsb_exists. exists k. split; [by apply list_elem_of_In|].
    apply bool_decide_eq_true_2, list_elem_of_In, in_map_iff. exists c. split; [done|].
    apply list_elem_of_In, list_elem_of_filter. split; [|by apply list_elem_of_In].
    destruct c; simpl in *; congruence.
Qed.

Lemma search_rows_loop_first (rs : list (list Cell)) : forall start i row,
  rs !! i = Some row -> row_hits row = true ->
  (forall j r, j < i -> rs !! j = Some r -> row_hits r = false) ->
  search_rows_loop start rs = Some (start + i).
Proof.
  induction rs as [|r0 rs IH]; intros start i row Hrow Hhit Hbefore; [done|].
  destruct i as [|i]; simpl in *.
  - injection Hrow as ->. rewrite Hhit. f_equal. lia.
  - rewrite (Hbefore 0 r0) by (done || lia).
    rewrite (IH (S start) i row Hrow Hhit).
    + f_equal. lia.
    + intros j r Hj Hr. apply (Hbefore (S j) r); [lia|done].
Qed.

Lemma search_rows_loop_spec (rs : list (list Cell)) : forall start,
  match search_rows_loop start rs with
  | Some j => exists i row, j = start + i /\ rs !! i = Some row /\ row_hits row = true
                /\ forall i' r, i' < i -> rs !! i' = Some r -> row_hits r = false
  | None => forall row, row ∈ rs -> row_hits row = false
  end.
Proof.
  induction rs as [|r0 rs IH]; intros start; cbn [search_rows_loop].
  { intros row Hrow. by apply elem_of_nil in Hrow. }
  destruct (row_hits r0) eqn:Hr0.
  { exists 0, r0. split; [lia|]. split; [done|]. split; [done|]. intros; lia. }
  specialize (IH (S start)). destruct (search_rows_loop (S start) rs) as [j|].
  - destruct IH as (i & row & -> & Hrow & Hhit & Hbefore).
    exists (S i), row. split; [lia|]. split; [done|]. split; [done|].
    intros [|i'] r Hi' Hr; [by injection Hr as <-|]. apply (Hbefore i'); [lia|done].
  - intros row [->|Hrow]%elem_of_cons; auto.
Qed.

Lemma filter_not_None_filled (row : list Cell) :
  filter (fun x => is_None x = false)
    (map (fun c => match c with NaN => Str "" | _ => c end) row)
  = map (fun c => match c with NaN => Str "" | _ => c end) row.
Proof.
  induction row as [|c row IH]; [done|]. cbn [map].
  rewrite filter_cons_True by (by destruct c). by rewrite IH.
Qed.

(** The row the scan stops at, in terms of the rows of the filled frame. *)
Lemma search_rows_loop_scanned (df : DataFrame) (i : nat) :
  search_rows_loop 0 (rows (fillna df)) = Some i <-> exists row, scanned_row df i row.
Proof.
  split.
  - intros Hi. pose proof (search_rows_loop_spec (rows (fillna df)) 0) as H.
    rewrite Hi in H. destruct H as (i' & row & -> & Hrow & Hhit & Hbefore).
    exists row. split; [done|]. split; [by apply row_hits_iff|].
    intros j r Hj Hr Hname. apply row_hits_iff in Hname.
    by rewrite (Hbefore j r Hj Hr) in Hname.
  - intros (row & Hrow & Hhit & Hbefore).
    apply (search_rows_loop_first _ 0 i row Hrow); [by apply row_hits_iff|].
    intros j r Hj Hr. destruct (row_hits r) eqn:E; [|done].
    apply row_hits_iff in E. by destruct (Hbefore j r Hj Hr).
Qed.

Lemma filter_not_None_row (df : DataFrame) (i : nat) (row : list Cell) :
  rows (fillna df) !! i = Some row -> filter (fun x => is_None x = false) row = row.
Proof.
  cbn [fillna rows]. rewrite list_lookup_fmap.
  destruct (rows df !! i); [|done]. intros [= <-]. apply filter_not_None_filled.
Qed.

(** [header_find] past the column row: the row the scan stops at is the
    only one it measures. *)
Lemma header_find_scan (df : DataFrame) (i : nat) (row : list Cell) :
  canonical_count (df_lower_strip df) < 2 ->
  scanned_row df i row ->
  header_find df
  = (fillna df,
     df_cols <- map_cells row ;;
     if 2 <? canonical_count df_cols then
       Return (Some {| loc := LocRow i; col_values := df_cols;
                       match_count := canonical_count df_cols; found := true |})
     else Return None).
Proof.
  intros Hcols Hscan. unfold header_find. rewrite header_match_count_distinct.
  destruct (Nat.leb_spec 2 (canonical_count (df_lower_strip df))); [lia|].
  unfold search_rows_for_header.
  rewrite (proj2 (search_rows_loop_scanned df i)) by eauto.
  destruct Hscan as (Hrow & _). unfold item. rewrite Hrow. cbn [bind].
  rewrite (filter_not_None_row df i row Hrow).
  destruct (map_cells row) as [ls|e]; cbn [bind]; [|done].
  by rewrite header_match_count_distinct.
Qed.

(** Without a row to stop at, the scan reports nothing. *)
Lemma header_find_no_scan (df : DataFrame) :
  canonical_count (df_lower_strip df) < 2 ->
  search_rows_loop 0 (rows (fillna df)) = None ->
  header_find df = (fillna df, Return None).
Proof.
  intros Hcols Hnone. unfold header_find. rewrite header_match_count_distinct.
  destruct (Nat.leb_spec 2 (canonical_count (df_lower_strip df))); [lia|].
  unfold search_rows_for_header. by rewrite Hnone.
Qed.

(** A cell that is not text stops [map_cells]. *)
Lemma map_cells_non_text (row : list Cell) :
  (exists c, c ∈ row /\ forall s, c <> Str s) ->
  map_cells row = Raise AttributeError.
Proof.
  intros (c & Hc & Hnot). induction row as [|c0 row IH]; [by apply elem_of_nil in Hc|].
  cbn [map_cells]. destruct c0 as [s| |]; cbn [cell_lower_strip bind]; try done.
  apply elem_of_cons in Hc as [->|Hc]; [by destruct (Hnot s)|].
  by rewrite IH.
Qed.

End MatchCount.

(** C3, as the spec words it, fails: two column labels that are both the
    canonical name [price] once lower-cased and trimmed are two labels that
    are canonical field names, yet the column row is not accepted. *)
Lemma header_find_duplicate_labels_counterexample :
  let df := {| Transformations.columns := ["Price"; "price "];
               Transformations.rows := [] |} in
  canonical_occurrences (Transformations.df_lower_strip df) = 2
  /\ Transformations.header_find df = (df, Return None).
Proof. split; reflexivity. Qed.

(** C3 (amended): [header_find] accepts the existing column row exactly when
    at least 2 distinct lower-cased, trimmed labels are canonical field
    names, and then returns the column sentinel, the labels and that count of
    distinct labels.  A header it reports at a data row is the row the scan
    stops at, with the labels of that row and a count of distinct canonical
    labels strictly greater than 2; and when the cells of the row the scan
    stops at are all text, that row is accepted if its count is greater than
    2 and rejected otherwise. *)
Theorem header_find_thresholds (df : Transformations.DataFrame) :
  let labels := Transformations.df_lower_strip df in
  ((exists h, (Transformations.header_find df).2 = Return (Some h)
              /\ Transformations.loc h = Transformations.LocColumn)
   <-> 2 <= canonical_count labels)
  /\ (2 <= canonical_count labels ->
      Transformations.header_find df
      = (df, Return (Some {| Transformations.loc := Transformations.LocColumn;
                             Transformations.col_values := labels;
                             Transformations.match_count := canonical_count labels;
                             Transformations.found := true |})))
  /\ (forall h i, (Transformations.header_find df).2 = Return (Some h) ->
      Transformations.loc h = Transformations.LocRow i ->
      2 < Transformations.match_count h
      /\ Transformations.match_count h = canonical_count (Transformations.col_values h)
      /\ Transformations.found h = true
      /\ canonical_count labels < 2
      /\ exists row, scanned_row df i row
           /\ Transformations.map_cells row = Return (Transformations.col_values h))
  /\ (forall i row row_labels,
      canonical_count labels < 2 ->
      scanned_row df i row ->
      Transformations.map_cells row = Return row_labels ->
      Transformations.header_find df
      = (Transformations.fillna df,
         Return (if 2 <? canonical_count row_labels
                 then Some {| Transformations.loc := Transformations.LocRow i;
                              Transformations.col_values := row_labels;
                              Transformations.match_count := canonical_count row_labels;
                              Transformations.found := true |}
                 else None))).
Proof.
  intros labels.
  assert (Hcol : 2 <= canonical_count labels ->
    Transformations.header_find df
    = (df, Return (Some {| Transformations.loc := Transformations.LocColumn;
                           Transformations.col_values := labels;
                           Transformations.match_count := canonical_count labels;
                           Transformations.found := true |}))).
  { intros Hge. unfold Transformations.header_find.
    rewrite header_match_count_distinct. fold labels.
    by destruct (Nat.leb_spec 2 (canonical_count labels)); [|lia]. }
  assert (Hrow : forall i row row_labels,
    canonical_count labels < 2 -> scanned_row df i row ->
    Transformations.map_cells row = Return row_labels ->
    Transformations.header_find df
    = (Transformations.fillna df,
       Return (if 2 <? canonical_count row_labels
               then Some {| Transformations.loc := Transformations.LocRow i;
                            Transformations.col_values := row_labels;
                            Transformations.match_count := canonical_count row_labels;
                            Transformations.found := true |}
               else None))).
  { intros i row ls Hlt Hscan Hcells.
    rewrite (header_find_scan df i row Hlt Hscan), Hcells. cbn [bind].
    by destruct (2 <? canonical_count ls). }
  assert (Hscanned : canonical_count labels < 2 ->
    forall h, (Transformations.header_find df).2 = Return (Some h) ->
    exists i row, scanned_row df i row
      /\ Transformations.map_cells row = Return (Transformations.col_values h)
      /\ 2 < canonical_count (Transformations.col_values h)
      /\ h = {| Transformations.loc := Transformations.LocRow i;
                Transformations.col_values := Transformations.col_values h;
                Transformations.match_count :=
                  canonical_count (Transformations.col_values h);
                Transformations.found := true |}).
  { intros Hlt h.
    destruct (Transformations.search_rows_loop 0
                (Transformations.rows (Transformations.fillna df))) as [i|] eqn:Hloop.
    2:{ by rewrite (header_find_no_scan df Hlt Hloop). }
    apply search_rows_loop_scanned in Hloop as [row Hscan].
    rewrite (header_find_scan df i row Hlt Hscan). cbn [snd].
    destruct (Transformations.map_cells row) as [ls|e] eqn:Hcells; cbn [bind]; [|done].
    destruct (Nat.ltb_spec 2 (canonical_count ls)); [|done].
    intros [= <-]. exists i, row. done. }
  split; [|split; [done|split; [|done]]].
  - split; [|intros Hge; rewrite (Hcol Hge); eexists; split; reflexivity].
    intros (h & Hh & Hloc).
    destruct (Nat.le_gt_cases 2 (canonical_count labels)) as [|Hlt]; [done|].
    destruct (Hscanned Hlt h Hh) as (i & row & _ & _ & _ & Heq).
    rewrite Heq in Hloc. discriminate Hloc.
  - intros h i Hh Hloc.
    destruct (Nat.le_gt_cases 2 (canonical_count labels)) as [Hge|Hlt].
    { rewrite (Hcol Hge) in Hh. injection Hh as <-. discriminate Hloc. }
    destruct (Hscanned Hlt h Hh) as (i' & row & Hscan & Hcells & Hcount & Heq).
    rewrite Heq in Hloc. injection Hloc as ->.
    rewrite Heq. cbn. split; [done|]. split; [done|]. split; [done|].
    split; [done|]. exists row. split; [done|]. by rewrite Heq in Hcells.
Qed.

Lemma header_find_thresholds_witness :
  Transformations.header_find
    {| Transformations.columns := ["Price"; "Mold"; "Plastic"; "Color"];
       Transformations.rows := [] |}
  = ({| Transformations.columns := ["Price"; "Mold"; "Plastic"; "Color"];
        Transformations.rows := [] |},
     Return (Some {| Transformations.loc := Transformations.LocColumn;
                     Transformations.col_values := ["price"; "mold"; "plastic"; "color"];
                     Transformations.match_count := 4;
                     Transformations.found := true |})).
Proof.
  refine (proj1 (proj2 (header_find_thresholds
    {| Transformations.columns := ["Price"; "Mold"; "Plastic"; "Color"];
       Transformations.rows := [] |})) _).
  vm_compute. lia.
Defined.

(** X29: in the row scan only the first row holding a canonical field name
    is measured against the threshold.  When the column row has fewer than 2
    canonical labels and the first such row, its cells all text, has at most
    2 distinct canonical labels, [header_find] reports not-found, whatever
    the rows below it hold. *)
Theorem header_find_first_candidate_only
    (df : Transformations.DataFrame) (i : nat) (row : list Transformations.Cell)
    (labels : list string) :
  canonical_count (Transformations.df_lower_strip df) < 2 ->
  Transformations.rows (Transformations.fillna df) !! i = Some row ->
  has_canonical_name row ->
  (forall j r, j < i -> Transformations.rows (Transformations.fillna df) !! j = Some r ->
               ~ has_canonical_name r) ->
  Transformations.map_cells row = Return labels ->
  canonical_count labels <= 2 ->
  Transformations.header_find df = (Transformations.fillna df, Return None).
Proof.
  intros HA Hrow Hhit Hbefore Hcells Hcount.
  unfold Transformations.header_find. rewrite header_match_count_distinct.
  destruct (Nat.leb_spec 2 (canonical_count (Transformations.df_lower_strip df)));
    [lia|].
  unfold Transformations.search_rows_for_header.
  rewrite (search_rows_loop_first _ 0 i row Hrow).
  - change (0 + i) with i. cbv beta iota zeta. unfold item. rewrite Hrow.
    cbn [bind].
    assert (Hf : filter (fun x => Transformations.is_None x = false) row = row).
    { clear -Hcells. revert labels Hcells.
      induction row as [|c row IH]; intros labels Hcells; [done|].
      simpl in Hcells. destruct c; simpl in Hcells; try discriminate.
      destruct (Transformations.map_cells row) as [ls|] eqn:Hm; simpl in Hcells;
        [|discriminate].
      rewrite filter_cons_True by done. f_equal. by eapply IH. }
    rewrite Hf, Hcells. cbn [bind]. rewrite header_match_count_distinct.
    destruct (Nat.ltb_spec 2 (canonical_count labels)); [lia|done].
  - by apply row_hits_iff.
  - intros j r Hj Hr. destruct (Transformations.row_hits r) eqn:E; [|done].
    apply row_hits_iff in E. by destruct (Hbefore j r Hj Hr).
Qed.

Lemma header_find_first_candidate_only_witness :
  Transformations.header_find grid_two_candidates
  = (Transformations.fillna grid_two_candidates, Return None).
Proof.
  apply (header_find_first_candidate_only grid_two_candidates 1
           [Transformations.Str "Mold"; Transformations.Str " plastic"; Transformations.Str "grams"]
           ["mold"; "plastic"; "grams"]).
  - vm_compute. lia.
  - reflexivity.
  - exists "mold". split; [|vm_compute; left].
    unfold Transformations.mapping_keys, Models.Spreadsheet_struct_fields.
    do 2 right. left.
  - intros j r Hj Hr (k & Hk & Hin).
    assert (j = 0) as -> by lia. injection Hr as <-.
    vm_compute in Hin.
    repeat (apply elem_of_cons in Hin as [Hin|Hin]; [injection Hin as ->|]).
    all: try (by apply elem_of_nil in Hin).
    all: unfold Transformations.mapping_keys, Models.Spreadsheet_struct_fields in Hk.
    all: repeat (apply elem_of_cons in Hk as [Hk|Hk]; [discriminate|]).
    all: by apply elem_of_nil in Hk.
  - reflexivity.
  - vm_compute. lia.
Defined.

(** C10 does not hold of [header_find] on every grid: when the column row
    has fewer than 2 canonical labels and a cell of the row the scan stops
    at is not text, [header_find] raises [AttributeError] at [x.lower()]
    instead of measuring the row and reporting not-found.  The scan itself
    lower-cases text cells only. *)
Theorem header_find_candidate_not_text
    (df : Transformations.DataFrame) (i : nat) (row : list Transformations.Cell) :
  canonical_count (Transformations.df_lower_strip df) < 2 ->
  scanned_row df i row ->
  (exists c, c ∈ row /\ forall s, c <> Transformations.Str s) ->
  Transformations.header_find df = (Transformations.fillna df, Raise AttributeError).
Proof.
  intros Hcols Hscan Hcell.
  by rewrite (header_find_scan df i row Hcols Hscan), (map_cells_non_text row Hcell).
Qed.

Lemma header_find_candidate_not_text_witness :
  Transformations.header_find frame_number_in_candidate
  = (frame_number_in_candidate, Raise AttributeError).
Proof.
  apply (header_find_candidate_not_text frame_number_in_candidate 0
           [Transformations.Str "Buzzz"; Transformations.Str "Discraft";
            Transformations.Num 175; Transformations.Str "stamp"]).
  - vm_compute. lia.
  - split; [reflexivity|]. split; [|intros j r Hj; lia].
    exists "stamp". split; [|vm_compute; do 3 right; left].
    unfold Transformations.mapping_keys, Models.Spreadsheet_struct_fields.
    do 9 right. left.
  - exists (Transformations.Num 175). split; [do 2 right; left|done].
Defined.

(** ** Header mapping ([transformations.py]) *)

Example map_headers_synonyms :
  Transformations.map_headers ["bin"; "mfg"; "mold name"; "sleepy scale?"]
    Transformations.mappings
  = ["price"; "manufacturer"; "mold"; "weight_scaled"].
Proof. vm_compute. reflexivity. Qed.

(** C2 does not hold of [map_headers]: the [break] after a substring match
    leaves only the inner loop, so the scan goes on to the next canonical
    field and one raw label can contribute several output labels. *)
Theorem map_headers_price_shipped :
  Transformations.map_headers ["price shipped"] Transformations.mappings
  = ["price"; "price_shipped"]
  /\ length (Transformations.map_headers ["price shipped"] Transformations.mappings)
     <> length ["price shipped"].
Proof. split; [vm_compute; reflexivity | vm_compute; lia]. Qed.

(** ** URL extraction ([sheets.py]) *)

Section CleanUrl.
Import Sheets.

Lemma find_startswith s sub :
  (0 <= Py.find s sub)%Z ->
  Py.startswith (Py.drop (Z.to_nat (Py.find s sub)) s) sub = true.
Proof.
  induction s as [|c t IH]; cbn [Py.find].
  - destruct (Py.startswith "" sub) eqn:E; [done|lia].
  - destruct (Py.startswith (String c t) sub) eqn:E; [done|].
    cbv zeta. destruct (Z.ltb_spec (Py.find t sub) 0) as [|Hge]; [lia|]. intros _.
    replace (Z.to_nat (Py.find t sub + 1)) with (S (Z.to_nat (Py.find t sub))) by lia.
    cbn [Py.drop]. auto.
Qed.

Lemma startswith_find_0 s sub : Py.startswith s sub = true -> Py.find s sub = 0%Z.
Proof. intros H. destruct s; cbn [Py.find]; by rewrite H. Qed.

(** The first token of a text that starts with a space-free prefix. *)
Lemma span_token_startswith p : forall s,
  has_space p = false -> Py.startswith s p = true ->
  Py.startswith (Py.span_token s).1 p = true.
Proof.
  induction p as [|a p IH]; intros s Hp Hs; [by destruct (Py.span_token s).1|].
  cbn [has_space] in Hp. apply orb_false_elim in Hp as [Ha Hp].
  destruct s as [|b s]; cbn [Py.startswith] in Hs; [done|].
  destruct (Ascii.eqb_spec a b) as [<-|]; [|done].
  cbn [Py.span_token]. rewrite Ha. specialize (IH s Hp Hs).
  destruct (Py.span_token s) as [w r]. cbn [fst Py.startswith] in *.
  by rewrite Ascii.eqb_refl.
Qed.

Lemma span_token_no_space s : has_space (Py.span_token s).1 = false.
Proof.
  induction s as [|c s IH]; cbn [has_space Py.span_token fst]; [done|].
  destruct (Py.is_space c) eqn:E; [done|].
  destruct (Py.span_token s) as [w r]. cbn [has_space fst] in *. by rewrite E.
Qed.

Lemma span_token_id s : has_space s = false -> Py.span_token s = (s, "").
Proof.
  induction s as [|c s IH]; cbn [has_space Py.span_token]; [done|].
  intros H. apply orb_false_elim in H as [Hc Hs]. rewrite Hc, (IH Hs). reflexivity.
Qed.

Lemma split_head s c t :
  s = String c t -> Py.is_space c = false ->
  Py.split s !! 0 = Some (Py.span_token s).1.
Proof.
  intros -> Hc. unfold Py.split. cbn [String.length Py.split_go Py.lstrip Py.span_token].
  rewrite !Hc. by destruct (Py.span_token t).
Qed.

Lemma startswith_nonempty s a p :
  Py.startswith s (String a p) = true -> exists t, s = String a t.
Proof.
  destruct s as [|b s]; simpl; [done|].
  destruct (Ascii.eqb_spec a b) as [<-|]; [eauto|done].
Qed.

(** Each cleaning step keeps a prefix it cannot touch. *)
Lemma before_char_startswith ch p : forall s,
  Py.has_char ch p = false -> Py.startswith s p = true ->
  Py.startswith (Py.before_char ch s) p = true.
Proof.
  induction p as [|a p IH]; intros s Hp Hs; [by destruct (Py.before_char ch s)|].
  simpl in Hp. apply orb_false_elim in Hp as [Ha Hp].
  destruct s as [|b s]; simpl in Hs; [done|].
  destruct (Ascii.eqb_spec a b) as [<-|]; [|done].
  simpl. rewrite Ha. simpl. rewrite Ascii.eqb_refl. auto.
Qed.

Lemma remove_char_startswith ch p : forall s,
  Py.has_char ch p = false -> Py.startswith s p = true ->
  Py.startswith (Py.remove_char ch s) p = true.
Proof.
  induction p as [|a p IH]; intros s Hp Hs; [by destruct (Py.remove_char ch s)|].
  simpl in Hp. apply orb_false_elim in Hp as [Ha Hp].
  destruct s as [|b s]; simpl in Hs; [done|].
  destruct (Ascii.eqb_spec a b) as [<-|]; [|done].
  simpl. rewrite Ha. simpl. rewrite Ascii.eqb_refl. auto.
Qed.

Lemma drop_last_startswith ch p : forall s,
  p <> "" -> Py.ends_with_char ch p = false -> Py.ends_with_char ch s = true ->
  Py.startswith s p = true -> Py.startswith (Py.drop_last s) p = true.
Proof.
  induction p as [|a p IH]; intros s Hne Hp He Hs; [done|].
  destruct s as [|b s]; simpl in Hs; [done|].
  destruct (Ascii.eqb_spec a b) as [<-|]; [|done].
  destruct p as [|a' p].
  - destruct s as [|b' s]; [simpl in *; congruence|].
    change (Py.drop_last (String a (String b' s)))
      with (String a (Py.drop_last (String b' s))).
    cbn [Py.startswith]. rewrite Ascii.eqb_refl. by destruct (Py.drop_last _).
  - destruct (startswith_nonempty _ _ _ Hs) as [s' ->].
    change (Py.drop_last (String a (String a' s')))
      with (String a (Py.drop_last (String a' s'))).
    cbn [Py.startswith]. rewrite Ascii.eqb_refl. apply IH; done.
Qed.

(** The characters a step removes stay away afterwards. *)
Lemma before_char_has_char ch c s :
  Py.has_char c s = false -> Py.has_char c (Py.before_char ch s) = false.
Proof.
  induction s as [|b s IH]; simpl; [done|].
  intros H. apply orb_false_elim in H as [Hb Hs]. destruct (Ascii.eqb b ch); simpl; [done|].
  by rewrite Hb, IH.
Qed.

Lemma before_char_no_char ch s : Py.has_char ch (Py.before_char ch s) = false.
Proof.
  induction s as [|b s IH]; simpl; [done|].
  destruct (Ascii.eqb b ch) eqn:E; simpl; [done|]. by rewrite E.
Qed.

Lemma remove_char_has_char ch c s :
  Py.has_char c s = false -> Py.has_char c (Py.remove_char ch s) = false.
Proof.
  induction s as [|b s IH]; simpl; [done|].
  intros H. apply orb_false_elim in H as [Hb Hs]. destruct (Ascii.eqb b ch); simpl; [auto|].
  by rewrite Hb, IH.
Qed.

Lemma remove_char_no_char ch s : Py.has_char ch (Py.remove_char ch s) = false.
Proof.
  induction s as [|b s IH]; simpl; [done|].
  destruct (Ascii.eqb b ch) eqn:E; simpl; [done|]. by rewrite E.
Qed.

Lemma drop_last_has_char c s :
  Py.has_char c s = false -> Py.has_char c (Py.drop_last s) = false.
Proof.
  induction s as [|b s IH]; [done|].
  intros H. simpl in H. apply orb_false_elim in H as [Hb Hs].
  destruct s as [|b' s]; [done|].
  change (Py.drop_last (String b (String b' s)))
    with (String b (Py.drop_last (String b' s))).
  simpl. rewrite Hb. simpl. auto.
Qed.

Lemma before_char_has_space ch s :
  has_space s = false -> has_space (Py.before_char ch s) = false.
Proof.
  induction s as [|b s IH]; cbn [has_space Py.before_char]; [done|].
  intros H. apply orb_false_elim in H as [Hb Hs]. destruct (Ascii.eqb b ch); cbn [has_space]; [done|].
  by rewrite Hb, IH.
Qed.

Lemma remove_char_has_space ch s :
  has_space s = false -> has_space (Py.remove_char ch s) = false.
Proof.
  induction s as [|b s IH]; cbn [has_space Py.remove_char]; [done|].
  intros H. apply orb_false_elim in H as [Hb Hs]. destruct (Ascii.eqb b ch); cbn [has_space]; [auto|].
  by rewrite Hb, IH.
Qed.

Lemma drop_last_has_space s :
  has_space s = false -> has_space (Py.drop_last s) = false.
Proof.
  induction s as [|b s IH]; [done|].
  intros H. cbn [has_space] in H. apply orb_false_elim in H as [Hb Hs].
  destruct s as [|b' s]; [done|].
  change (Py.drop_last (String b (String b' s)))
    with (String b (Py.drop_last (String b' s))).
  cbn [has_space] in *. rewrite Hb. auto.
Qed.

Lemma clean_url_cleaned (comment : string) :
  Py.contains BASE_URL comment = true ->
  exists r, clean_url comment = Return r /\ cleaned r.
Proof.
  intros Hc. unfold Py.contains in Hc. apply Z.leb_le in Hc.
  unfold clean_url, Py.slice_from.
  destruct (Z.ltb_spec (Py.find comment BASE_URL) 0) as [|_]; [lia|].
  pose proof (find_startswith _ _ Hc) as Hs.
  set (s := Py.drop _ comment) in *.
  destruct (startswith_nonempty _ _ _ Hs) as [t Ht].
  unfold item. rewrite (split_head s _ t Ht) by done. cbn [bind].
  pose proof (span_token_startswith BASE_URL s eq_refl Hs) as H1.
  pose proof (span_token_no_space s) as H2.
  set (tok := (Py.span_token s).1) in *. clearbody tok. clear Hs Ht t s Hc.
  eexists. split; [reflexivity|].
  set (r1 := if Py.has_char "]" tok then Py.before_char "]" tok else tok).
  assert (Hr1 : Py.startswith r1 BASE_URL = true /\ has_space r1 = false
                /\ Py.has_char "]" r1 = false).
  { unfold r1. destruct (Py.has_char "]" tok) eqn:E.
    - split; [by apply before_char_startswith|].
      split; [by apply before_char_has_space|apply before_char_no_char].
    - done. }
  clearbody r1. clear H1 H2 tok. destruct Hr1 as (H1 & H2 & H3).
  set (r2 := if Py.ends_with_char "." r1 then Py.drop_last r1 else r1).
  assert (Hr2 : Py.startswith r2 BASE_URL = true /\ has_space r2 = false
                /\ Py.has_char "]" r2 = false).
  { unfold r2. destruct (Py.ends_with_char "." r1) eqn:E; [|done].
    split; [by apply (drop_last_startswith ".")|].
    split; [by apply drop_last_has_space|by apply drop_last_has_char]. }
  clearbody r2. clear H1 H2 H3 r1. destruct Hr2 as (H1 & H2 & H3).
  set (r3 := if Py.has_char "\" r2
             then Py.remove_char "\" (Py.remove_char ")" r2) else r2).
  assert (Hr3 : Py.startswith r3 BASE_URL = true /\ has_space r3 = false
                /\ Py.has_char "]" r3 = false /\ Py.has_char "\" r3 = false).
  { unfold r3. destruct (Py.has_char "\" r2) eqn:E; [|done].
    split; [apply remove_char_startswith; [done|]; by apply remove_char_startswith|].
    split; [by do 2 apply remove_char_has_space|].
    split; [by do 2 apply remove_char_has_char|apply remove_char_no_char]. }
  clearbody r3. clear H1 H2 H3 r2. destruct Hr3 as (H1 & H2 & H3 & H4).
  unfold cleaned. destruct (Py.has_char ")" r3) eqn:E; [|done].
  split; [by apply remove_char_startswith|].
  split; [by apply remove_char_has_space|].
  split; [by apply remove_char_has_char|].
  split; [by apply remove_char_has_char|apply remove_char_no_char].
Qed.

Lemma clean_url_on_cleaned (r : string) :
  cleaned r ->
  clean_url r = Return (if Py.ends_with_char "." r then Py.drop_last r else r).
Proof.
  intros (H1 & H2 & H3 & H4 & H5).
  unfold clean_url, Py.slice_from. rewrite (startswith_find_0 _ _ H1).
  change (Py.drop (Z.to_nat (if (0 <? 0)%Z then _ else 0%Z)) r) with r.
  destruct (startswith_nonempty _ _ _ H1) as [t Ht].
  unfold item. rewrite (split_head r "h" t Ht eq_refl), (span_token_id r H2).
  cbn [bind fst]. rewrite H3.
  destruct (Py.ends_with_char "." r).
  - by rewrite (drop_last_has_char _ _ H4), (drop_last_has_char _ _ H5).
  - by rewrite H4, H5.
Qed.

End CleanUrl.

(** C6, as the spec words it, fails: the period that ends the url is looked
    for before the closing parentheses are removed, so a period in front of
    a parenthesis survives the first pass and falls to the second. *)
Lemma clean_url_not_idempotent_counterexample :
  Sheets.clean_url "[my discs](https://docs.google.com/spreadsheets/d/abc.)"
  = Return "https://docs.google.com/spreadsheets/d/abc."
  /\ Sheets.clean_url "https://docs.google.com/spreadsheets/d/abc."
     = Return "https://docs.google.com/spreadsheets/d/abc".
Proof. split; reflexivity. Qed.

(** C6 (amended): on a text that holds the base url, [clean_url] returns a
    url, and a second pass removes one more trailing period when the url
    still ends with one and nothing else; so [clean_url] is idempotent on
    the text exactly when its first result does not end with a period. *)
Theorem clean_url_twice (comment : string) :
  Py.contains Sheets.BASE_URL comment = true ->
  exists r,
    Sheets.clean_url comment = Return r
    /\ Sheets.clean_url r
       = Return (if Py.ends_with_char "." r then Py.drop_last r else r)
    /\ (Sheets.clean_url r = Return r <-> Py.ends_with_char "." r = false).
Proof.
  intros Hc. destruct (clean_url_cleaned comment Hc) as (r & Hr & Hcl).
  exists r. split; [done|]. rewrite (clean_url_on_cleaned r Hcl).
  split; [done|]. destruct (Py.ends_with_char "." r) eqn:E; [|done].
  split; [|done]. intros [= Heq]. exfalso.
  assert (Hlen : forall s, Py.ends_with_char "." s = true ->
                   String.length (Py.drop_last s) < String.length s).
  { clear. induction s as [|c s IH]; [done|]. destruct s as [|c' s]; [simpl; lia|].
    intros H. change (Py.drop_last (String c (String c' s)))
      with (String c (Py.drop_last (String c' s))).
    specialize (IH H). simpl in *. lia. }
  specialize (Hlen r E). rewrite Heq in Hlen. lia.
Qed.

Lemma clean_url_twice_witness :
  exists r,
    Sheets.clean_url "see https://docs.google.com/spreadsheets/d/a\_b]. thanks" = Return r
    /\ Sheets.clean_url r = Return r.
Proof.
  destruct (clean_url_twice "see https://docs.google.com/spreadsheets/d/a\_b]. thanks"
              eq_refl) as (r & Hr & _ & Hiff).
  exists r. split; [exact Hr|]. apply Hiff.
  vm_compute in Hr. injection Hr as <-. reflexivity.
Defined.

(** ** Parsing submissions ([sheets.py]) *)

Section Parse.
Import Models Sheets.
Variable extract_id_from_url : string -> option string.

Lemma startswith_contains s p : Py.startswith s p = true -> Py.contains p s = true.
Proof. intros H. unfold Py.contains. by rewrite (startswith_find_0 _ _ H). Qed.

Lemma cleaned_contains r : cleaned r -> Py.contains BASE_URL r = true /\ r <> "".
Proof.
  intros (H1 & _). split; [by apply startswith_contains|].
  by destruct (startswith_nonempty _ _ _ H1) as [t ->].
Qed.

Lemma bodiless_entry_first_cons comment rest :
  bodiless_entry_first (comment :: rest)
  <-> comment = None \/ (body_without_link comment /\ bodiless_entry_first rest).
Proof.
  split.
  - intros ([|c before] & rest' & Heq & Hall).
    + injection Heq as -> _. by left.
    + injection Heq as -> ->. apply Forall_cons in Hall as [Hc Hall].
      right. split; [done|]. by exists before, rest'.
  - intros [->|[Hc (before & rest' & -> & Hall)]].
    + by exists [], rest.
    + exists (comment :: before), rest'. split; [done|]. by constructor.
Qed.

(** The three ways out of the loop over the comments. *)
Lemma find_in_comments_spec (comments : list (option string)) :
  (find_in_comments comments = Return None <-> Forall body_without_link comments)
  /\ (forall e, find_in_comments comments = Raise e
        <-> e = AttributeError /\ bodiless_entry_first comments)
  /\ (forall u, find_in_comments comments = Return (Some u) -> cleaned u).
Proof.
  induction comments as [|[body|] rest (IHnone & IHraise & IHsome)];
    cbn [find_in_comments bind].
  - split; [done|]. split; [|done]. intros e. split; [done|].
    intros (_ & [|? ?] & ? & [=] & _).
  - destruct (Py.contains BASE_URL body) eqn:E.
    + destruct (clean_url_cleaned body E) as (r & -> & Hr). cbn [bind].
      split; [|split].
      * split; [done|]. intros (b & [= <-] & Hb)%Forall_cons_1%proj1. congruence.
      * intros e. split; [done|]. rewrite bodiless_entry_first_cons.
        intros (_ & [[=]|[(b & [= <-] & Hb) _]]). congruence.
      * by intros u [= <-].
    + split; [|split; [|done]].
      * rewrite IHnone. split; [|by intros [_ ?]%Forall_cons].
        intros H. constructor; [by exists body|done].
      * intros e. rewrite IHraise, bodiless_entry_first_cons. split.
        -- intros [-> H]. split; [done|]. right. split; [by exists body|done].
        -- intros [-> [[=]|[_ H]]]. done.
  - split; [|split; [|done]].
    + split; [done|]. intros ([b [[=] _]] & _)%Forall_cons.
    + intros e. rewrite bodiless_entry_first_cons. split.
      * intros [= <-]. auto.
      * by intros [-> _].
Qed.

(** [find_sheet_url] raises nothing but the [AttributeError] of the loop
    over the comments, and a url it returns holds the base url. *)
Lemma find_sheet_url_result (post : Submission) :
  match find_sheet_url post with
  | Return (Some u) => Py.contains BASE_URL u = true /\ u <> ""
  | Return None => True
  | Raise e => e = AttributeError
  end.
Proof.
  assert (Hloop : match find_in_comments (post_comments post) with
                  | Return (Some u) => Py.contains BASE_URL u = true /\ u <> ""
                  | Return None => True
                  | Raise e => e = AttributeError
                  end).
  { destruct (find_in_comments_spec (post_comments post)) as (_ & Hraise & Hsome).
    destruct (find_in_comments (post_comments post)) as [[u|]|e]; [|done|].
    - by apply cleaned_contains, Hsome.
    - by apply (Hraise e). }
  unfold find_sheet_url.
  destruct (Py.contains BASE_URL (post_title post)) eqn:E1.
  { destruct (clean_url_cleaned _ E1) as (r & -> & Hr). cbn [bind].
    by apply cleaned_contains. }
  destruct (negb (String.eqb (post_selftext post) "")); cbn [andb].
  - destruct (Py.contains BASE_URL (post_selftext post)) eqn:E2.
    + destruct (clean_url_cleaned _ E2) as (r & -> & Hr). cbn [bind].
      by apply cleaned_contains.
    + destruct (_ && _) eqn:E3; [|done].
      apply andb_prop in E3 as [_ E3]. split; [done|]. intros Hu. by rewrite Hu in E3.
  - destruct (_ && _) eqn:E3; [|done].
    apply andb_prop in E3 as [_ E3]. split; [done|]. intros Hu. by rewrite Hu in E3.
Qed.

Lemma new_SheetPost_fields post sid surl sub :
  new_SheetPost post sid surl = Return sub ->
  id sub = post_id post /\ sheet_id sub = sid /\ sheet_url sub = surl
  /\ is_Some (author sub) /\ created sub = post_created_utc post.
Proof.
  unfold new_SheetPost. destruct (post_author post); simpl; [|done].
  destruct (mkAuthor _ _); simpl; [|done]. intros [= <-]. simpl. eauto 10.
Qed.

Lemma new_SheetPost_deleted post sid surl :
  post_author post = None -> new_SheetPost post sid surl = Raise AttributeError.
Proof. unfold new_SheetPost. by intros ->. Qed.

Lemma cache_set_fresh cache key sub :
  r_keys cache !! key = None ->
  r_hashes (cache_set cache key sub) = r_hashes cache
  /\ (forall k q, r_keys cache !! k = Some q ->
        r_keys (cache_set cache key sub) !! k = Some q)
  /\ (forall k p, r_keys (cache_set cache key sub) !! k = Some p ->
        r_keys cache !! k = Some p \/ (r_keys cache !! k = None /\ p = sub)).
Proof.
  intros Hnone. split; [done|]. split; intros k p; simpl.
  - intros Hk. rewrite lookup_insert_ne; [done|]. congruence.
  - destruct (decide (key = k)) as [<-|Hne].
    + rewrite lookup_insert_eq. intros [= <-]. auto.
    + rewrite lookup_insert_ne by done. auto.
Qed.

Lemma extends_refl cache : extends cache cache.
Proof. split; [done|]. split; auto. Qed.

Lemma extends_trans c1 c2 c3 : extends c1 c2 -> extends c2 c3 -> extends c1 c3.
Proof.
  intros (Hh & Hm & Hn) (Hh' & Hm' & Hn'). split; [congruence|]. split; [auto|].
  intros k p Hp. destruct (Hn' k p Hp) as [Hold|[Hnone Hinv]]; [auto|].
  destruct (r_keys c1 !! k) as [q|] eqn:Hq; [|auto].
  apply Hm in Hq. congruence.
Qed.

(** What one step of the loop does to the cache and to [sheet_posts]. *)
Lemma parse_submission_step post cache acc cache' r :
  parse_submission extract_id_from_url post cache acc = (cache', r) ->
  extends cache cache'
  /\ (forall posts, r = Return posts ->
        (exists sub, posts = acc ++ [sub] /\ is_Some (author sub)
                     /\ is_Some (sheet_url sub))
        \/ posts = acc).
Proof.
  unfold parse_submission.
  destruct (cache_exists cache _) eqn:Hex.
  { intros [= <- <-]. split; [apply extends_refl|]. intros posts [= <-]. auto. }
  assert (Hnone : r_keys cache !! ("post:" +:+ post_id post) = None).
  { unfold cache_exists in Hex. apply bool_decide_eq_false_1 in Hex.
    by apply eq_None_not_Some. }
  assert (Hset : forall sub sid surl,
            new_SheetPost post sid surl = Return sub ->
            (is_Some sid -> is_Some surl) ->
            extends cache (cache_set cache ("post:" +:+ post_id post) sub)).
  { intros sub sid surl Hn Hinv.
    destruct (new_SheetPost_fields _ _ _ _ Hn) as (_ & Hsid & Hurl & _).
    destruct (cache_set_fresh cache _ sub Hnone) as (Hh & Hm & Hk).
    split; [done|]. split; [done|]. intros k p Hp.
    destruct (Hk k p Hp) as [?|[? ->]]; [auto|]. right. split; [done|].
    by rewrite Hsid, Hurl. }
  destruct (find_sheet_url post) as [[[|c u]|]|e].
  2:{ destruct (new_SheetPost post _ _) as [sub|e] eqn:Hn.
      2:{ intros [= <- <-]. split; [apply extends_refl|]. intros ? [=]. }
      destruct (new_SheetPost_fields _ _ _ _ Hn) as (Hid & Hsid & Hurl & Ha & _).
      rewrite Hid. intros [= <- <-]. split; [by eapply Hset|].
      intros posts [= <-]. left. exists sub. rewrite Hurl. eauto. }
  all: try (intros [= <- <-]; split; [apply extends_refl|]; intros ? [=]).
  all: destruct (new_SheetPost post None None) as [sub|e] eqn:Hn;
    [|intros [= <- <-]; split; [apply extends_refl|]; intros ? [=]].
  all: intros [= <- <-]; split; [|intros posts [= <-]; auto].
  all: eapply Hset; [done|]; by intros [? [=]].
Qed.

Lemma parse_loop_inv (submissions : list Submission) : forall cache acc cache' r,
  parse_loop extract_id_from_url submissions cache acc = (cache', r) ->
  (forall p, p ∈ acc -> is_Some (author p) /\ is_Some (sheet_url p)) ->
  extends cache cache'
  /\ (forall posts, r = Return posts ->
        forall p, p ∈ posts -> is_Some (author p) /\ is_Some (sheet_url p)).
Proof.
  induction submissions as [|post rest IH]; intros cache acc cache' r; simpl.
  { intros [= <- <-] Hacc. split; [apply extends_refl|]. by intros posts [= <-]. }
  destruct (parse_submission _ post cache acc) as [c1 [acc1|e]] eqn:Hstep.
  2:{ apply parse_submission_step in Hstep as (Hext & _).
      intros [= <- <-] Hacc. split; [done|]. intros ? [=]. }
  apply parse_submission_step in Hstep as (Hext & Hposts).
  intros Hloop Hacc. apply IH in Hloop as (Hext' & Hposts').
  - split; [by eapply extends_trans|done].
  - intros p Hp. destruct (Hposts acc1 eq_refl) as [(sub & -> & Ha & Hu)| ->]; [|auto].
    apply elem_of_app in Hp as [Hp|Hp]; [auto|].
    apply list_elem_of_singleton in Hp as ->. done.
Qed.

Lemma parse_loop_extends (submissions : list Submission) : forall cache acc cache' r,
  parse_loop extract_id_from_url submissions cache acc = (cache', r) ->
  extends cache cache'.
Proof.
  induction submissions as [|post rest IH]; intros cache acc cache' r; cbn [parse_loop].
  { intros [= <- _]. apply extends_refl. }
  destruct (parse_submission _ post cache acc) as [c1 [acc1|e]] eqn:Hstep.
  - apply parse_submission_step in Hstep as (Hext & _).
    intros Hloop. eapply extends_trans; [exact Hext|]. by eapply IH.
  - apply parse_submission_step in Hstep as (Hext & _). by intros [= <- _].
Qed.

(** A step of the loop writes no key but that of its own submission. *)
Lemma parse_submission_other_key post cache acc cache' r k :
  parse_submission extract_id_from_url post cache acc = (cache', r) ->
  k <> "post:" +:+ post_id post ->
  r_keys cache' !! k = r_keys cache !! k.
Proof.
  intros Hstep Hkey. revert Hstep. unfold parse_submission.
  destruct (cache_exists cache _); [by intros [= <- _]|].
  destruct (find_sheet_url post) as [[[|c u]|]|e]; [| | |by intros [= <- _]].
  2:{ destruct (new_SheetPost post _ _) as [sub|e] eqn:Hn; [|by intros [= <- _]].
      destruct (new_SheetPost_fields _ _ _ _ Hn) as (Hid & _). rewrite Hid.
      intros [= <- _]. cbn [cache_set r_keys]. by rewrite lookup_insert_ne. }
  all: destruct (new_SheetPost post None None) as [sub|e]; [|by intros [= <- _]].
  all: intros [= <- _]; cbn [cache_set r_keys]; by rewrite lookup_insert_ne.
Qed.

Lemma parse_loop_other_keys (submissions : list Submission) : forall cache acc cache' r k,
  parse_loop extract_id_from_url submissions cache acc = (cache', r) ->
  (forall post, post ∈ submissions -> k <> "post:" +:+ post_id post) ->
  r_keys cache' !! k = r_keys cache !! k.
Proof.
  induction submissions as [|post rest IH]; intros cache acc cache' r k; cbn [parse_loop].
  { by intros [= <- _]. }
  destruct (parse_submission _ post cache acc) as [c1 [acc1|e]] eqn:Hstep; intros Hloop Hk.
  - rewrite (IH _ _ _ _ k Hloop) by (intros p Hp; apply Hk; by right).
    apply (parse_submission_other_key _ _ _ _ _ _ Hstep), Hk. by left.
  - injection Hloop as <- _.
    apply (parse_submission_other_key _ _ _ _ _ _ Hstep), Hk. by left.
Qed.

(** The entry of a submission that is new to the cache and whose url
    yields no document id. *)
Lemma parse_loop_url_without_id (before : list Submission) (post : Submission)
    (rest : list Submission) (u : string) : forall cache acc cache' posts,
  post_id post ∉ map post_id before ->
  cache_exists cache ("post:" +:+ post_id post) = false ->
  parse_loop extract_id_from_url (before ++ post :: rest) cache acc
  = (cache', Return posts) ->
  find_sheet_url post = Return (Some u) ->
  gen_doc_id extract_id_from_url u = None ->
  exists p, r_keys cache' !! ("post:" +:+ post_id post) = Some p
    /\ id p = post_id post /\ sheet_url p = Some u /\ sheet_id p = None.
Proof.
  induction before as [|q before IH]; intros cache acc cache' posts Hfirst Hnew;
    cbn [app parse_loop].
  - intros Hloop Hurl Hid.
    destruct (parse_submission _ post cache acc) as [c1 [acc1|e]] eqn:Hstep; [|done].
    apply parse_loop_extends in Hloop as (_ & Hmono & _).
    revert Hstep. unfold parse_submission. rewrite Hnew, Hurl.
    pose proof (find_sheet_url_result post) as Hu. rewrite Hurl in Hu.
    destruct u as [|c u]; [by destruct Hu|]. rewrite Hid.
    destruct (new_SheetPost post None _) as [sub|e] eqn:Hn; [|done].
    destruct (new_SheetPost_fields _ _ _ _ Hn) as (Hsub & Hsid & Hsurl & _).
    rewrite Hsub. intros [= <- _]. exists sub. split; [|done].
    apply Hmono. cbn [cache_set r_keys]. by rewrite lookup_insert_eq.
  - intros Hloop Hurl Hid.
    destruct (parse_submission _ q cache acc) as [c1 [acc1|e]] eqn:Hstep; [|done].
    cbn [map] in Hfirst. apply not_elem_of_cons in Hfirst as [Hq Hfirst].
    apply (IH c1 acc1 cache' posts); try done.
    unfold cache_exists in *.
    rewrite (parse_submission_other_key _ _ _ _ _ _ Hstep); [done|].
    intros Heq. by apply String.app_inj in Heq.
Qed.

(** C9 does not hold of [parse_submissions]: a submission of a deleted
    account that is not in the post cache yet makes the loop raise
    [AttributeError] at [post.author.name]; nothing is cached for it and the
    submissions after it are not looked at. *)
Theorem parse_submissions_deleted_author
    (post : Submission) (rest : list Submission) (cache : RedisCache) :
  post_author post = None ->
  cache_exists cache ("post:" +:+ post_id post) = false ->
  parse_submissions extract_id_from_url (post :: rest) cache
  = (cache, Raise AttributeError).
Proof.
  intros Ha Hc. unfold parse_submissions. cbn [parse_loop].
  unfold parse_submission. rewrite Hc.
  pose proof (find_sheet_url_result post) as Hr.
  destruct (find_sheet_url post) as [[[|c u]|]|e];
    [by rewrite new_SheetPost_deleted..|by rewrite Hr].
Qed.

End Parse.

Lemma parse_submissions_deleted_author_witness :
  Sheets.parse_submissions Sheets.gspread_extract_id_from_url
    [post_deleted_author; post_document_link] empty_cache
  = (empty_cache, Raise AttributeError).
Proof.
  apply (parse_submissions_deleted_author Sheets.gspread_extract_id_from_url
           post_deleted_author [post_document_link] empty_cache); reflexivity.
Defined.

(** C5, as the spec words it, fails: a link to a document that is not a
    spreadsheet is a url without an id, and the post is cached with the
    url set and the id absent. *)
Lemma url_without_id_counterexample :
  exists p,
    Sheets.r_keys (Sheets.parse_submissions Sheets.gspread_extract_id_from_url
                     [post_document_link] empty_cache).1 !! "post:1fghij" = Some p
    /\ Models.sheet_url p = Some "https://docs.google.com/document/d/mePFEWTz/edit"
    /\ Models.sheet_id p = None.
Proof. vm_compute. eexists. split; [reflexivity|]. split; reflexivity. Qed.


(** ** Deduplication by document ([sheets.py]) *)

Section Unique.
Import Models Sheets.

Lemma unique_sheets_loop_spec (l : list SheetPost) : forall seen acc,
  (forall p, p ∈ l -> is_Some (author p)) ->
  exists u,
    unique_sheets_loop l seen acc = Return (acc ++ u)
    /\ (forall p, p ∈ u -> p ∈ l /\ exists x, sheet_id p = Some x /\ x ∉ seen)
    /\ NoDup (sheet_id <$> u)
    /\ (forall x, x ∈ seen -> filter (fun p => sheet_id p = Some x) u = [])
    /\ (forall x, x ∉ seen ->
          filter (fun p => sheet_id p = Some x) u
          = take 1 (filter (fun p => sheet_id p = Some x) l)).
Proof.
  induction l as [|post rest IH]; intros seen acc Hauth.
  { exists []. rewrite app_nil_r. split; [done|]. split.
    { intros p Hp. by apply elem_of_nil in Hp. }
    split; [constructor|]. split; done. }
  assert (Hrest : forall p, p ∈ rest -> is_Some (author p)).
  { intros p Hp. apply Hauth. by right. }
  assert (Ha : is_Some (author post)) by (apply Hauth; left).
  destruct Ha as [a Ha].
  cbn [unique_sheets_loop]. rewrite Ha.
  assert (Hskip : (forall x, sheet_id post = Some x -> x ∈ seen) ->
    exists u,
      unique_sheets_loop rest seen acc = Return (acc ++ u)
      /\ (forall p, p ∈ u -> p ∈ post :: rest /\ exists x, sheet_id p = Some x /\ x ∉ seen)
      /\ NoDup (sheet_id <$> u)
      /\ (forall x, x ∈ seen -> filter (fun p => sheet_id p = Some x) u = [])
      /\ (forall x, x ∉ seen ->
            filter (fun p => sheet_id p = Some x) u
            = take 1 (filter (fun p => sheet_id p = Some x) (post :: rest)))).
  { intros Hseen. destruct (IH seen acc Hrest) as (u & Hu & Hin & Hnd & Hs & Hf).
    exists u. split; [done|]. split; [|split; [done|split; [done|]]].
    - intros p Hp. destruct (Hin p Hp) as [? ?]. split; [by right|done].
    - intros x Hx. rewrite filter_cons_False; [auto|].
      intros Hpx. apply Hx. auto. }
  destruct (sheet_id post) as [sid|] eqn:Hsid.
  2:{ apply Hskip. intros x [=]. }
  case_bool_decide as Hnew.
  2:{ apply Hskip. by intros x [= <-]. }
  clear Hskip.
  destruct (IH ({[sid]} ∪ seen) (acc ++ [post]) Hrest) as (u & Hu & Hin & Hnd & Hs & Hf).
  exists (post :: u). split; [by rewrite Hu, <- app_assoc|].
  split; [|split; [|split]].
  - intros p [->|Hp]%elem_of_cons.
    + split; [by left|]. eauto.
    + destruct (Hin p Hp) as (? & x & ? & Hx). split; [by right|].
      exists x. split; [done|]. by apply not_elem_of_union in Hx as [_ ?].
  - rewrite fmap_cons. constructor; [|done].
    intros (p & Hp1 & Hp2)%list_elem_of_fmap.
    destruct (Hin p Hp2) as (_ & x & Hx & Hnot).
    rewrite Hsid in Hp1. rewrite Hx in Hp1. injection Hp1 as <-.
    apply Hnot, elem_of_union. left. by apply elem_of_singleton.
  - intros x Hx. rewrite filter_cons_False.
    + apply Hs, elem_of_union. by right.
    + rewrite Hsid. intros [= <-]. done.
  - intros x Hx. destruct (decide (x = sid)) as [->|Hne].
    + rewrite !filter_cons_True by done. simpl.
      rewrite Hs; [by rewrite take_0|]. apply elem_of_union. left. by apply elem_of_singleton.
    + rewrite !filter_cons_False by (rewrite Hsid; congruence).
      apply Hf. intros [Hx1%elem_of_singleton|?]%elem_of_union; done.
Qed.

Lemma insert_desc_perm x l : insert_desc x l ≡ₚ x :: l.
Proof.
  induction l as [|y l IH]; simpl; [done|].
  destruct (created y <=? created x)%Z; [done|].
  rewrite IH. apply Permutation_swap.
Qed.

Lemma insert_desc_sorted x l : desc l -> desc (insert_desc x l).
Proof.
  unfold desc. induction 1 as [|y l Hl IH Hy]; simpl.
  { constructor; constructor. }
  destruct (Z.leb_spec (created y) (created x)) as [Hle|Hgt].
  - constructor; [by constructor|]. constructor; [done|].
    eapply Forall_impl; [exact Hy|]. simpl. intros; lia.
  - constructor; [done|]. rewrite insert_desc_perm. constructor; [lia|done].
Qed.

Lemma sort_created_desc_perm l : sort_created_desc l ≡ₚ l.
Proof.
  induction l as [|x l IH]; simpl; [done|].
  fold (sort_created_desc l). by rewrite insert_desc_perm, IH.
Qed.

Lemma sort_created_desc_sorted l : desc (sort_created_desc l).
Proof.
  induction l as [|x l IH]; simpl; [constructor|].
  by apply insert_desc_sorted.
Qed.

Lemma filter_head_first {A} (P : A -> Prop) `{!forall x, Decision (P x)} (l : list A) k ks :
  filter P l = k :: ks ->
  exists l1 l2, l = l1 ++ k :: l2 /\ (forall q, q ∈ l1 -> ~ P q) /\ P k.
Proof.
  induction l as [|y l IH]; [done|].
  rewrite filter_cons. destruct (decide (P y)) as [Hy|Hy].
  - intros [= -> <-]. exists [], l. split; [done|]. split; [|done].
    intros q Hq. by apply elem_of_nil in Hq.
  - intros (l1 & l2 & -> & Hl1 & Hk)%IH. exists (y :: l1), l2.
    split; [done|]. split; [|done].
    intros q [->|Hq]%elem_of_cons; auto.
Qed.

Lemma desc_app_later l1 k l2 :
  desc (l1 ++ k :: l2) -> forall q, q ∈ k :: l2 -> (created q <= created k)%Z.
Proof.
  unfold desc. induction l1 as [|y l1 IH]; simpl; intros Hs q Hq.
  - apply StronglySorted_inv in Hs as [_ Hall].
    apply elem_of_cons in Hq as [->|Hq]; [lia|].
    rewrite Forall_forall in Hall. by apply Hall.
  - apply StronglySorted_inv in Hs as [Hs _]. by apply IH.
Qed.

End Unique.

(** C8, as the spec words it, fails: of two posts with one document id the
    post with the later creation time is the one kept, not the one dropped. *)
Lemma later_post_kept_counterexample :
  Sheets.unique_sheets (Sheets.sort_created_desc [post_older; post_newer])
  = Return [post_newer]
  /\ (Models.created post_older < Models.created post_newer)%Z
  /\ ~ later_post_dropped.
Proof.
  split; [reflexivity|]. split; [reflexivity|].
  intros H.
  apply (H [post_older; post_newer] post_older post_newer "X" [post_newer]).
  - left.
  - right; left.
  - reflexivity.
  - reflexivity.
  - reflexivity.
  - reflexivity.
  - left.
Qed.

(** C8 (amended): when some parsed post resolves to document id [x], the
    unique-documents list holds exactly one entry for [x]: the first post
    with that id in descending creation-time order, whose creation time no
    other post with that id exceeds; the posts with earlier creation times
    are the ones dropped. *)
Theorem unique_sheets_keeps_latest (posts : list Models.SheetPost) (x : string) :
  (forall p, p ∈ posts -> is_Some (Models.author p)) ->
  (exists p, p ∈ posts /\ Models.sheet_id p = Some x) ->
  exists u kept l1 l2,
    Sheets.unique_sheets (Sheets.sort_created_desc posts) = Return u
    /\ filter (fun p => Models.sheet_id p = Some x) u = [kept]
    /\ Sheets.sort_created_desc posts = l1 ++ kept :: l2
    /\ (forall q, q ∈ l1 -> Models.sheet_id q <> Some x)
    /\ kept ∈ posts
    /\ (forall q, q ∈ posts -> Models.sheet_id q = Some x ->
          (Models.created q <= Models.created kept)%Z).
Proof.
  intros Hauth (p & Hp & Hpx).
  pose proof (sort_created_desc_perm posts) as Hperm.
  pose proof (sort_created_desc_sorted posts) as Hsorted.
  set (s := Sheets.sort_created_desc posts) in *.
  destruct (unique_sheets_loop_spec s ∅ []) as (u & Hu & _ & _ & _ & Hf).
  { intros q Hq. apply Hauth. by rewrite <- Hperm. }
  specialize (Hf x (not_elem_of_empty x)).
  destruct (filter (fun p => Models.sheet_id p = Some x) s) as [|kept ks] eqn:Hfs.
  { exfalso. apply (filter_nil_not_elem_of _ _ p Hfs Hpx). by rewrite Hperm. }
  destruct (filter_head_first _ _ _ _ Hfs) as (l1 & l2 & Hs & Hl1 & Hk).
  exists u, kept, l1, l2. split; [exact Hu|]. split; [by rewrite Hf|].
  split; [done|]. split; [done|]. split.
  - rewrite <- Hperm, Hs. apply elem_of_app. right. left.
  - intros q Hq Hqx. rewrite <- Hperm, Hs in Hq. rewrite Hs in Hsorted.
    apply elem_of_app in Hq as [Hq|Hq]; [by destruct (Hl1 q Hq)|].
    by apply (desc_app_later l1 kept l2).
Qed.

Lemma unique_sheets_keeps_latest_witness :
  exists u kept,
    Sheets.unique_sheets (Sheets.sort_created_desc [post_older; post_newer]) = Return u
    /\ filter (fun p => Models.sheet_id p = Some "X") u = [kept]
    /\ (Models.created post_older <= Models.created kept)%Z.
Proof.
  destruct (unique_sheets_keeps_latest [post_older; post_newer] "X")
    as (u & kept & l1 & l2 & Hu & Hf & _ & _ & _ & Hmax).
  - intros p Hp.
    repeat (apply elem_of_cons in Hp as [->|Hp]; [by eexists|]).
    by apply elem_of_nil in Hp.
  - exists post_older. split; [left|reflexivity].
  - exists u, kept. split; [exact Hu|]. split; [exact Hf|].
    apply Hmax; [left|reflexivity].
Defined.

(** ** Download with retries ([sheets.py]) *)

Section Retry.
Import Sheets.
Variable open_by_key : list Event -> string -> string + Transformations.DataFrame.

Lemma loop_unfold sheet_id retries tr :
  gen_df_gspread_loop open_by_key sheet_id retries tr
  = if decide (retries < max_retries) then
      match open_by_key tr sheet_id with
      | inr df => (tr ++ [EvOpenByKey sheet_id], Some df)
      | inl e =>
          if Py.contains "Quota exceeded" e then
            gen_df_gspread_loop open_by_key sheet_id (S retries)
              (tr ++ [EvOpenByKey sheet_id; EvSleep 65])
          else if Py.contains "This operation is not supported" e then
            (tr ++ [EvOpenByKey sheet_id], None)
          else if decide (S retries < max_retries) then
            gen_df_gspread_loop open_by_key sheet_id (S retries)
              (tr ++ [EvOpenByKey sheet_id; EvSleep 5])
          else (tr ++ [EvOpenByKey sheet_id], None)
      end
    else (tr, None).
Proof.
  funelim (gen_df_gspread_loop open_by_key sheet_id retries tr).
  all: try rewrite <- Heqcall.
  all: repeat match goal with
         | H : open_by_key _ _ = _ |- _ => rewrite H; clear H
         | H : Py.contains _ _ = _ |- _ => rewrite H; clear H
         end.
  all: repeat case_decide; try done; exfalso; unfold max_retries in *; lia.
Qed.

Lemma attempts_open sid l : attempts (EvOpenByKey sid :: l) = S (attempts l).
Proof. reflexivity. Qed.

Lemma attempts_sleep n l : attempts (EvSleep n :: l) = attempts l.
Proof. reflexivity. Qed.

(** What the loop adds to the events from the value [retries] of its
    counter, and how each call it makes is followed up. *)
Lemma loop_policy (sheet_id : string) (k : nat) : forall retries tr,
  retries + k = max_retries ->
  exists new df,
    gen_df_gspread_loop open_by_key sheet_id retries tr = (tr ++ new, df)
    /\ loop_outcome open_by_key sheet_id k retries tr new df.
Proof.
  induction k as [|k IH]; intros retries tr Hk; rewrite loop_unfold.
  { rewrite decide_False by lia. exists [], None. rewrite app_nil_r.
    split; [done|]. split; [done|]. split; [done|]. split; [lia|].
    split; [constructor|]. intros [|? ?] ? [=]. }
  rewrite decide_True by lia.
  (* the loop ends with this call *)
  assert (Hsingle : forall df,
    (match open_by_key tr sheet_id with
     | inr d => df = Some d
     | inl e => Py.contains "Quota exceeded" e = false
                /\ (Py.contains "This operation is not supported" e = true
                    \/ ~ S retries < max_retries) /\ df = None
     end) ->
    exists new df',
      (tr ++ [EvOpenByKey sheet_id], df) = (tr ++ new, df')
      /\ loop_outcome open_by_key sheet_id (S k) retries tr new df').
  { intros df Hdf. exists [EvOpenByKey sheet_id], df.
    split; [done|]. split; [cbn; lia|]. split; [done|]. split; [eauto|].
    split; [repeat constructor|].
    intros [|? [|? ?]] post [=]; subst. rewrite app_nil_r.
    destruct (open_by_key tr sheet_id) as [e|d]; [|done].
    destruct Hdf as (-> & Hcase & ->). destruct Hcase as [->|Hlast]; [done|].
    destruct (Py.contains "This operation is not supported" e); [done|].
    rewrite decide_False; [done|]. cbn. lia. }
  (* the loop sleeps [n] and goes round again *)
  assert (Hretry : forall e n,
    open_by_key tr sheet_id = inl e ->
    (if Py.contains "Quota exceeded" e then n = 65
     else Py.contains "This operation is not supported" e = false
          /\ S retries < max_retries /\ n = 5) ->
    exists new df,
      gen_df_gspread_loop open_by_key sheet_id (S retries)
        (tr ++ [EvOpenByKey sheet_id; EvSleep n]) = (tr ++ new, df)
      /\ loop_outcome open_by_key sheet_id (S k) retries tr new df).
  { intros e n He Hn.
    destruct (IH (S retries) (tr ++ [EvOpenByKey sheet_id; EvSleep n]))
      as (new & df & Hloop & Hatt & Hzero & Hpos & Hall & Hpol); [lia|].
    exists (EvOpenByKey sheet_id :: EvSleep n :: new), df.
    split; [by rewrite Hloop, <- app_assoc|].
    split; [rewrite attempts_open, attempts_sleep; lia|].
    split; [done|]. split; [eauto|].
    split; [constructor; [auto|constructor; [eauto|done]]|].
    intros pre post Hdec. destruct pre as [|ev pre].
    - injection Hdec as <-. rewrite app_nil_r, He.
      assert (Hnext : if decide (retries + attempts [] + 1 < max_retries)
                      then exists post'', new = EvOpenByKey sheet_id :: post''
                      else new = [] /\ df = None).
      { cbn. case_decide.
        - apply Hpos. unfold max_retries in *. lia.
        - apply Hzero. unfold max_retries in *. lia. }
      destruct (Py.contains "Quota exceeded" e).
      + subst n. eauto.
      + destruct Hn as (-> & Hlt & ->). rewrite decide_True by (cbn; lia).
        cbn in Hnext. rewrite decide_True in Hnext by lia.
        destruct Hnext as [post'' ->]. eauto.
    - injection Hdec as <- Hdec. destruct pre as [|ev pre]; [done|].
      injection Hdec as <- ->.
      specialize (Hpol pre post eq_refl).
      rewrite <- app_assoc in Hpol. cbn [app] in Hpol.
      replace (retries + attempts (EvOpenByKey sheet_id :: EvSleep n :: pre) + 1)
        with (S retries + attempts pre + 1)
        by (rewrite attempts_open, attempts_sleep; lia).
      exact Hpol. }
  destruct (open_by_key tr sheet_id) as [e|d] eqn:He.
  2:{ by apply Hsingle. }
  destruct (Py.contains "Quota exceeded" e) eqn:Hq.
  { apply (Hretry e 65 eq_refl). by rewrite Hq. }
  destruct (Py.contains "This operation is not supported" e) eqn:Hu.
  { apply Hsingle. auto. }
  case_decide as Hlt.
  - apply (Hretry e 5 eq_refl). by rewrite Hq, Hu.
  - apply Hsingle. auto.
Qed.

(** C4: the fallback download starts with a call of the API for the
    document and does nothing but such calls and waits; it calls the API at
    least once and at most 3 times.  A call that fails with a quota error is
    followed by a wait of 65 and, while fewer than 3 calls were made, by
    another call; a call that fails with any other error but "not
    supported" is followed by a wait of 5 and another call while fewer than
    3 calls were made; after the third failed call the download fails.  A
    call that fails with "not supported" is the last event and the download
    fails; a call that succeeds is the last event and gives the frame. *)
Theorem gen_df_gspread_retry_policy (sheet_id : string) (tr : list Event) :
  exists new df,
    gen_df_gspread open_by_key sheet_id tr = (tr ++ new, df)
    /\ 1 <= attempts new <= 3
    /\ (exists rest, new = EvOpenByKey sheet_id :: rest)
    /\ Forall (fun ev => ev = EvOpenByKey sheet_id \/ exists n, ev = EvSleep n) new
    /\ (forall pre post, new = pre ++ EvOpenByKey sheet_id :: post ->
         match open_by_key (tr ++ pre) sheet_id with
         | inr d => post = [] /\ df = Some d
         | inl e =>
             if Py.contains "Quota exceeded" e then
               exists post', post = EvSleep 65 :: post'
                 /\ if decide (attempts pre + 1 < 3)
                    then exists post'', post' = EvOpenByKey sheet_id :: post''
                    else post' = [] /\ df = None
             else if Py.contains "This operation is not supported" e then
               post = [] /\ df = None
             else if decide (attempts pre + 1 < 3) then
               exists post', post = EvSleep 5 :: EvOpenByKey sheet_id :: post'
             else post = [] /\ df = None
         end).
Proof.
  destruct (loop_policy sheet_id 3 0 tr eq_refl)
    as (new & df & Hloop & Hatt & _ & Hpos & Hall & Hpol).
  destruct Hpos as [rest Hrest]; [lia|].
  exists new, df. split; [exact Hloop|]. split; [|split; [|split]].
  - split; [|done]. rewrite Hrest, attempts_open. lia.
  - by exists rest.
  - exact Hall.
  - exact Hpol.
Qed.

End Retry.

Lemma gen_df_gspread_retry_policy_witness :
  Sheets.gen_df_gspread (fun _ _ => inl "APIError: Quota exceeded for quota metric") "X" []
  = ([Sheets.EvOpenByKey "X"; Sheets.EvSleep 65;
      Sheets.EvOpenByKey "X"; Sheets.EvSleep 65;
      Sheets.EvOpenByKey "X"; Sheets.EvSleep 65], None)
  /\ Sheets.gen_df_gspread (fun _ _ => inl "This operation is not supported for this document") "X" []
     = ([Sheets.EvOpenByKey "X"], None).
Proof.
  split.
  - destruct (gen_df_gspread_retry_policy
                (fun _ _ => inl "APIError: Quota exceeded for quota metric") "X" [])
      as (new & df & Hrun & _ & _).
    rewrite Hrun. vm_compute in Hrun. injection Hrun as <- <-. reflexivity.
  - destruct (gen_df_gspread_retry_policy
                (fun _ _ => inl "This operation is not supported for this document") "X" [])
      as (new & df & Hrun & _ & _).
    rewrite Hrun. vm_compute in Hrun. injection Hrun as <- <-. reflexivity.
Defined.

(** ** At most one download per document ([sheets.py]) *)

Section Pipeline.
Import Models Sheets.
Variable extract_id_from_url : string -> option string.
Variable read_csv : list Event -> string -> option Transformations.DataFrame.
Variable open_by_key : list Event -> string -> string + Transformations.DataFrame.
Variable to_json : Transformations.DataFrame -> string.
Variable now : list Event -> Z.

Lemma length_append (s1 s2 : string) :
  String.length (s1 +:+ s2) = String.length s1 + String.length s2.
Proof. induction s1 as [|c s1 IH]; simpl; [done|]. by rewrite IH. Qed.

Lemma append_cancel_r (e : string) : forall s1 s2, s1 +:+ e = s2 +:+ e -> s1 = s2.
Proof.
  induction s1 as [|c s1 IH]; intros [|d s2] H.
  - done.
  - apply (f_equal String.length) in H. rewrite !length_append in H.
    cbn [String.length] in H. lia.
  - apply (f_equal String.length) in H. rewrite !length_append in H.
    cbn [String.length] in H. lia.
  - cbn [String.append] in H. injection H as -> H. f_equal. auto.
Qed.

Lemma dl_url_inj s1 s2 : dl_url s1 = dl_url s2 -> s1 = s2.
Proof.
  unfold dl_url. intros H. apply String.app_inj in H.
  by apply append_cancel_r in H.
Qed.

Lemma gen_df_events (sid : string) (tr : list Event) :
  exists new df,
    gen_df read_csv open_by_key sid tr = (tr ++ new, df)
    /\ Forall (about sid) new
    /\ download_ids new = [].
Proof.
  unfold gen_df. fold (dl_url sid).
  destruct (read_csv tr (dl_url sid)) as [df|].
  { exists [EvReadCsv (dl_url sid)], (Some df). split; [done|]. split; [|done].
    constructor; [|constructor]. right; by left. }
  unfold gen_df_gspread.
  destruct (loop_policy open_by_key sid 3 0 (tr ++ [EvReadCsv (dl_url sid)]) eq_refl)
    as (new & df & -> & _ & _ & _ & Hall & _).
  exists (EvReadCsv (dl_url sid) :: new), df. split; [by rewrite <- app_assoc|]. split.
  - constructor; [right; by left|]. eapply Forall_impl; [exact Hall|].
    intros ev [->|[n ->]]; unfold about; eauto 6.
  - simpl. clear -Hall. induction Hall as [|ev l [->|[n ->]] _ IH]; simpl; done.
Qed.

Lemma add_sheet_data_loop_events (us : list SheetPost) (c : RedisCache) :
  forall tr items,
  (forall p, p ∈ us -> is_Some (sheet_id p)) ->
  exists new r,
    add_sheet_data_loop read_csv open_by_key to_json now us c tr items = (tr ++ new, r)
    /\ download_ids new = uncached_ids c us
    /\ Forall (fun ev => exists sid, about sid ev /\ check_cache c (Some sid) = false) new.
Proof.
  induction us as [|sheet rest IH]; intros tr items Hids.
  { exists [], (Return items). rewrite app_nil_r. done. }
  assert (Hrest : forall p, p ∈ rest -> is_Some (sheet_id p)).
  { intros p Hp. apply Hids. by right. }
  destruct (Hids sheet) as [sid Hsid]; [left|].
  cbn [add_sheet_data_loop]. unfold uncached_ids. cbn [omap list_omap].
  fold (uncached_ids c rest). rewrite Hsid.
  destruct (check_cache c (Some sid)) eqn:Hc; cbn [negb].
  { destruct (IH tr items Hrest) as (new & r & -> & Hd & Hall). eauto. }
  unfold download_sheet.
  destruct (gen_df_events sid (tr ++ [EvDownload sid])) as (e1 & df & -> & Hall1 & Hd1).
  assert (Hgo : forall items',
    exists new r,
      add_sheet_data_loop read_csv open_by_key to_json now rest c
        ((tr ++ [EvDownload sid]) ++ e1) items' = (tr ++ new, r)
      /\ download_ids new = sid :: uncached_ids c rest
      /\ Forall (fun ev => exists sid, about sid ev /\ check_cache c (Some sid) = false) new).
  { intros items'.
    destruct (IH ((tr ++ [EvDownload sid]) ++ e1) items' Hrest) as (new & r & -> & Hd & Hall).
    exists (EvDownload sid :: e1 ++ new), r.
    split; [by rewrite <- !app_assoc|]. split.
    - unfold download_ids in *. cbn [omap list_omap]. rewrite omap_app. by rewrite Hd1, Hd.
    - constructor; [exists sid; split; [by left|done]|].
      apply Forall_app. split; [|done].
      eapply Forall_impl; [exact Hall1|]. intros ev Hev. eauto. }
  destruct df; apply Hgo.
Qed.

Lemma NoDup_uncached_ids (c : RedisCache) (us : list SheetPost) :
  NoDup (sheet_id <$> us) -> NoDup (uncached_ids c us).
Proof.
  unfold uncached_ids. induction us as [|p us IH]; [constructor|].
  rewrite fmap_cons. intros [Hp Hnd]%NoDup_cons. cbn [omap list_omap].
  destruct (sheet_id p) as [sid|] eqn:Hsid; [|auto].
  destruct (check_cache c (Some sid)); [auto|].
  constructor; [|auto]. intros Hin. apply Hp.
  apply list_elem_of_omap in Hin as (q & Hq & Hqs).
  apply list_elem_of_fmap. exists q. split; [|done].
  destruct (sheet_id q) as [sid'|]; [|done].
  destruct (check_cache c (Some sid')); congruence.
Qed.

(** C1: the calls of [download_sheet] in one run of [sheet_query] are for
    pairwise distinct document ids, and for a document id that is a field
    [sheet:{id}] of the hash [sheets] when the run starts the run causes no
    download event at all: no call of [download_sheet], no CSV export and
    no API call. *)
Theorem sheet_query_download_once (ss : list Submission) (w : World) :
  exists new,
    trace (sheet_query extract_id_from_url read_csv open_by_key to_json now ss w).1
    = trace w ++ new
    /\ NoDup (download_ids new)
    /\ (forall sid,
         cache_hexists (cache w) "sheets" ("sheet:" +:+ sid) = true ->
         (sid ∉ download_ids new)
         /\ forall ev, ev ∈ new ->
              (ev <> EvDownload sid) /\ (ev <> EvReadCsv (dl_url sid))
              /\ (ev <> EvOpenByKey sid)).
Proof.
  assert (Hnil : exists new : list Event,
            trace w = trace w ++ new /\ NoDup (download_ids new)
            /\ (forall sid,
                 cache_hexists (cache w) "sheets" ("sheet:" +:+ sid) = true ->
                 (sid ∉ download_ids new)
                 /\ forall ev, ev ∈ new ->
                      (ev <> EvDownload sid) /\ (ev <> EvReadCsv (dl_url sid))
                      /\ (ev <> EvOpenByKey sid))).
  { exists []. rewrite app_nil_r. split; [done|]. split; [constructor|].
    intros sid _. split; [apply not_elem_of_nil|]. intros ev Hev.
    by apply elem_of_nil in Hev. }
  unfold sheet_query, parse_submissions.
  destruct (parse_loop _ ss (cache w) []) as [c [parsed|e]] eqn:Hparse; [|exact Hnil].
  apply parse_loop_inv in Hparse as ((Hh & _ & _) & Hposts).
  2:{ intros p Hp. by apply elem_of_nil in Hp. }
  specialize (Hposts parsed eq_refl).
  destruct (unique_sheets_loop_spec (sort_created_desc parsed) ∅ [])
    as (u & Hu & Hin & Hnd & _ & _).
  { intros p Hp. rewrite sort_created_desc_perm in Hp. by apply Hposts. }
  unfold unique_sheets. rewrite Hu. cbn [app].
  destruct (add_sheet_data_loop_events u c (trace w) [])
    as (new & r & Hrun & Hd & Hall).
  { intros p Hp. destruct (Hin p Hp) as (_ & x & -> & _). eauto. }
  unfold add_sheet_data. rewrite Hrun.
  assert (Hcached : forall sid,
            cache_hexists (cache w) "sheets" ("sheet:" +:+ sid) = true ->
            check_cache c (Some sid) = true).
  { intros sid Hsid. unfold check_cache, cache_hexists in *. by rewrite Hh. }
  exists new. split; [by destruct r|]. split.
  { rewrite Hd. by apply NoDup_uncached_ids. }
  intros sid Hsid. apply Hcached in Hsid.
  rewrite Forall_forall in Hall.
  assert (Hev : forall ev, ev ∈ new ->
            (ev <> EvDownload sid) /\ (ev <> EvReadCsv (dl_url sid))
            /\ (ev <> EvOpenByKey sid)).
  { intros ev Hev. destruct (Hall ev Hev) as (sid' & Hab & Hc).
    assert (Hne : sid' <> sid) by congruence.
    destruct Hab as [->|[->|[->|[n ->]]]]; repeat split; try congruence.
    intros Heq. apply Hne, dl_url_inj. congruence. }
  split; [|exact Hev].
  intros Hin'. apply list_elem_of_omap in Hin' as (ev & Hev1 & Hev2).
  destruct ev; try done. injection Hev2 as ->.
  by destruct (Hev _ Hev1) as (? & _).
Qed.

End Pipeline.

Lemma sheet_query_download_once_witness :
  exists new,
    Sheets.trace (Sheets.sheet_query Sheets.gspread_extract_id_from_url
                    (fun _ _ => None) (fun _ _ => inl "Quota exceeded")
                    (fun _ => "{}") (fun _ => 0%Z)
                    [post_spreadsheet_link] world_with_cached_sheet).1
    = [] ++ new
    /\ "MGAxiQwHHr2t" ∉ download_ids new.
Proof.
  destruct (sheet_query_download_once Sheets.gspread_extract_id_from_url
              (fun _ _ => None) (fun _ _ => inl "Quota exceeded")
              (fun _ => "{}") (fun _ => 0%Z)
              [post_spreadsheet_link] world_with_cached_sheet)
    as (new & Htr & _ & Hcached).
  exists new. split; [exact Htr|].
  apply (Hcached "MGAxiQwHHr2t"). vm_compute. reflexivity.
Defined.

(** ** Posts a run adds to the cache ([sheets.py]) *)

Section CachedPosts.
Import Models Sheets.
Variable extract_id_from_url : string -> option string.
Variable read_csv : list Event -> string -> option Transformations.DataFrame.
Variable open_by_key : list Event -> string -> string + Transformations.DataFrame.
Variable to_json : Transformations.DataFrame -> string.
Variable now : list Event -> Z.

Lemma add_sheet_data_loop_items (us : list SheetPost) (c : RedisCache) :
  forall tr items r,
  (forall p, p ∈ us -> is_Some (sheet_id p) /\ is_Some (sheet_url p)) ->
  (forall q, q ∈ items -> is_Some (sheet_id q) /\ is_Some (sheet_url q)) ->
  (add_sheet_data_loop read_csv open_by_key to_json now us c tr items).2 = Return r ->
  forall q, q ∈ r -> is_Some (sheet_id q) /\ is_Some (sheet_url q).
Proof.
  induction us as [|sheet rest IH]; intros tr items r Hus Hitems; cbn [add_sheet_data_loop].
  { by intros [= <-]. }
  assert (Hrest : forall p, p ∈ rest -> is_Some (sheet_id p) /\ is_Some (sheet_url p)).
  { intros p Hp. apply Hus. by right. }
  destruct (negb (check_cache c (sheet_id sheet))); [|by apply IH].
  destruct (download_sheet _ _ _ _) as [tr' [[df|]|e]]; [|by apply IH|done].
  apply IH; [done|]. intros q [Hq|Hq]%elem_of_app; [auto|].
  apply list_elem_of_singleton in Hq as ->. simpl. apply Hus. left.
Qed.

Lemma cache_sheets_entries (items : list SheetPost) : forall c,
  r_keys (cache_sheets items c) = r_keys c
  /\ (forall h k p,
        default ∅ (r_hashes (cache_sheets items c) !! h) !! k = Some p ->
        default ∅ (r_hashes c !! h) !! k = Some p \/ p ∈ items).
Proof.
  unfold cache_sheets. induction items as [|item items IH]; intros c; cbn [fold_left].
  { split; [done|]. auto. }
  destruct (IH (cache_hset c "sheets" ("sheet:" +:+ fmt (sheet_id item)) item)) as [Hk Hh].
  split; [by rewrite Hk|].
  intros h k p Hp. destruct (Hh h k p Hp) as [Hold|Hin]; [|right; by right].
  unfold cache_hset in Hold. cbn [r_hashes] in Hold.
  destruct (decide (h = "sheets")) as [->|Hne].
  - rewrite lookup_insert_eq in Hold. simpl in Hold.
    destruct (decide (k = "sheet:" +:+ fmt (sheet_id item))) as [->|Hnk].
    + rewrite lookup_insert_eq in Hold. injection Hold as <-. right. left.
    + rewrite lookup_insert_ne in Hold by done. by left.
  - rewrite lookup_insert_ne in Hold by done. by left.
Qed.

(** C5 (amended): every [SheetPost] that a run of [sheet_query] adds to the
    cache has a url whenever it has an id.  An entry of the post cache
    after the run is an entry from before the run or respects this, and an
    entry of a hash after the run is an entry from before the run or has
    both an id and a url.  The converse, a url only with an id, is the half
    of C5 that fails: when the submissions are parsed, a submission new to
    the cache whose url yields no document id is cached with the url set
    and the id absent. *)
Theorem cached_posts_id_implies_url (ss : list Submission) (w : World) :
  let w' := (sheet_query extract_id_from_url read_csv open_by_key to_json now ss w).1 in
  (forall k p, r_keys (cache w') !! k = Some p ->
     r_keys (cache w) !! k = Some p
     \/ (is_Some (sheet_id p) -> is_Some (sheet_url p)))
  /\ (forall h k p,
       default ∅ (r_hashes (cache w') !! h) !! k = Some p ->
       default ∅ (r_hashes (cache w) !! h) !! k = Some p
       \/ (is_Some (sheet_id p) /\ is_Some (sheet_url p)))
  /\ (forall before post rest u c posts,
       ss = before ++ post :: rest ->
       post_id post ∉ map post_id before ->
       cache_exists (cache w) ("post:" +:+ post_id post) = false ->
       parse_submissions extract_id_from_url ss (cache w) = (c, Return posts) ->
       find_sheet_url post = Return (Some u) ->
       gen_doc_id extract_id_from_url u = None ->
       exists p, r_keys (cache w') !! ("post:" +:+ post_id post) = Some p
         /\ id p = post_id post /\ sheet_url p = Some u /\ sheet_id p = None).
Proof.
  intros w'. apply and_assoc. split; subst w'.
  2:{ intros before post rest u c posts -> Hfirst Hnew Hparse Hurl Hid.
      assert (Hkeys : r_keys (cache (sheet_query extract_id_from_url read_csv open_by_key
                                       to_json now (before ++ post :: rest) w).1)
                      = r_keys c).
      { unfold sheet_query. rewrite Hparse.
        destruct (unique_sheets _) as [us|e]; [|done].
        destruct (add_sheet_data _ _ _ _ us c (trace w)) as [tr [items|e]]; [|done].
        cbn [fst cache]. apply (cache_sheets_entries items c). }
      rewrite Hkeys.
      by apply (parse_loop_url_without_id extract_id_from_url before post rest u
                  (cache w) [] c posts). }
  unfold sheet_query, parse_submissions.
  destruct (parse_loop _ ss (cache w) []) as [c r] eqn:Hparse.
  apply parse_loop_inv in Hparse as ((Hh & _ & Hk) & Hposts).
  2:{ intros p Hp. by apply elem_of_nil in Hp. }
  assert (Hc : (forall k p, r_keys c !! k = Some p ->
                  r_keys (cache w) !! k = Some p
                  \/ (is_Some (sheet_id p) -> is_Some (sheet_url p)))
               /\ (forall h k p,
                    default ∅ (r_hashes c !! h) !! k = Some p ->
                    default ∅ (r_hashes (cache w) !! h) !! k = Some p
                    \/ (is_Some (sheet_id p) /\ is_Some (sheet_url p)))).
  { split.
    - intros k p Hp. destruct (Hk k p Hp) as [?|[_ ?]]; auto.
    - intros h k p. rewrite Hh. auto. }
  destruct r as [parsed|e]; [|exact Hc].
  specialize (Hposts parsed eq_refl).
  destruct (unique_sheets_loop_spec (sort_created_desc parsed) ∅ [])
    as (u & Hu & Hin & _).
  { intros p Hp. rewrite sort_created_desc_perm in Hp. by apply Hposts. }
  unfold unique_sheets. rewrite Hu. cbn [app].
  unfold add_sheet_data.
  destruct (add_sheet_data_loop _ _ _ _ u c (trace w) []) as [tr [items|e]] eqn:Hadd;
    [|exact Hc].
  cbn [fst cache].
  destruct (cache_sheets_entries items c) as [Hkeys Hhashes].
  rewrite Hkeys. split; [exact (proj1 Hc)|].
  intros h k p Hp. destruct (Hhashes h k p Hp) as [Hold|Hitem].
  - by apply (proj2 Hc).
  - right. apply (add_sheet_data_loop_items u c (trace w) [] items); [| |by rewrite Hadd|done].
    + intros q Hq. destruct (Hin q Hq) as (Hq' & x & -> & _). split; [eauto|].
      rewrite sort_created_desc_perm in Hq'. by apply Hposts.
    + intros q Hq. by apply elem_of_nil in Hq.
Qed.

End CachedPosts.

Lemma cached_posts_id_implies_url_witness :
  exists p,
    Sheets.r_keys (Sheets.cache
      (Sheets.sheet_query Sheets.gspread_extract_id_from_url
         (fun _ _ => None) (fun _ _ => inl "Quota exceeded")
         (fun _ => "{}") (fun _ => 0%Z)
         [post_spreadsheet_link]
         {| Sheets.cache := empty_cache; Sheets.trace := [] |}).1)
      !! "post:1klmno" = Some p
    /\ Models.sheet_id p = Some "MGAxiQwHHr2t"
    /\ is_Some (Models.sheet_url p).
Proof.
  assert (Hp : exists p,
    Sheets.r_keys (Sheets.cache
      (Sheets.sheet_query Sheets.gspread_extract_id_from_url
         (fun _ _ => None) (fun _ _ => inl "Quota exceeded")
         (fun _ => "{}") (fun _ => 0%Z)
         [post_spreadsheet_link]
         {| Sheets.cache := empty_cache; Sheets.trace := [] |}).1)
      !! "post:1klmno" = Some p
    /\ Models.sheet_id p = Some "MGAxiQwHHr2t").
  { vm_compute. eexists. split; reflexivity. }
  destruct Hp as (p & Hp & Hid). exists p. split; [exact Hp|]. split; [exact Hid|].
  destruct (proj1 (cached_posts_id_implies_url Sheets.gspread_extract_id_from_url
                     (fun _ _ => None) (fun _ _ => inl "Quota exceeded")
                     (fun _ => "{}") (fun _ => 0%Z)
                     [post_spreadsheet_link]
                     {| Sheets.cache := empty_cache; Sheets.trace := [] |}) _ p Hp)
    as [Hold|H].
  - discriminate Hold.
  - apply H. rewrite Hid. by eexists.
Defined.

(** * Further properties *)

(** ** More on the flair rank ([models.py]) *)

Section FlairTokens.

Lemma lstrip_length s : String.length (Py.lstrip s) <= String.length s.
Proof.
  induction s as [|c s IH]; cbn [Py.lstrip String.length]; [done|].
  destruct (Py.is_space c); cbn [String.length]; lia.
Qed.

Lemma lstrip_idem s : Py.lstrip (Py.lstrip s) = Py.lstrip s.
Proof.
  induction s as [|c s IH]; cbn [Py.lstrip]; [done|].
  destruct (Py.is_space c) eqn:E; [done|]. cbn [Py.lstrip]. by rewrite E.
Qed.

Lemma lstrip_head s c t : Py.lstrip s = String c t -> Py.is_space c = false.
Proof.
  induction s as [|d s IH]; cbn [Py.lstrip]; [done|].
  destruct (Py.is_space d) eqn:E; [done|]. by intros [= <- <-].
Qed.

Lemma span_token_length s :
  String.length s
  = String.length (Py.span_token s).1 + String.length (Py.span_token s).2.
Proof.
  induction s as [|c s IH]; cbn [Py.span_token]; [done|].
  destruct (Py.is_space c); [done|].
  destruct (Py.span_token s) as [w r]. cbn [fst snd String.length] in *. lia.
Qed.

Lemma span_token_rest_shorter c t :
  Py.is_space c = false ->
  String.length (Py.span_token (String c t)).2 <= String.length t.
Proof.
  intros Hc. pose proof (span_token_length t) as Hl.
  cbn [Py.span_token]. rewrite Hc.
  destruct (Py.span_token t) as [w r]. cbn [fst snd] in *. lia.
Qed.

(** The fuel of [split] is enough. *)
Lemma split_go_fuel n : forall m s,
  String.length s <= n -> String.length s <= m -> Py.split_go n s = Py.split_go m s.
Proof.
  induction n as [|n IH]; intros m s Hn Hm.
  - destruct s; [|cbn in Hn; lia]. by destruct m.
  - cbn [Py.split_go]. destruct (Py.lstrip s) as [|c t] eqn:Hs.
    { destruct m; [done|]. cbn [Py.split_go]. by rewrite Hs. }
    pose proof (lstrip_length s) as Hl. rewrite Hs in Hl. cbn [String.length] in Hl.
    destruct m as [|m]; [lia|]. cbn [Py.split_go]. rewrite Hs.
    pose proof (span_token_rest_shorter c t (lstrip_head _ _ _ Hs)) as Hr.
    destruct (Py.span_token (String c t)) as [w r]. cbn [snd] in Hr.
    f_equal. apply IH; lia.
Qed.

Lemma split_unfold s :
  Py.split s
  = match Py.lstrip s with
    | EmptyString => []
    | s' => (Py.span_token s').1 :: Py.split (Py.span_token s').2
    end.
Proof.
  unfold Py.split at 1. destruct s as [|c0 s0]; [done|].
  cbn [String.length Py.split_go].
  destruct (Py.lstrip (String c0 s0)) as [|c t] eqn:Hs; [done|].
  pose proof (lstrip_length (String c0 s0)) as Hl. rewrite Hs in Hl.
  cbn [String.length] in Hl.
  pose proof (span_token_rest_shorter c t (lstrip_head _ _ _ Hs)) as Hr.
  destruct (Py.span_token (String c t)) as [w r]. cbn [fst snd] in *.
  f_equal. unfold Py.split. apply split_go_fuel; lia.
Qed.

Lemma split_lstrip s : Py.split (Py.lstrip s) = Py.split s.
Proof. by rewrite (split_unfold (Py.lstrip s)), lstrip_idem, <- split_unfold. Qed.

(** [split(maxsplit=1)] against [split()]. *)
Lemma split_maxsplit1_split s :
  Py.split s
  = match Py.split_maxsplit1 s with
    | [] => []
    | [w] => [w]
    | w :: r :: _ => w :: Py.split r
    end.
Proof.
  rewrite split_unfold. unfold Py.split_maxsplit1.
  destruct (Py.lstrip s) as [|c t]; [done|].
  destruct (Py.span_token (String c t)) as [w r]. cbn [fst snd].
  destruct (Py.lstrip r) as [|c' t'] eqn:Hr.
  - by rewrite (split_unfold r), Hr.
  - by rewrite <- Hr, split_lstrip.
Qed.

Lemma int_digits_all_digits s : forall acc b,
  Py.all_digits s = true -> (s <> "" \/ b = true) ->
  exists z, Py.int_digits acc b s = Some z.
Proof.
  induction s as [|c s IH]; intros acc b Hd Hne; cbn [Py.int_digits].
  - destruct Hne as [Hne | ->]; [done|eauto].
  - cbn [Py.all_digits] in Hd. apply andb_prop in Hd as [Hc Hs]. rewrite Hc.
    apply IH; auto.
Qed.

Lemma int_literal_of_isdigit s :
  Py.isdigit s = true -> exists z, Py.int_literal s = Some z.
Proof.
  destruct s as [|c s]; [done|]. intros Hd. unfold Py.isdigit in Hd.
  pose proof Hd as Hd'. cbn [Py.all_digits] in Hd'. apply andb_prop in Hd' as [Hc _].
  unfold Py.int_literal.
  assert (Hm : Ascii.eqb c "-" = false).
  { destruct (Ascii.eqb_spec c "-") as [->|]; [done|done]. }
  assert (Hp : Ascii.eqb c "+" = false).
  { destruct (Ascii.eqb_spec c "+") as [->|]; [done|done]. }
  rewrite Hm, Hp. apply int_digits_all_digits; auto.
Qed.

Lemma count_digits_all_digits s :
  Py.all_digits s = true -> Py.count_digits s = Z.of_nat (String.length s).
Proof.
  induction s as [|c s IH]; cbn [Py.all_digits Py.count_digits String.length]; [done|].
  intros [-> Hs]%andb_prop. rewrite IH by done. lia.
Qed.

Lemma int_of_isdigit s :
  Py.isdigit s = true ->
  Py.int s = if (Z.of_nat (String.length s) <=? Py.int_max_str_digits)%Z
             then Py.int_literal s else None.
Proof.
  intros Hd. unfold Py.int. rewrite count_digits_all_digits.
  - destruct (Z.ltb_spec Py.int_max_str_digits (Z.of_nat (String.length s)));
      destruct (Z.leb_spec (Z.of_nat (String.length s)) Py.int_max_str_digits);
      (done || lia).
  - by destruct s.
Qed.

(** X1: the flair rank of a text of ASCII characters, in terms of its
    whitespace-separated tokens.  With a first token made of digits the rank
    is that number, or 0 when the token has more than 4300 digits;
    otherwise the rank is read from the third token and is 0 when there is
    no third token or [int] refuses it.  A text such as [Exchanges: 4], with
    the number as second token, gets rank 0. *)
Theorem flair_by_tokens (text : string) :
  ascii_text text = true ->
  exists rank,
    Models.post_init (Some text) = Return rank
    /\ match Py.split text with
       | [] => rank = 0%Z
       | t0 :: rest =>
           if Py.isdigit t0 then
             if (Z.of_nat (String.length t0) <=? 4300)%Z
             then Py.int_literal t0 = Some rank
             else rank = 0%Z
           else match rest with
                | _ :: t2 :: _ => rank = default 0%Z (Py.int t2)
                | _ => rank = 0%Z
                end
       end.
Proof.
  intros _.
  assert (Hdigits : forall p0, Py.isdigit p0 = true ->
            exists rank,
              match int p0 with
              | Return z => Return z
              | Raise ValueError | Raise IndexError => Return 0%Z
              | Raise e => Raise e
              end = Return rank
              /\ if (Z.of_nat (String.length p0) <=? 4300)%Z
                 then Py.int_literal p0 = Some rank else rank = 0%Z).
  { intros p0 Hd. unfold int. rewrite (int_of_isdigit p0 Hd).
    change Py.int_max_str_digits with 4300%Z.
    destruct (Z.of_nat (String.length p0) <=? 4300)%Z; [|by exists 0%Z].
    destruct (int_literal_of_isdigit p0 Hd) as [z Hz]. rewrite Hz. eauto. }
  unfold Models.post_init. destruct (String.eqb_spec text "") as [->|_].
  { exists 0%Z. done. }
  rewrite (split_maxsplit1_split text). unfold Models.parse_flair, item.
  destruct (Py.split_maxsplit1 text) as [|p0 [|p1 more]]; cbn [lookup list_lookup bind].
  - exists 0%Z. done.
  - destruct (Py.isdigit p0) eqn:Hd; [by apply Hdigits|]. exists 0%Z. done.
  - destruct (Py.isdigit p0) eqn:Hd; [by apply Hdigits|].
    destruct (Py.split p1) as [|t1 [|t2 rest]]; cbn [lookup list_lookup bind].
    + exists 0%Z. done.
    + exists 0%Z. done.
    + unfold int. destruct (Py.int t2) as [z|]; eauto.
Qed.

End FlairTokens.

Lemma flair_by_tokens_witness :
  exists rank, Models.post_init (Some "12 exchanges") = Return rank.
Proof.
  destruct (flair_by_tokens "12 exchanges" eq_refl) as (rank & Hrank & _).
  exists rank. exact Hrank.
Defined.
(** ** More on header detection ([transformations.py]) *)

Section Headers.
Import Transformations.

Lemma canonical_labels_NoDup row :
  NoDup (filter (fun l => l ∈ mapping_keys) (remove_dups row)).
Proof. apply NoDup_filter, NoDup_remove_dups. Qed.

(** X2: the match count of a row is at most the number of its labels and at
    most 16, the number of canonical fields, and two rows that hold the
    same labels, in whatever order and however often, have the same count. *)
Theorem header_match_count_bounds (row : list string) :
  header_match_count row <= length row
  /\ header_match_count row <= 16
  /\ forall row', (forall l, l ∈ row <-> l ∈ row') ->
       header_match_count row' = header_match_count row.
Proof.
  rewrite header_match_count_distinct. unfold canonical_count.
  pose proof (canonical_labels_NoDup row) as Hnd.
  split; [|split].
  - apply submseteq_length, NoDup_submseteq; [done|].
    intros l [_ Hl]%list_elem_of_filter. by apply elem_of_remove_dups.
  - change 16 with (length mapping_keys).
    apply submseteq_length, NoDup_submseteq; [done|].
    by intros l [Hl _]%list_elem_of_filter.
  - intros row' Hsame. rewrite header_match_count_distinct. unfold canonical_count.
    apply Permutation_length, NoDup_Permutation; [apply canonical_labels_NoDup|done|].
    intros l. rewrite !list_elem_of_filter, !elem_of_remove_dups. by rewrite Hsame.
Qed.

Lemma header_match_count_bounds_witness :
  Transformations.header_match_count ["mold"; "price"; "mold"; "x"]
  = Transformations.header_match_count ["price"; "x"; "mold"].
Proof.
  apply (proj2 (proj2 (header_match_count_bounds ["price"; "x"; "mold"]))).
  intros l. split; intros Hl.
  - repeat (apply elem_of_cons in Hl as [->|Hl]; [by repeat constructor|]).
    by apply elem_of_nil in Hl.
  - repeat (apply elem_of_cons in Hl as [->|Hl]; [by repeat constructor|]).
    by apply elem_of_nil in Hl.
Defined.

Lemma has_canonical_name_fillna row :
  has_canonical_name (map (fun c => match c with NaN => Str "" | _ => c end) row)
  <-> has_canonical_name row.
Proof.
  unfold has_canonical_name. split; intros (k & Hk & Hin); exists k; (split; [done|]).
  - apply list_elem_of_In, in_map_iff in Hin as (c & Hc & Hin).
    apply in_map_iff in Hin as (c0 & <- & Hin).
    apply list_elem_of_In, in_map_iff. exists c0. split; [|done].
    destruct c0; simpl in *; try done.
    injection Hc as <-. unfold mapping_keys, Models.Spreadsheet_struct_fields in Hk.
    repeat (apply elem_of_cons in Hk as [Hk|Hk]; [discriminate|]).
    by apply elem_of_nil in Hk.
  - apply list_elem_of_In, in_map_iff in Hin as (c & Hc & Hin).
    apply list_elem_of_In, in_map_iff.
    exists (match c with NaN => Str "" | _ => c end). split.
    + destruct c; simpl in *; done.
    + apply in_map_iff. eauto.
Qed.

(** X3: [search_rows_for_header] returns the index of the first row that
    holds a canonical field name once its text cells are lower-cased and
    trimmed, and [None] when no row does; either way it leaves the frame
    with every missing value replaced by the empty string. *)
Theorem search_rows_for_header_first (dataframe : DataFrame) :
  (search_rows_for_header dataframe).1 = fillna dataframe
  /\ match (search_rows_for_header dataframe).2 with
     | Some i => exists row, rows dataframe !! i = Some row
                   /\ has_canonical_name row
                   /\ forall j r, j < i -> rows dataframe !! j = Some r ->
                        ~ has_canonical_name r
     | None => forall row, row ∈ rows dataframe -> ~ has_canonical_name row
     end.
Proof.
  split; [done|]. unfold search_rows_for_header. cbn [snd fillna rows].
  pose proof (search_rows_loop_spec
                (map (map (fun c => match c with NaN => Str "" | _ => c end))
                   (rows dataframe)) 0) as H.
  destruct (search_rows_loop 0 _) as [j|].
  - destruct H as (i & frow & -> & Hrow & Hhit & Hbefore). cbn [Nat.add].
    rewrite list_lookup_fmap in Hrow.
    destruct (rows dataframe !! i) as [row|] eqn:Hi; [|done].
    injection Hrow as <-. exists row. split; [done|].
    split; [by apply has_canonical_name_fillna, row_hits_iff|].
    intros j r Hj Hr Hcan.
    specialize (Hbefore j (map (fun c => match c with NaN => Str "" | _ => c end) r) Hj).
    rewrite list_lookup_fmap, Hr in Hbefore. specialize (Hbefore eq_refl).
    apply has_canonical_name_fillna, row_hits_iff in Hcan. congruence.
  - intros row Hrow Hcan.
    apply has_canonical_name_fillna, row_hits_iff in Hcan.
    rewrite H in Hcan; [done|]. by apply (list_elem_of_fmap_2 (map _)).
Qed.

Lemma map_cells_length cells : forall labels,
  map_cells cells = Return labels -> length labels = length cells.
Proof.
  induction cells as [|c cells IH]; intros labels; cbn [map_cells].
  { by intros [= <-]. }
  destruct (cell_lower_strip c); cbn [bind]; [|done].
  destruct (map_cells cells) as [ls|]; cbn [bind]; [|done].
  intros [= <-]. cbn [length]. f_equal. by apply IH.
Qed.

(** What [header_find] reports at a data row: the frame comes back filled,
    the row is in range and the labels are one per cell of that row. *)
Lemma header_find_row dataframe df' h i :
  header_find dataframe = (df', Return (Some h)) ->
  loc h = LocRow i ->
  df' = fillna dataframe
  /\ exists row, rows (fillna dataframe) !! i = Some row
       /\ map_cells row = Return (col_values h)
       /\ length (col_values h) = length row.
Proof.
  unfold header_find.
  destruct (2 <=? header_match_count (df_lower_strip dataframe)).
  { intros [= <- <-] [=]. }
  unfold search_rows_for_header.
  destruct (search_rows_loop 0 _) as [j|]; [|intros [=]].
  unfold item. destruct (rows (fillna dataframe) !! j) as [row|] eqn:Hrow;
    cbn [bind]; [|intros [=]].
  assert (Hf : filter (fun x => is_None x = false) row = row).
  { cbn [fillna rows] in Hrow. rewrite list_lookup_fmap in Hrow.
    destruct (rows dataframe !! j); [|done]. injection Hrow as <-.
    apply filter_not_None_filled. }
  rewrite Hf. destruct (map_cells row) as [ls|] eqn:Hm; cbn [bind]; [|intros [=]].
  destruct (2 <? header_match_count ls); [|intros [=]].
  intros [= <- <-] [= <-]. split; [done|]. exists row. cbn [col_values].
  split; [done|]. split; [done|]. by apply map_cells_length.
Qed.

(** X4: for a frame that has one cell per column in every row, a header
    that [header_find] reports at data row [i] makes [header_format] return
    the frame with the labels of that row as column labels and with the
    rows after row [i], missing values filled, as its rows: the header row
    and everything above it is removed. *)
Theorem header_format_row (sheet_post : Models.SheetPost) (dataframe df' : DataFrame)
    (h : Found) (i : nat) :
  Forall (fun row => length row = length (columns dataframe)) (rows dataframe) ->
  header_find dataframe = (df', Return (Some h)) ->
  loc h = LocRow i ->
  exists data,
    header_format (new_Headers sheet_post df' (Some h)) = Return data
    /\ columns (Headers.df data) = col_values h
    /\ rows (Headers.df data) = drop (S i) (rows (fillna dataframe))
    /\ Headers.found data = true
    /\ Headers.loc data = Some (LocRow i)
    /\ Headers.sheet_post data = sheet_post.
Proof.
  intros Hrect Hfind Hloc.
  assert (Hfound : found h = true).
  { revert Hfind. unfold header_find.
    destruct (2 <=? _); [by intros [= <- <-]|].
    destruct (search_rows_for_header dataframe) as [d [j|]]; [|intros [=]].
    destruct (item _ j); cbn [bind]; [|intros [=]].
    destruct (map_cells _); cbn [bind]; [|intros [=]].
    destruct (2 <? _); [by intros [= <- <-]|intros [=]]. }
  destruct (header_find_row _ _ _ _ Hfind Hloc) as (-> & row & Hrow & _ & Hlen).
  assert (Hwidth : length (col_values h) = length (columns (fillna dataframe))).
  { rewrite Hlen. cbn [fillna columns rows] in *.
    rewrite list_lookup_fmap in Hrow.
    destruct (rows dataframe !! i) as [row0|] eqn:Hi; [|done].
    injection Hrow as <-. rewrite length_map.
    rewrite Forall_forall in Hrect. apply Hrect. by eapply list_elem_of_lookup_2. }
  unfold header_format, new_Headers.
  cbn [Headers.found Headers.loc Headers.col_values Headers.df Headers.sheet_post
       Headers.col_trans Headers.match_count required bind].
  rewrite Hfound, Hloc. rewrite bool_decide_eq_false_2 by done. cbn [negb andb].
  unfold set_columns. rewrite Hwidth, Nat.eqb_refl. cbn [bind columns rows].
  eexists. split; [reflexivity|]. done.
Qed.

End Headers.

Lemma header_format_row_witness :
  exists data,
    Transformations.header_format
      (Transformations.new_Headers sample_sheet_post
         (Transformations.fillna frame_with_preamble)
         (Some {| Transformations.loc := Transformations.LocRow 1;
                  Transformations.col_values := ["mold"; "plastic"; "price"; "ink?"];
                  Transformations.match_count := 3;
                  Transformations.found := true |})) = Return data
    /\ Transformations.columns (Transformations.Headers.df data)
       = ["mold"; "plastic"; "price"; "ink?"]
    /\ length (Transformations.rows (Transformations.Headers.df data)) = 2.
Proof.
  destruct (header_format_row sample_sheet_post frame_with_preamble
              (Transformations.fillna frame_with_preamble)
              {| Transformations.loc := Transformations.LocRow 1;
                 Transformations.col_values := ["mold"; "plastic"; "price"; "ink?"];
                 Transformations.match_count := 3;
                 Transformations.found := true |} 1)
    as (data & Hdata & Hcols & Hrows & _).
  - repeat constructor.
  - reflexivity.
  - reflexivity.
  - exists data. split; [exact Hdata|]. split; [exact Hcols|]. by rewrite Hrows.
Defined.

Section HeaderLists.
Import Transformations.

(** X5: [replace_headers] changes labels only: an entry it returns has the
    rows and the number of columns it had, an entry without a found header
    is returned as it is, and an entry is marked as translated exactly when
    its labels were replaced by [map_headers] of its header labels. *)
Theorem replace_header_keeps_shape (h h' : Headers.t) :
  replace_header h = Return h' ->
  rows (Headers.df h') = rows (Headers.df h)
  /\ length (columns (Headers.df h')) = length (columns (Headers.df h))
  /\ (Headers.found h = false -> h' = h)
  /\ (h' = h
      \/ exists col_values,
           Headers.col_values h = Some col_values
           /\ columns (Headers.df h') = map_headers col_values mappings
           /\ length (map_headers col_values mappings) = length col_values
           /\ Headers.col_trans h' = true).
Proof.
  unfold replace_header. destruct (Headers.found h).
  2:{ intros [= <-]. auto. }
  destruct (Headers.col_values h) as [cv|]; cbn [required bind]; [|done].
  destruct (Nat.eqb_spec (length (map_headers cv mappings)) (length cv)) as [Hlen|_].
  2:{ intros [= <-]. split; [done|]. split; [done|]. split; [done|]. by left. }
  unfold set_columns.
  destruct (Nat.eqb_spec (length (map_headers cv mappings))
              (length (columns (Headers.df h)))) as [Hw|_]; cbn [bind]; [|done].
  intros [= <-]. cbn. split; [done|]. split; [done|]. split; [done|].
  right. exists cv. done.
Qed.

Lemma replace_header_keeps_shape_witness :
  exists h',
    replace_header
      {| Headers.df := {| columns := ["BIN"; "Mold Name"]; rows := [[Num 12; Str "Buzzz"]] |};
         Headers.sheet_post := sample_sheet_post; Headers.found := true;
         Headers.col_trans := false; Headers.match_count := 2;
         Headers.loc := Some LocColumn; Headers.col_values := Some ["bin"; "mold name"] |}
    = Return h'
    /\ rows (Headers.df h') = [[Num 12; Str "Buzzz"]]
    /\ length (columns (Headers.df h')) = 2.
Proof.
  eexists. split; [reflexivity|].
  destruct (replace_header_keeps_shape
    {| Headers.df := {| columns := ["BIN"; "Mold Name"]; rows := [[Num 12; Str "Buzzz"]] |};
       Headers.sheet_post := sample_sheet_post; Headers.found := true;
       Headers.col_trans := false; Headers.match_count := 2;
       Headers.loc := Some LocColumn; Headers.col_values := Some ["bin"; "mold name"] |}
    _ eq_refl) as (Hr & Hc & _).
  split; [exact Hr|exact Hc].
Defined.

Lemma header_find_all_spec sheets : forall found_list,
  header_find_all sheets = Return found_list ->
  map (fun x => x.1.1) found_list = map fst sheets
  /\ Forall2 (fun s x => header_find s.2 = (x.1.2, Return x.2)) sheets found_list.
Proof.
  induction sheets as [|[sp d] sheets IH]; intros fl; cbn [header_find_all].
  { intros [= <-]. split; [done|constructor]. }
  destruct (header_find d) as [d' [h|e]] eqn:Hfind; cbn [bind]; [|done].
  destruct (header_find_all sheets) as [rest|] eqn:Hrest; cbn [bind]; [|done].
  intros [= <-]. destruct (IH rest eq_refl) as [Hm Hall]. cbn [map fst]. split.
  - by rewrite Hm.
  - constructor; [|done]. cbn. done.
Qed.

Lemma header_format_sheet_post data data' :
  header_format data = Return data' -> Headers.sheet_post data' = Headers.sheet_post data.
Proof.
  unfold header_format.
  destruct (Headers.found data && negb _).
  { destruct (required _) as [cv|]; cbn [bind]; [|done].
    destruct (set_columns _ cv); cbn [bind]; [|done].
    destruct (Headers.loc data) as [[|i]|]; cbn [bind]; try done. by intros [= <-]. }
  destruct (Headers.found data && _); [|by intros [= <-]].
  destruct (required _) as [cv|]; cbn [bind]; [|done].
  destruct (set_columns _ cv); cbn [bind]; [|done]. by intros [= <-].
Qed.

Lemma header_format_all_sheet_posts results : forall formatted,
  header_format_all results = Return formatted ->
  map Headers.sheet_post formatted = map Headers.sheet_post results.
Proof.
  induction results as [|x results IH]; intros formatted; cbn [header_format_all].
  { by intros [= <-]. }
  destruct (header_format x) as [x'|] eqn:Hx; cbn [bind]; [|done].
  destruct (header_format_all results) as [rest|]; cbn [bind]; [|done].
  intros [= <-]. cbn [map]. f_equal; [by apply header_format_sheet_post|by apply IH].
Qed.

(** X6: when [header_parse] returns, it returns one entry per cached sheet,
    in the order of the sheets and each for its own sheet post; and it
    returns nothing at all, but raises, as soon as [header_find] raises on
    one of the frames. *)
Theorem header_parse_one_per_sheet (sheets : list (Models.SheetPost * DataFrame)) :
  (forall formatted, header_parse sheets = Return formatted ->
     map Headers.sheet_post formatted = map fst sheets)
  /\ (forall sheet e, sheet ∈ sheets -> (header_find sheet.2).2 = Raise e ->
        exists e', header_parse sheets = Raise e').
Proof.
  unfold header_parse. split.
  - intros formatted.
    destruct (header_find_all sheets) as [fl|] eqn:Hall; cbn [bind]; [|done].
    intros Hf. apply header_format_all_sheet_posts in Hf. rewrite Hf.
    destruct (header_find_all_spec _ _ Hall) as [<- _].
    rewrite map_map. apply map_ext. intros [[sp d] h]. by destruct h.
  - intros sheet e Hin Hraise.
    assert (Hr : exists e', header_find_all sheets = Raise e').
    { induction sheets as [|[sp d] sheets IH]; [by apply elem_of_nil in Hin|].
      cbn [header_find_all]. destruct (header_find d) as [d' r] eqn:Hd.
      apply elem_of_cons in Hin as [->|Hin].
      - cbn [snd] in Hraise. rewrite Hd in Hraise. cbn [snd] in Hraise. subst r.
        cbn [bind]. eauto.
      - destruct r as [h|e0]; cbn [bind]; [|eauto].
        destruct (IH Hin) as [e' ->]. cbn [bind]. eauto. }
    destruct Hr as [e' ->]. cbn [bind]. eauto.
Qed.

Lemma unique_headers_set dataframes : forall (acc : gset string) x,
  x ∈ fold_left (fun headers df => headers ∪ list_to_set (df_lower_strip df))
        dataframes acc
  <-> x ∈ acc \/ exists df, df ∈ dataframes /\ x ∈ df_lower_strip df.
Proof.
  induction dataframes as [|d dataframes IH]; intros acc x; cbn [fold_left].
  { split; [auto|]. intros [?|(df & Hdf & _)]; [done|by apply elem_of_nil in Hdf]. }
  rewrite IH, elem_of_union, elem_of_list_to_set. split.
  - intros [[?|?]|(df & Hdf & Hx)]; [auto|right; exists d; split; [left|done]|].
    right. exists df. split; [by right|done].
  - intros [?|(df & [->|Hdf]%elem_of_cons & Hx)]; [auto|auto|].
    right. eauto.
Qed.

(** X7: [unique_headers] returns every lower-cased, trimmed column label
    of the frames exactly once, in ascending order. *)
Theorem unique_headers_sorted_distinct (dataframes : list DataFrame) :
  StronglySorted String.le (unique_headers dataframes)
  /\ NoDup (unique_headers dataframes)
  /\ forall x, x ∈ unique_headers dataframes
       <-> exists df, df ∈ dataframes /\ x ∈ df_lower_strip df.
Proof.
  unfold unique_headers. split; [apply StronglySorted_merge_sort; apply _|]. split.
  - rewrite merge_sort_Permutation. apply NoDup_elements.
  - intros x. rewrite merge_sort_Permutation, elem_of_elements, unique_headers_set.
    split; [|auto]. intros [Hx|?]; [|done]. by apply not_elem_of_empty in Hx.
Qed.

Lemma fold_left_extend dataframes : forall acc,
  fold_left (fun headers df => headers ++ df_lower_strip df) dataframes acc
  = acc ++ concat (map df_lower_strip dataframes).
Proof.
  induction dataframes as [|d dataframes IH]; intros acc; cbn [fold_left map concat].
  { by rewrite app_nil_r. }
  by rewrite IH, <- app_assoc.
Qed.

Lemma filter_eq_filter (P : string -> Prop) `{!forall x, Decision (P x)} (l : list string) h :
  length (filter (fun x => x = h) (filter P l))
  = if decide (P h) then length (filter (fun x => x = h) l) else 0.
Proof.
  induction l as [|y l IH].
  { by destruct (decide (P h)). }
  rewrite (filter_cons P). destruct (decide (P y)) as [Hy|Hy].
  - rewrite !(filter_cons (fun x => x = h)). destruct (decide (y = h)) as [->|Hne].
    + cbn [length]. rewrite IH. by destruct (decide (P h)).
    + exact IH.
  - rewrite IH. rewrite (filter_cons (fun x => x = h)).
    destruct (decide (y = h)) as [->|Hne]; [|done]. by destruct (decide (P h)).
Qed.

(** X8: [header_counter] counts a label once for each column, of any
    frame, that carries it after lower-casing and trimming, except that a
    label containing [unnamed:] or starting with a digit is not counted at
    all. *)
Theorem header_counter_counts (dataframes : list DataFrame) (h : string) :
  default 0 (header_counter dataframes !! h)
  = if Py.contains "unnamed:" h || negb (no_leading_digit h) then 0
    else length (filter (fun x => x = h) (concat (map df_lower_strip dataframes))).
Proof.
  unfold header_counter, Counter.
  rewrite Counter_fold_lookup, lookup_empty, fold_left_extend. cbn [default app Nat.add].
  rewrite !filter_eq_filter.
  destruct (no_leading_digit h); cbn [negb].
  - rewrite decide_True by done. rewrite orb_false_r.
    destruct (Py.contains "unnamed:" h); [by rewrite decide_False|by rewrite decide_True].
  - rewrite decide_False by done. by rewrite orb_true_r.
Qed.

End HeaderLists.
(** ** More on header mapping ([transformations.py]) *)

Section MapHeaders.
Import Transformations.

Lemma scan_values_spec key header pvs acc b :
  scan_values key header pvs (acc, b)
  = if existsb (fun v => Py.contains (Py.lower v) (Py.lower header)) pvs
    then (acc ++ [key], true) else (acc, b).
Proof.
  induction pvs as [|v pvs IH]; cbn [scan_values existsb]; [done|].
  destruct (Py.contains (Py.lower v) (Py.lower header)); [done|]. exact IH.
Qed.

Lemma scan_items_spec header items : forall acc b,
  scan_items header items (acc, b)
  = (acc ++ labels_for (Py.lower header) items,
     b || match labels_for (Py.lower header) items with [] => false | _ => true end).
Proof.
  induction items as [|[key pvs] items IH]; intros acc b; cbn [scan_items labels_for].
  { by rewrite app_nil_r, orb_false_r. }
  destruct (bool_decide (Py.lower header ∈ pvs)).
  { by rewrite orb_true_r. }
  rewrite scan_values_spec.
  destruct (existsb _ pvs).
  - rewrite IH, <- app_assoc. cbn [app]. f_equal. by rewrite orb_true_r.
  - by rewrite IH.
Qed.

Lemma map_headers_fold headers items : forall acc,
  fold_left
    (fun new_headers header =>
       let '(new_headers, mapped) := scan_items header items (new_headers, false) in
       if mapped then new_headers else new_headers ++ [header])
    headers acc
  = acc ++ concat (map (fun h => mapped_labels h items) headers).
Proof.
  induction headers as [|h headers IH]; intros acc; cbn [fold_left map concat].
  { by rewrite app_nil_r. }
  rewrite scan_items_spec. unfold mapped_labels. cbn [orb].
  destruct (labels_for (Py.lower h) items) as [|k ks].
  - rewrite app_nil_r, IH, <- app_assoc. done.
  - rewrite IH, <- app_assoc. done.
Qed.

Lemma map_headers_concat (headers : list string) (items : list (string * list string)) :
  map_headers headers items = concat (map (fun h => mapped_labels h items) headers).
Proof. unfold map_headers. by rewrite map_headers_fold. Qed.

(** X9: [map_headers] works label by label: each raw label contributes, in
    table order, every canonical field that has a synonym inside the
    lower-cased label, up to and including the first field the label is a
    synonym of; a label no field matches contributes itself. *)
Theorem map_headers_by_label (headers : list string) (items : list (string * list string)) :
  map_headers headers items = concat (map (fun h => mapped_labels h items) headers).
Proof. apply map_headers_concat. Qed.

Lemma mapped_labels_nonempty h items : mapped_labels h items <> [].
Proof. unfold mapped_labels. by destruct (labels_for _ _). Qed.

Lemma labels_for_keys lowered items k :
  k ∈ labels_for lowered items -> k ∈ map fst items.
Proof.
  induction items as [|[key pvs] items IH]; cbn [labels_for map fst]; [done|].
  case_bool_decide.
  { intros ->%list_elem_of_singleton. left. }
  destruct (existsb _ pvs).
  - intros [->|?]%elem_of_cons; [left|right; auto].
  - intros ?. right. auto.
Qed.

(** X10: [map_headers] never drops a column: the output has at least as many
    labels as the input, and every output label is a key of the table or one
    of the raw labels. *)
Theorem map_headers_never_drops (headers : list string) (items : list (string * list string)) :
  length headers <= length (map_headers headers items)
  /\ forall l, l ∈ map_headers headers items -> l ∈ map fst items \/ l ∈ headers.
Proof.
  rewrite map_headers_concat. split.
  - induction headers as [|h headers IH]; cbn [map concat]; [done|].
    rewrite length_app. cbn [length].
    pose proof (mapped_labels_nonempty h items).
    destruct (mapped_labels h items); [done|]. cbn [length]. lia.
  - induction headers as [|h headers IH]; cbn [map concat]; [intros l Hl; by apply elem_of_nil in Hl|].
    intros l [Hl|Hl]%elem_of_app.
    + unfold mapped_labels in Hl.
      destruct (labels_for (Py.lower h) items) as [|k ks] eqn:E.
      * apply list_elem_of_singleton in Hl as ->. right. left.
      * left. apply (labels_for_keys (Py.lower h)). by rewrite E.
    + destruct (IH l Hl); [by left|right; by right].
Qed.

(** X11: with the table of the module, a raw label that is, in any letter
    case, one of the listed synonyms of a canonical field is mapped to
    exactly that field. *)
Theorem map_headers_synonym (header key : string) (possible_values : list string) :
  (key, possible_values) ∈ mappings ->
  Py.lower header ∈ possible_values ->
  map_headers [header] mappings = [key].
Proof.
  intros Hk Hh. rewrite map_headers_concat. cbn [map concat]. rewrite app_nil_r.
  unfold mapped_labels.
  unfold mappings, mapping_keys, Models.Spreadsheet_struct_fields, mappings_list in Hk.
  cbn in Hk.
  repeat (apply elem_of_cons in Hk as [Hk|Hk];
          [injection Hk as -> ->;
           repeat (apply elem_of_cons in Hh as [Hh|Hh];
                   [rewrite Hh; vm_compute; reflexivity|]);
           by apply elem_of_nil in Hh|]).
  by apply elem_of_nil in Hk.
Qed.

Lemma map_headers_synonym_witness :
  Transformations.map_headers ["Buy It Now"] Transformations.mappings = ["price"].
Proof.
  apply (map_headers_synonym "Buy It Now" "price"
           ["price"; "bin"; "buy it now"; "amount"; "cost"]).
  - left.
  - vm_compute. do 2 right. left.
Defined.

End MapHeaders.
(** ** More on url extraction ([sheets.py]) *)

Section Urls.
Import Sheets.

(** X12: the three outcomes of [find_sheet_url].  It returns [None]
    exactly when neither the title nor the self-text (the link, for a post
    without self-text) holds the base url and every entry of the comment
    listing is a comment whose body does not hold it; the only exception
    it raises is [AttributeError], exactly when title, self-text and link
    hold no base url and the comment listing reaches an entry without a
    body before a comment that holds the base url; and a url it returns is
    not empty and holds the base url. *)
Theorem find_sheet_url_found_iff (post : Submission) :
  (find_sheet_url post = Return None <-> no_link post)
  /\ (forall e, find_sheet_url post = Raise e
        <-> e = AttributeError /\ no_link_in_post post
            /\ bodiless_entry_first (post_comments post))
  /\ (forall u, find_sheet_url post = Return (Some u) ->
        Py.contains BASE_URL u = true /\ u <> "").
Proof.
  split; [|split].
  3:{ intros u Hu. pose proof (find_sheet_url_result post) as Hr. by rewrite Hu in Hr. }
  all: destruct (find_in_comments_spec (post_comments post)) as (Hnone & Hraise & _).
  all: unfold find_sheet_url, no_link, no_link_in_post.
  all: destruct (Py.contains BASE_URL (post_title post)) eqn:E1.
  all: try (destruct (clean_url_cleaned _ E1) as (r & -> & Hr); cbn [bind]).
  1,3: try intros e; split; [done|]; intros H; exfalso; by destruct H as [? ?]; intuition congruence.
  all: destruct (String.eqb_spec (post_selftext post) "") as [Hs|Hs]; cbn [negb andb].
  all: try destruct (Py.contains BASE_URL (post_url post)) eqn:E3.
  all: try destruct (Py.contains BASE_URL (post_selftext post)) eqn:E2.
  all: try (destruct (clean_url_cleaned _ E2) as (r & -> & Hr); cbn [bind]).
  all: try intros e.
  all: try rewrite Hnone; try rewrite Hraise.
  all: split; intros H; try done; try (exfalso; intuition congruence); intuition.
Qed.

(** X13: on a text that holds the base url, [clean_url] returns a text
    that starts with the base url and holds no whitespace, no closing
    bracket, no backslash and no closing parenthesis. *)
Theorem clean_url_shape (comment : string) :
  Py.contains BASE_URL comment = true ->
  exists r, clean_url comment = Return r
    /\ Py.startswith r BASE_URL = true
    /\ has_space r = false
    /\ Py.has_char "]" r = false
    /\ Py.has_char "\" r = false
    /\ Py.has_char ")" r = false.
Proof. intros H. destruct (clean_url_cleaned comment H) as (r & Hr & Hc). by exists r. Qed.

End Urls.

Lemma clean_url_shape_witness :
  exists r,
    Sheets.clean_url "Sheet: [here](https://docs.google.com/spreadsheets/d/a\_b/edit). Thanks"
    = Return r
    /\ Py.has_char ")" r = false.
Proof.
  destruct (clean_url_shape
              "Sheet: [here](https://docs.google.com/spreadsheets/d/a\_b/edit). Thanks"
              eq_refl) as (r & Hr & _ & _ & _ & _ & Hp).
  exists r. split; [exact Hr|exact Hp].
Defined.
Section Urls2.
Import Sheets.

Lemma find_range s sub : Py.find s sub = (-1)%Z \/ (0 <= Py.find s sub)%Z.
Proof.
  induction s as [|c t IH]; cbn [Py.find].
  - destruct (Py.startswith "" sub); lia.
  - destruct (Py.startswith (String c t) sub); [lia|]. cbv zeta.
    destruct (Z.ltb_spec (Py.find t sub) 0); lia.
Qed.

Lemma drop_to_last s :
  s <> "" -> exists c, Py.drop (String.length s - 1) s = String c "".
Proof.
  induction s as [|c s IH]; [done|]. intros _.
  destruct s as [|c' s]; [by exists c|].
  destruct IH as [d Hd]; [done|]. exists d.
  replace (String.length (String c (String c' s)) - 1)
    with (S (String.length (String c' s) - 1)) by (cbn [String.length]; lia).
  exact Hd.
Qed.

Lemma before_char_length ch s : String.length (Py.before_char ch s) <= String.length s.
Proof.
  induction s as [|c s IH]; cbn [Py.before_char String.length]; [done|].
  destruct (Ascii.eqb c ch); cbn [String.length]; lia.
Qed.

Lemma remove_char_length ch s : String.length (Py.remove_char ch s) <= String.length s.
Proof.
  induction s as [|c s IH]; cbn [Py.remove_char String.length]; [done|].
  destruct (Ascii.eqb c ch); cbn [String.length]; lia.
Qed.

Lemma drop_last_length s : String.length (Py.drop_last s) <= String.length s.
Proof.
  induction s as [|c s IH]; [done|]. destruct s as [|c' s]; [cbn; lia|].
  change (Py.drop_last (String c (String c' s)))
    with (String c (Py.drop_last (String c' s))).
  cbn [String.length] in *. lia.
Qed.

(** X14: on a text without the base url [clean_url] does not find a url:
    it works on the last character of the text, so it returns at most one
    character, and it raises [IndexError] when the text is empty or ends
    with whitespace. *)
Theorem clean_url_without_base (comment : string) :
  Py.contains BASE_URL comment = false ->
  match clean_url comment with
  | Return r => String.length r <= 1
  | Raise e => e = IndexError
  end.
Proof.
  intros Hc. unfold Py.contains in Hc. apply Z.leb_gt in Hc.
  destruct (find_range comment BASE_URL) as [Hf|Hf]; [|lia].
  unfold clean_url, Py.slice_from. rewrite Hf. cbn [Z.ltb Z.compare].
  assert (Hone : exists t, String.length t <= 1
            /\ Py.drop (Z.to_nat (Z.max 0 (Z.of_nat (String.length comment) + -1))) comment = t).
  { destruct comment as [|c s]; [exists ""; split; [cbn; lia|done]|].
    destruct (drop_to_last (String c s)) as [d Hd]; [done|].
    exists (String d ""). split; [cbn; lia|]. rewrite <- Hd. f_equal.
    cbn [String.length]. lia. }
  destruct Hone as (t & Ht & ->).
  assert (Hsplit : Py.split t = [] \/ Py.split t = [t]).
  { destruct t as [|c [|? ?]]; [by left| |cbn in Ht; lia].
    unfold Py.split. cbn [String.length Py.split_go Py.lstrip].
    destruct (Py.is_space c) eqn:E; [by left|]. right.
    cbn [Py.span_token]. by rewrite E. }
  unfold item. destruct Hsplit as [-> | ->]; cbn [lookup list_lookup bind]; [done|].
  repeat match goal with
         | |- context [if ?b then _ else _] => destruct b
         end.
  all: repeat first [ etrans; [apply remove_char_length|]
                    | etrans; [apply drop_last_length|]
                    | etrans; [apply before_char_length|] ].
  all: exact Ht.
Qed.

Lemma clean_url_without_base_witness :
  clean_url "no sheet yet, sorry " = Raise IndexError.
Proof.
  pose proof (clean_url_without_base "no sheet yet, sorry " eq_refl) as H.
  destruct (clean_url "no sheet yet, sorry ") as [r|e] eqn:E.
  - vm_compute in E. discriminate E.
  - by rewrite H.
Defined.

Lemma take_id_startswith s : Py.startswith s (take_id s) = true.
Proof.
  induction s as [|c s IH]; cbn [take_id]; [done|].
  destruct (is_id_char c); [|done]. cbn [Py.startswith]. rewrite Ascii.eqb_refl. exact IH.
Qed.

Lemma take_id_all_id s : all_id_chars (take_id s) = true.
Proof.
  induction s as [|c s IH]; cbn [take_id]; [done|].
  destruct (is_id_char c) eqn:E; [|done]. cbn [all_id_chars]. by rewrite E.
Qed.

Lemma startswith_append p : forall s g,
  Py.startswith s p = true ->
  Py.startswith (Py.drop (String.length p) s) g = true ->
  Py.startswith s (p +:+ g) = true.
Proof.
  induction p as [|a p IH]; intros s g Hp Hg; [done|].
  destruct s as [|b s]; cbn [Py.startswith] in Hp; [done|].
  destruct (Ascii.eqb_spec a b) as [<-|]; [|done].
  change (String a p +:+ g) with (String a (p +:+ g)).
  cbn [Py.startswith]. rewrite Ascii.eqb_refl. by apply IH.
Qed.

Lemma find_cons_nonneg c t sub : (0 <= Py.find t sub)%Z -> (0 <= Py.find (String c t) sub)%Z.
Proof.
  intros H. cbn [Py.find]. destruct (Py.startswith (String c t) sub); [done|].
  cbv zeta. destruct (Z.ltb_spec (Py.find t sub) 0); lia.
Qed.

Lemma re_search_id_sound prefix s g :
  re_search_id prefix s = Some g ->
  g <> "" /\ all_id_chars g = true /\ Py.contains (prefix +:+ g) s = true.
Proof.
  unfold Py.contains. induction s as [|c s IH]; cbn [re_search_id].
  - destruct (Py.startswith "" prefix) eqn:Hp; [|done].
    destruct (take_id _) as [|a t] eqn:Ht; [done|]. intros [= <-].
    split; [done|]. split; [rewrite <- Ht; apply take_id_all_id|].
    apply Z.leb_le. rewrite (startswith_find_0 "" (prefix +:+ String a t)); [done|].
    apply startswith_append; [done|]. rewrite <- Ht. apply take_id_startswith.
  - destruct (Py.startswith (String c s) prefix) eqn:Hp.
    + destruct (take_id _) as [|a t] eqn:Ht.
      * intros H. destruct (IH H) as (? & ? & Hf). split; [done|]. split; [done|].
        apply Z.leb_le. apply find_cons_nonneg. by apply Z.leb_le.
      * intros [= <-]. split; [done|]. split; [rewrite <- Ht; apply take_id_all_id|].
        apply Z.leb_le. rewrite (startswith_find_0 _ (prefix +:+ String a t)); [done|].
        apply startswith_append; [done|]. rewrite <- Ht. apply take_id_startswith.
    + intros H. destruct (IH H) as (? & ? & Hf). split; [done|]. split; [done|].
      apply Z.leb_le. apply find_cons_nonneg. by apply Z.leb_le.
Qed.

Variable extract_id_from_url : string -> option string.

(** X15: what [gen_doc_id] takes from one of its two patterns is a
    non-empty run of id characters that follows [/spreadsheets/d/e/] or
    [/spreadsheets/u/0/d/] in the url, and it is returned whatever the
    generic extractor would make of the url. *)
Theorem gen_doc_id_pattern_first (sheet_url g : string) :
  search_patterns patterns sheet_url = Some g ->
  gen_doc_id extract_id_from_url sheet_url = Some g
  /\ g <> "" /\ all_id_chars g = true
  /\ (Py.contains ("/spreadsheets/d/e/" +:+ g) sheet_url = true
      \/ Py.contains ("/spreadsheets/u/0/d/" +:+ g) sheet_url = true).
Proof.
  intros Hs. unfold gen_doc_id. rewrite Hs. split; [done|].
  unfold patterns in Hs. cbn [search_patterns] in Hs.
  destruct (re_search_id "/spreadsheets/d/e/" sheet_url) as [g1|] eqn:H1.
  { injection Hs as ->. destruct (re_search_id_sound _ _ _ H1) as (? & ? & ?). auto. }
  destruct (re_search_id "/spreadsheets/u/0/d/" sheet_url) as [g2|] eqn:H2; [|done].
  injection Hs as ->. destruct (re_search_id_sound _ _ _ H2) as (? & ? & ?). auto.
Qed.

Lemma re_search_id_skip prefix c s :
  Py.startswith (String c s) prefix = false ->
  re_search_id prefix (String c s) = re_search_id prefix s.
Proof. intros H. cbn [re_search_id]. by rewrite H. Qed.

Lemma take_id_app g rest :
  all_id_chars g = true ->
  match rest with String c _ => is_id_char c = false | EmptyString => True end ->
  take_id (g +:+ rest) = g.
Proof.
  intros Hg Hrest. induction g as [|a g IH].
  - change ("" +:+ rest) with rest.
    destruct rest as [|c rest]; [done|]. cbn [take_id]. by rewrite Hrest.
  - change (String a g +:+ rest) with (String a (g +:+ rest)).
    cbn [all_id_chars] in Hg. apply andb_prop in Hg as [Ha Hg].
    cbn [take_id]. rewrite Ha. f_equal. auto.
Qed.

(** X16: a published-sheet link, the base url followed by
    [spreadsheets/d/e/], an id and anything that does not go on with an id
    character, resolves to that id. *)
Theorem gen_doc_id_published_link (g rest : string) :
  g <> "" -> all_id_chars g = true ->
  match rest with String c _ => is_id_char c = false | EmptyString => True end ->
  gen_doc_id extract_id_from_url (BASE_URL +:+ "spreadsheets/d/e/" +:+ g +:+ rest) = Some g.
Proof.
  intros Hne Hg Hrest. unfold gen_doc_id, patterns. cbn [search_patterns].
  unfold BASE_URL. set (tail := g +:+ rest). cbv [String.append].
  do 23 (rewrite re_search_id_skip by reflexivity).
  cbn [re_search_id].
  replace (Py.startswith _ "/spreadsheets/d/e/") with true.
  2:{ cbn [Py.startswith Ascii.eqb Bool.eqb]. by destruct tail. }
  cbn [String.length Py.drop]. unfold tail. rewrite (take_id_app g rest Hg Hrest).
  by destruct g.
Qed.

End Urls2.

Lemma gen_doc_id_published_link_witness :
  Sheets.gen_doc_id Sheets.gspread_extract_id_from_url
    "https://docs.google.com/spreadsheets/d/e/WVZM4GpYtAeRocXsGc8G9LdciQs3KAqXxgjiQkUtycbo/pubhtml"
  = Some "WVZM4GpYtAeRocXsGc8G9LdciQs3KAqXxgjiQkUtycbo".
Proof.
  apply (gen_doc_id_published_link Sheets.gspread_extract_id_from_url
           "WVZM4GpYtAeRocXsGc8G9LdciQs3KAqXxgjiQkUtycbo" "/pubhtml");
    [discriminate|reflexivity|reflexivity].
Defined.

Lemma gen_doc_id_pattern_first_witness :
  Sheets.gen_doc_id (fun _ => Some "other")
    "https://docs.google.com/spreadsheets/u/0/d/G9gxw9liq/htmlview"
  = Some "G9gxw9liq".
Proof.
  apply (gen_doc_id_pattern_first (fun _ => Some "other")
           "https://docs.google.com/spreadsheets/u/0/d/G9gxw9liq/htmlview" "G9gxw9liq").
  reflexivity.
Defined.
(** ** More on parsing and deduplication ([sheets.py]) *)

Section Parse2.
Import Models Sheets.
Variable extract_id_from_url : string -> option string.

Lemma parse_submission_cached post cache acc :
  is_Some (r_keys cache !! ("post:" +:+ post_id post)) ->
  forall extract, parse_submission extract post cache acc = (cache, Return acc).
Proof.
  intros Hc extract. unfold parse_submission, cache_exists.
  by rewrite bool_decide_eq_true_2.
Qed.

(** One step of the loop that returns: the submission is in the cache
    afterwards, and a post handed on is a new entry under its own key. *)
Lemma parse_submission_return post cache acc cache' acc' :
  parse_submission extract_id_from_url post cache acc = (cache', Return acc') ->
  is_Some (r_keys cache' !! ("post:" +:+ post_id post))
  /\ (acc' = acc
      \/ exists sub, acc' = acc ++ [sub]
           /\ r_keys cache' !! ("post:" +:+ id sub) = Some sub
           /\ r_keys cache !! ("post:" +:+ id sub) = None).
Proof.
  unfold parse_submission. destruct (cache_exists cache _) eqn:Hex.
  { intros [= <- <-]. unfold cache_exists in Hex.
    apply bool_decide_eq_true_1 in Hex. auto. }
  assert (Hnone : r_keys cache !! ("post:" +:+ post_id post) = None).
  { unfold cache_exists in Hex. apply bool_decide_eq_false_1 in Hex.
    by apply eq_None_not_Some. }
  destruct (find_sheet_url post) as [[[|c u]|]|e]; [| | |done].
  2:{ destruct (new_SheetPost post _ _) as [sub|e] eqn:Hn; [|done].
      destruct (new_SheetPost_fields _ _ _ _ Hn) as (Hid & _).
      rewrite Hid. intros [= <- <-]. cbn [cache_set r_keys].
      rewrite lookup_insert_eq. split; [eauto|]. right. exists sub.
      rewrite Hid, lookup_insert_eq. done. }
  all: destruct (new_SheetPost post None None) as [sub|e] eqn:Hn; [|done].
  all: intros [= <- <-]; cbn [cache_set r_keys]; rewrite lookup_insert_eq; eauto.
Qed.

Lemma parse_loop_return (submissions : list Submission) : forall cache acc cache' posts,
  parse_loop extract_id_from_url submissions cache acc = (cache', Return posts) ->
  (forall post, post ∈ submissions ->
     is_Some (r_keys cache' !! ("post:" +:+ post_id post)))
  /\ exists new, posts = acc ++ new
       /\ forall p, p ∈ new ->
            r_keys cache' !! ("post:" +:+ id p) = Some p
            /\ r_keys cache !! ("post:" +:+ id p) = None.
Proof.
  induction submissions as [|post rest IH]; intros cache acc cache' posts;
    cbn [parse_loop].
  { intros [= <- <-]. split.
    - intros post Hp. by apply elem_of_nil in Hp.
    - exists []. rewrite app_nil_r. split; [done|]. intros p Hp. by apply elem_of_nil in Hp. }
  destruct (parse_submission _ post cache acc) as [c1 [acc1|e]] eqn:Hstep; [|done].
  intros Hloop.
  pose proof (parse_submission_step _ _ _ _ _ _ Hstep) as ((_ & Hmono1 & _) & _).
  assert (Hmono : forall k q, r_keys c1 !! k = Some q -> r_keys cache' !! k = Some q).
  { (* the rest of the loop only adds entries *)
    clear -Hloop. revert c1 acc1 Hloop.
    induction rest as [|p rest IHr]; intros c1 acc1; cbn [parse_loop].
    - by intros [= <- _].
    - destruct (parse_submission _ p c1 acc1) as [c2 [acc2|e]] eqn:Hs; [|done].
      apply parse_submission_step in Hs as ((_ & Hm & _) & _).
      intros Hl k q Hk. eapply IHr; [exact Hl|]. by apply Hm. }
  apply parse_submission_return in Hstep as (Hkey & Hacc).
  apply IH in Hloop as (Hall & new & -> & Hnew). split.
  - intros p [->|Hp]%elem_of_cons; [|by apply Hall].
    destruct Hkey as [q Hq]. exists q. by apply Hmono.
  - destruct Hacc as [->|(sub & -> & Hsub & Hfresh)].
    + exists new. split; [done|]. intros p Hp. destruct (Hnew p Hp) as [? Hn1].
      split; [done|]. destruct (r_keys cache !! ("post:" +:+ id p)) eqn:E; [|done].
      apply Hmono1 in E. congruence.
    + exists (sub :: new). split; [by rewrite <- app_assoc|].
      intros p [->|Hp]%elem_of_cons.
      * split; [by apply Hmono|done].
      * destruct (Hnew p Hp) as [? Hn1]. split; [done|].
        destruct (r_keys cache !! ("post:" +:+ id p)) eqn:E; [|done].
        apply Hmono1 in E. congruence.
Qed.

(** X17: when [parse_submissions] returns, every entry the post cache had
    is still there, the hashes are untouched, every submission has an entry
    under [post:{id}], and each post handed on is a new entry stored under
    its own key. *)
Theorem parse_submissions_caches_all
    (submissions : list Submission) (cache cache' : RedisCache) (posts : list SheetPost) :
  parse_submissions extract_id_from_url submissions cache = (cache', Return posts) ->
  (forall k q, r_keys cache !! k = Some q -> r_keys cache' !! k = Some q)
  /\ r_hashes cache' = r_hashes cache
  /\ (forall post, post ∈ submissions ->
        cache_exists cache' ("post:" +:+ post_id post) = true)
  /\ (forall p, p ∈ posts ->
        cache_get cache' ("post:" +:+ id p) = Return p
        /\ cache_exists cache ("post:" +:+ id p) = false).
Proof.
  unfold parse_submissions. intros Hloop.
  pose proof (parse_loop_inv _ _ _ _ _ _ Hloop) as ((Hh & Hm & _) & _).
  { intros p Hp. by apply elem_of_nil in Hp. }
  apply parse_loop_return in Hloop as (Hall & new & -> & Hnew).
  split; [done|]. split; [done|]. split.
  - intros post Hp. unfold cache_exists. apply bool_decide_eq_true_2. by apply Hall.
  - intros p Hp. cbn [app] in Hp. destruct (Hnew p Hp) as [Hp1 Hp2].
    unfold cache_get, cache_exists. rewrite Hp1. split; [done|].
    apply bool_decide_eq_false_2. rewrite Hp2. by intros [? ?].
Qed.

(** X18: a second pass over submissions that a first pass of
    [parse_submissions] returned from writes nothing and hands nothing on,
    whatever the extractor and whatever the order or selection of the
    submissions. *)
Theorem parse_submissions_second_pass
    (submissions again : list Submission) (cache cache' : RedisCache)
    (posts : list SheetPost) (extract' : string -> option string) :
  parse_submissions extract_id_from_url submissions cache = (cache', Return posts) ->
  (forall post, post ∈ again -> post_id post ∈ map post_id submissions) ->
  parse_submissions extract' again cache' = (cache', Return []).
Proof.
  unfold parse_submissions. intros Hloop Hagain.
  apply parse_loop_return in Hloop as (Hall & _).
  assert (Hgo : forall acc, parse_loop extract' again cache' acc = (cache', Return acc)).
  { induction again as [|post rest IH]; intros acc; cbn [parse_loop]; [done|].
    rewrite parse_submission_cached.
    - apply IH. intros p Hp. apply Hagain. by right.
    - assert (Hin : post_id post ∈ map post_id submissions) by (apply Hagain; left).
      apply list_elem_of_In, in_map_iff in Hin as (p0 & Hid & Hin).
      rewrite <- Hid. apply Hall. by apply list_elem_of_In. }
  apply Hgo.
Qed.

End Parse2.

Section Dedupe.
Import Models Sheets.

Lemma dedupe_loop_spec (l : list SheetPost) : forall seen acc,
  exists u,
    dedupe_loop l seen acc = acc ++ u
    /\ sublist u l
    /\ (forall p, p ∈ u -> id p ∉ seen)
    /\ NoDup (id <$> u)
    /\ (forall x, x ∈ seen -> filter (fun p => id p = x) u = [])
    /\ (forall x, x ∉ seen ->
          filter (fun p => id p = x) u = take 1 (filter (fun p => id p = x) l)).
Proof.
  induction l as [|post rest IH]; intros seen acc; cbn [dedupe_loop].
  { exists []. rewrite app_nil_r. split; [done|]. split; [done|].
    split; [intros p Hp; by apply elem_of_nil in Hp|]. split; [constructor|]. done. }
  case_bool_decide as Hnew.
  - destruct (IH ({[id post]} ∪ seen) (acc ++ [post])) as (u & Hu & Hsub & Hin & Hnd & Hs & Hf).
    exists (post :: u). split; [by rewrite Hu, <- app_assoc|].
    split; [by constructor|]. split; [|split; [|split]].
    + intros p [->|Hp]%elem_of_cons; [done|].
      intros Hseen. apply (Hin p Hp), elem_of_union. by right.
    + rewrite fmap_cons. constructor; [|done].
      intros (p & Hp1 & Hp2)%list_elem_of_fmap.
      apply (Hin p Hp2), elem_of_union. left. by apply elem_of_singleton.
    + intros x Hx. rewrite filter_cons_False by congruence.
      apply Hs, elem_of_union. by right.
    + intros x Hx. destruct (decide (id post = x)) as [<-|Hne].
      * rewrite !filter_cons_True by done. cbn [take]. rewrite Hs; [by rewrite take_0|].
        apply elem_of_union. left. by apply elem_of_singleton.
      * rewrite !filter_cons_False by done. apply Hf.
        intros [Hx1%elem_of_singleton|?]%elem_of_union; [congruence|done].
  - destruct (IH seen acc) as (u & Hu & Hsub & Hin & Hnd & Hs & Hf).
    exists u. split; [done|]. split; [by constructor|]. split; [done|].
    split; [done|]. split; [done|].
    intros x Hx. rewrite filter_cons_False; [by apply Hf|]. intros <-. done.
Qed.

(** X19: [dedupe_submissions] keeps, in their order, the first post of
    every post id: its result is a sub-list of its input in which no id
    occurs twice, and for every id it holds the first post with that id and
    no other. *)
Theorem dedupe_submissions_first_of_each (submissions : list SheetPost) :
  sublist (dedupe_submissions submissions) submissions
  /\ NoDup (id <$> dedupe_submissions submissions)
  /\ forall x,
       filter (fun p => id p = x) (dedupe_submissions submissions)
       = take 1 (filter (fun p => id p = x) submissions).
Proof.
  unfold dedupe_submissions.
  destruct (dedupe_loop_spec submissions ∅ []) as (u & -> & Hsub & _ & Hnd & _ & Hf).
  cbn [app]. split; [done|]. split; [done|].
  intros x. apply Hf, not_elem_of_empty.
Qed.

Lemma unique_sheets_loop_sublist (l : list SheetPost) : forall seen acc r,
  unique_sheets_loop l seen acc = Return r -> exists u, r = acc ++ u /\ sublist u l.
Proof.
  induction l as [|post rest IH]; intros seen acc r; cbn [unique_sheets_loop].
  { intros [= <-]. exists []. by rewrite app_nil_r. }
  destruct (sheet_id post) as [sid|].
  - case_bool_decide.
    + intros (u & -> & Hsub)%IH. exists (post :: u).
      split; [by rewrite <- app_assoc|by constructor].
    + destruct (author post); [|done].
      intros (u & -> & Hsub)%IH. exists u. split; [done|by constructor].
  - destruct (author post); [|done].
    intros (u & -> & Hsub)%IH. exists u. split; [done|by constructor].
Qed.

(** X20: when every post has an author, [unique_sheets] returns a sub-list
    of its input, in the same order, whose posts all have a document id
    and no two of which have the same one. *)
Theorem unique_sheets_sublist_distinct (sheet_posts : list SheetPost) :
  (forall p, p ∈ sheet_posts -> is_Some (author p)) ->
  exists u,
    unique_sheets sheet_posts = Return u
    /\ sublist u sheet_posts
    /\ NoDup (sheet_id <$> u)
    /\ forall p, p ∈ u -> is_Some (sheet_id p).
Proof.
  intros Hauth. unfold unique_sheets.
  destruct (unique_sheets_loop_spec sheet_posts ∅ [] Hauth) as (u & Hu & Hin & Hnd & _).
  exists u. split; [done|].
  destruct (unique_sheets_loop_sublist _ _ _ _ Hu) as (u' & Hu' & Hsub).
  cbn [app] in Hu'. subst u'. split; [done|]. split; [done|].
  intros p Hp. destruct (Hin p Hp) as (_ & x & -> & _). eauto.
Qed.

End Dedupe.

Lemma unique_sheets_sublist_distinct_witness :
  exists u,
    Sheets.unique_sheets [post_newer; post_older] = Return u
    /\ sublist u [post_newer; post_older].
Proof.
  destruct (unique_sheets_sublist_distinct [post_newer; post_older])
    as (u & Hu & Hsub & _).
  - intros p Hp.
    repeat (apply elem_of_cons in Hp as [->|Hp]; [by eexists|]).
    by apply elem_of_nil in Hp.
  - exists u. split; [exact Hu|exact Hsub].
Defined.

Lemma parse_submissions_second_pass_witness :
  Sheets.parse_submissions (fun _ => None)
    [post_spreadsheet_link; post_document_link]
    (Sheets.parse_submissions Sheets.gspread_extract_id_from_url
       [post_document_link; post_spreadsheet_link] empty_cache).1
  = ((Sheets.parse_submissions Sheets.gspread_extract_id_from_url
        [post_document_link; post_spreadsheet_link] empty_cache).1,
     Return []).
Proof.
  eapply (parse_submissions_second_pass Sheets.gspread_extract_id_from_url
            [post_document_link; post_spreadsheet_link]
            [post_spreadsheet_link; post_document_link] empty_cache).
  - vm_compute. reflexivity.
  - intros post Hp.
    repeat (apply elem_of_cons in Hp as [->|Hp]; [by repeat constructor|]).
    by apply elem_of_nil in Hp.
Defined.

Lemma parse_submissions_caches_all_witness :
  Sheets.cache_exists
    (Sheets.parse_submissions Sheets.gspread_extract_id_from_url
       [post_document_link; post_spreadsheet_link] empty_cache).1
    "post:1fghij" = true.
Proof.
  destruct (Sheets.parse_submissions Sheets.gspread_extract_id_from_url
              [post_document_link; post_spreadsheet_link] empty_cache)
    as [c [posts|e]] eqn:E.
  - destruct (parse_submissions_caches_all Sheets.gspread_extract_id_from_url
                _ _ _ _ E) as (_ & _ & Hall & _).
    apply (Hall post_document_link). left.
  - vm_compute in E. discriminate E.
Defined.
(** ** More on downloading and caching ([sheets.py]) *)

Section Download.
Import Models Sheets.
Variable extract_id_from_url : string -> option string.
Variable read_csv : list Event -> string -> option Transformations.DataFrame.
Variable open_by_key : list Event -> string -> string + Transformations.DataFrame.
Variable to_json : Transformations.DataFrame -> string.
Variable now : list Event -> Z.

Lemma loop_sleep (sheet_id : string) (k : nat) : forall retries tr,
  retries + k = max_retries ->
  exists new df,
    gen_df_gspread_loop open_by_key sheet_id retries tr = (tr ++ new, df)
    /\ total_sleep new <= 65 * k
    /\ attempts new <= k
    /\ (0 < k -> 1 <= attempts new)
    /\ Forall (fun ev => ev = EvOpenByKey sheet_id \/ exists n, ev = EvSleep n) new.
Proof.
  induction k as [|k IH]; intros retries tr Hk; rewrite loop_unfold.
  { rewrite decide_False by lia. exists [], None. rewrite app_nil_r.
    repeat split; (done || lia || constructor). }
  rewrite decide_True by lia.
  assert (Hsingle : forall df : option Transformations.DataFrame,
    exists (new : list Event) (df' : option Transformations.DataFrame),
    (tr ++ [EvOpenByKey sheet_id], df) = (tr ++ new, df')
    /\ total_sleep new <= 65 * S k /\ attempts new <= S k
    /\ (0 < S k -> 1 <= attempts new)
    /\ Forall (fun ev => ev = EvOpenByKey sheet_id \/ exists n, ev = EvSleep n) new).
  { intros df. exists [EvOpenByKey sheet_id], df. cbn. split; [done|].
    repeat split; try lia. repeat constructor. }
  assert (Hretry : forall n, n <= 65 -> exists new df,
    gen_df_gspread_loop open_by_key sheet_id (S retries)
      (tr ++ [EvOpenByKey sheet_id; EvSleep n]) = (tr ++ new, df)
    /\ total_sleep new <= 65 * S k /\ attempts new <= S k
    /\ (0 < S k -> 1 <= attempts new)
    /\ Forall (fun ev => ev = EvOpenByKey sheet_id \/ exists n, ev = EvSleep n) new).
  { intros n Hn.
    destruct (IH (S retries) (tr ++ [EvOpenByKey sheet_id; EvSleep n]))
      as (new & df & -> & Hs & Ha & _ & Hall); [lia|].
    exists (EvOpenByKey sheet_id :: EvSleep n :: new), df.
    split; [by rewrite <- app_assoc|]. rewrite attempts_open, attempts_sleep.
    cbn [total_sleep foldr]. fold (total_sleep new).
    repeat split; try lia. constructor; [by left|]. constructor; [right; by exists n|done]. }
  destruct (open_by_key tr sheet_id) as [e|d]; [|apply Hsingle].
  destruct (Py.contains "Quota exceeded" e); [apply Hretry; lia|].
  destruct (Py.contains "This operation is not supported" e); [apply Hsingle|].
  case_decide; [apply Hretry; lia|apply Hsingle].
Qed.

(** X21: a call of [download_sheet] on a document id always returns.  It
    reads the CSV export exactly once, first of all; whatever else it does
    is an API call for that id or a sleep, with at most 3 API calls and at
    most 195 of sleep in all.  When the export can be read, the frame read
    is returned with no API call and no sleep; when it cannot, the API is
    called at least once. *)
Theorem download_sheet_bounded (sheet_id : string) (tr : list Event) :
  exists new df,
    download_sheet read_csv open_by_key (Some sheet_id) tr
    = (tr ++ EvDownload sheet_id :: EvReadCsv (dl_url sheet_id) :: new, Return df)
    /\ Forall (fun ev => ev = EvOpenByKey sheet_id \/ exists n, ev = EvSleep n) new
    /\ attempts new <= 3
    /\ total_sleep new <= 195
    /\ (forall d, read_csv (tr ++ [EvDownload sheet_id]) (dl_url sheet_id) = Some d ->
          new = [] /\ df = Some d)
    /\ (read_csv (tr ++ [EvDownload sheet_id]) (dl_url sheet_id) = None ->
          1 <= attempts new).
Proof.
  unfold download_sheet, gen_df. fold (dl_url sheet_id).
  destruct (read_csv (tr ++ [EvDownload sheet_id]) (dl_url sheet_id)) as [d|].
  { exists [], (Some d). rewrite <- app_assoc. cbn. split; [done|].
    split; [constructor|]. split; [lia|]. split; [lia|].
    split; [by intros ? [= <-]|done]. }
  unfold gen_df_gspread.
  destruct (loop_sleep sheet_id 3 0
              ((tr ++ [EvDownload sheet_id]) ++ [EvReadCsv (dl_url sheet_id)]) eq_refl)
    as (new & df & -> & Hs & Ha & Hone & Hall).
  exists new, df. rewrite <- !app_assoc. cbn [app]. split; [done|].
  split; [done|]. split; [done|]. split; [lia|]. split; [intros ? [=]|].
  intros _. apply Hone. lia.
Qed.

(** What the loop of [add_sheet_data] appends to [items]. *)
Lemma add_sheet_data_loop_added (us : list SheetPost) (c : RedisCache) :
  forall tr items tr' items',
  add_sheet_data_loop read_csv open_by_key to_json now us c tr items = (tr', Return items') ->
  exists added,
    items' = items ++ added
    /\ sublist (id <$> added) (id <$> us)
    /\ Forall (fun item =>
         exists sheet, sheet ∈ us
           /\ check_cache c (sheet_id sheet) = false
           /\ id item = id sheet /\ title item = title sheet
           /\ created item = created sheet /\ shortlink item = shortlink sheet
           /\ author item = author sheet
           /\ sheet_id item = sheet_id sheet /\ sheet_url item = sheet_url sheet
           /\ num_comments item = 0%Z /\ score item = 0%Z
           /\ is_Some (sheet_raw item) /\ is_Some (sheet_dl_date item)) added.
Proof.
  induction us as [|sheet rest IH]; intros tr items tr' items'; cbn [add_sheet_data_loop].
  { intros [= <- <-]. exists []. rewrite app_nil_r. split; [done|]. split; [done|constructor]. }
  assert (Hskip : forall tr0,
    add_sheet_data_loop read_csv open_by_key to_json now rest c tr0 items = (tr', Return items') ->
    exists added,
      items' = items ++ added
      /\ sublist (id <$> added) (id <$> sheet :: rest)
      /\ Forall (fun item =>
           exists sheet0, sheet0 ∈ sheet :: rest
             /\ check_cache c (sheet_id sheet0) = false
             /\ id item = id sheet0 /\ title item = title sheet0
             /\ created item = created sheet0 /\ shortlink item = shortlink sheet0
             /\ author item = author sheet0
             /\ sheet_id item = sheet_id sheet0 /\ sheet_url item = sheet_url sheet0
             /\ num_comments item = 0%Z /\ score item = 0%Z
             /\ is_Some (sheet_raw item) /\ is_Some (sheet_dl_date item)) added).
  { intros tr0 (added & -> & Hsub & Hall)%IH. exists added. split; [done|].
    split; [rewrite fmap_cons; by constructor|].
    eapply Forall_impl; [exact Hall|]. intros item (s0 & Hs0 & Hrest).
    exists s0. split; [by right|done]. }
  destruct (check_cache c (sheet_id sheet)) eqn:Hc; cbn [negb]; [apply Hskip|].
  destruct (download_sheet _ _ _ _) as [tr1 [[df|]|e]]; [|apply Hskip|done].
  intros (added & -> & Hsub & Hall)%IH.
  eexists (_ :: added). split; [by rewrite <- app_assoc|]. split.
  - rewrite !fmap_cons. cbn [id]. by constructor.
  - constructor.
    + exists sheet. split; [left|]. cbn. repeat split; eauto.
    + eapply Forall_impl; [exact Hall|]. intros item (s0 & Hs0 & Hrest).
      exists s0. split; [by right|done].
Qed.

(** X22: every item [add_sheet_data] returns was built of one of the posts
    it was given whose document was not in the hash [sheets]; items come in
    the order of those posts; an item takes over id, title, creation time,
    short link, author, document id and url of its post, carries the
    serialised frame and a download date, and has its comment count and
    score reset to 0. *)
Theorem add_sheet_data_items (unique_posts : list SheetPost) (c : RedisCache)
    (tr tr' : list Event) (items : list SheetPost) :
  add_sheet_data read_csv open_by_key to_json now unique_posts c tr = (tr', Return items) ->
  sublist (id <$> items) (id <$> unique_posts)
  /\ forall item, item ∈ items ->
       exists sheet, sheet ∈ unique_posts
         /\ check_cache c (sheet_id sheet) = false
         /\ id item = id sheet /\ title item = title sheet
         /\ created item = created sheet /\ shortlink item = shortlink sheet
         /\ author item = author sheet
         /\ sheet_id item = sheet_id sheet /\ sheet_url item = sheet_url sheet
         /\ num_comments item = 0%Z /\ score item = 0%Z
         /\ is_Some (sheet_raw item) /\ is_Some (sheet_dl_date item).
Proof.
  unfold add_sheet_data. intros (added & -> & Hsub & Hall)%add_sheet_data_loop_added.
  cbn [app]. split; [done|]. by apply Forall_forall.
Qed.

Lemma cache_hset_hexists c h k v h' k' :
  cache_hexists c h' k' = true -> cache_hexists (cache_hset c h k v) h' k' = true.
Proof.
  unfold cache_hexists, cache_hset. cbn [r_hashes].
  intros [q Hq]%bool_decide_eq_true_1. apply bool_decide_eq_true_2.
  destruct (decide (h = h')) as [->|Hne].
  - rewrite lookup_insert_eq. simpl.
    destruct (decide (k = k')) as [->|Hnk].
    + rewrite lookup_insert_eq. eauto.
    + rewrite lookup_insert_ne by done. eauto.
  - rewrite lookup_insert_ne by done. eauto.
Qed.

Lemma cache_sheets_keeps items : forall c h k,
  cache_hexists c h k = true -> cache_hexists (cache_sheets items c) h k = true.
Proof.
  unfold cache_sheets. induction items as [|item items IH]; intros c h k Hc;
    cbn [fold_left]; [done|].
  apply IH. by apply cache_hset_hexists.
Qed.

Lemma cache_sheets_stores items : forall c item,
  item ∈ items -> check_cache (cache_sheets items c) (sheet_id item) = true.
Proof.
  unfold check_cache. induction items as [|it items IH]; intros c item Hin.
  { by apply elem_of_nil in Hin. }
  apply elem_of_cons in Hin as [->|Hin].
  - unfold cache_sheets. cbn [fold_left]. apply (cache_sheets_keeps items).
    unfold cache_hexists, cache_hset. cbn [r_hashes].
    apply bool_decide_eq_true_2. rewrite lookup_insert_eq. simpl.
    rewrite lookup_insert_eq. eauto.
  - unfold cache_sheets. cbn [fold_left]. by apply IH.
Qed.

Lemma cache_sheets_entries_key (items : list SheetPost) : forall c h k p,
  default ∅ (r_hashes (cache_sheets items c) !! h) !! k = Some p ->
  default ∅ (r_hashes c !! h) !! k = Some p
  \/ (p ∈ items /\ h = "sheets" /\ k = "sheet:" +:+ fmt (sheet_id p)).
Proof.
  unfold cache_sheets. induction items as [|item items IH]; intros c h k p;
    cbn [fold_left]; [auto|].
  intros [Hold|(Hin & -> & ->)]%IH; [|right; split; [by right|done]].
  unfold cache_hset in Hold. cbn [r_hashes] in Hold.
  destruct (decide (h = "sheets")) as [->|Hne].
  - rewrite lookup_insert_eq in Hold. simpl in Hold.
    destruct (decide (k = "sheet:" +:+ fmt (sheet_id item))) as [->|Hnk].
    + rewrite lookup_insert_eq in Hold. injection Hold as <-. right.
      split; [left|done].
    + rewrite lookup_insert_ne in Hold by done. by left.
  - rewrite lookup_insert_ne in Hold by done. by left.
Qed.

(** X23: after [cache_sheets] every item it was given is found by
    [check_cache]; what [check_cache] found before it still finds; the plain
    keys are untouched; and when the items have pairwise distinct document
    ids, [hget] of an item's field returns that item. *)
Theorem cache_sheets_then_check (items : list SheetPost) (c : RedisCache) :
  (forall item, item ∈ items -> check_cache (cache_sheets items c) (sheet_id item) = true)
  /\ (forall sid, check_cache c sid = true -> check_cache (cache_sheets items c) sid = true)
  /\ r_keys (cache_sheets items c) = r_keys c
  /\ (NoDup (sheet_id <$> items) ->
      (forall item, item ∈ items -> is_Some (sheet_id item)) ->
      forall item, item ∈ items ->
        cache_hget (cache_sheets items c) "sheets" ("sheet:" +:+ fmt (sheet_id item))
        = Return item).
Proof.
  split; [apply cache_sheets_stores|]. split.
  { intros sid. apply cache_sheets_keeps. }
  split; [apply cache_sheets_entries|].
  revert c. induction items as [|it items IH]; intros c Hnd Hsome item Hin.
  { by apply elem_of_nil in Hin. }
  rewrite fmap_cons in Hnd. apply NoDup_cons in Hnd as [Hit Hnd].
  assert (Hsome' : forall i, i ∈ items -> is_Some (sheet_id i)).
  { intros i Hi. apply Hsome. by right. }
  apply elem_of_cons in Hin as [->|Hin].
  2:{ unfold cache_sheets. cbn [fold_left]. by apply IH. }
  unfold cache_sheets. cbn [fold_left]. fold (cache_sheets items
    (cache_hset c "sheets" ("sheet:" +:+ fmt (sheet_id it)) it)).
  unfold cache_hget.
  destruct (default ∅ (r_hashes (cache_sheets items _) !! "sheets")
              !! ("sheet:" +:+ fmt (sheet_id it))) as [v|] eqn:Hv.
  - destruct (cache_sheets_entries_key items _ _ _ _ Hv) as [Hold|(Hitem & _ & Hkey)].
    + unfold cache_hset in Hold. cbn [r_hashes] in Hold.
      rewrite lookup_insert_eq in Hold. simpl in Hold.
      rewrite lookup_insert_eq in Hold. by injection Hold as <-.
    + exfalso. apply Hit. apply String.app_inj in Hkey.
      destruct (Hsome it) as [a Ha]; [left|].
      destruct (Hsome' v Hitem) as [b Hb].
      rewrite Ha, Hb in Hkey. cbn in Hkey. subst b.
      apply list_elem_of_fmap. exists v. split; [congruence|done].
  - exfalso.
    assert (Hex : check_cache (cache_sheets items
              (cache_hset c "sheets" ("sheet:" +:+ fmt (sheet_id it)) it))
              (sheet_id it) = true).
    { apply cache_sheets_keeps. unfold cache_hexists, cache_hset. cbn [r_hashes].
      apply bool_decide_eq_true_2. rewrite lookup_insert_eq. simpl.
      rewrite lookup_insert_eq. eauto. }
    unfold check_cache, cache_hexists in Hex. apply bool_decide_eq_true_1 in Hex.
    rewrite Hv in Hex. by destruct Hex.
Qed.

End Download.
(** ** Runs of the pipeline ([sheets.py]) *)

Section Runs.
Import Models Sheets.
Variable extract_id_from_url : string -> option string.
Variable read_csv : list Event -> string -> option Transformations.DataFrame.
Variable open_by_key : list Event -> string -> string + Transformations.DataFrame.
Variable to_json : Transformations.DataFrame -> string.
Variable now : list Event -> Z.

(** The steps behind a run that returns. *)
Lemma sheet_query_return (ss : list Submission) (w w1 : World) (res : QueryResult) :
  sheet_query extract_id_from_url read_csv open_by_key to_json now ss w = (w1, Return res) ->
  exists c parsed,
    parse_submissions extract_id_from_url ss (cache w) = (c, Return parsed)
    /\ search_results res = ss
    /\ posts res = sort_created_desc parsed
    /\ unique_sheet_posts res = dedupe_submissions (posts res)
    /\ unique_sheets (posts res) = Return (unique_sheets_out res)
    /\ add_sheet_data read_csv open_by_key to_json now (unique_sheets_out res) c (trace w)
       = (trace w1, Return (sheets_downloaded res))
    /\ cache w1 = cache_sheets (sheets_downloaded res) c.
Proof.
  unfold sheet_query.
  destruct (parse_submissions _ ss (cache w)) as [c [parsed|e]]; [|done].
  destruct (unique_sheets (sort_created_desc parsed)) as [u|e] eqn:Hu; [|done].
  destruct (add_sheet_data _ _ _ _ u c (trace w)) as [tr [items|e]] eqn:Ha; [|done].
  intros [= <- <-]. exists c, parsed. cbn. done.
Qed.

(** Every event of a run is about a document that was not in the hash
    [sheets] when the run started. *)
Lemma sheet_query_events (ss : list Submission) (w : World) :
  exists new,
    trace (sheet_query extract_id_from_url read_csv open_by_key to_json now ss w).1
    = trace w ++ new
    /\ Forall (fun ev => exists sid, about sid ev
                 /\ cache_hexists (cache w) "sheets" ("sheet:" +:+ sid) = false) new.
Proof.
  assert (Hnil : exists new : list Event, trace w = trace w ++ new
            /\ Forall (fun ev => exists sid, about sid ev
                 /\ cache_hexists (cache w) "sheets" ("sheet:" +:+ sid) = false) new).
  { exists []. by rewrite app_nil_r. }
  unfold sheet_query, parse_submissions.
  destruct (parse_loop _ ss (cache w) []) as [c [parsed|e]] eqn:Hparse; [|exact Hnil].
  apply parse_loop_inv in Hparse as ((Hh & _ & _) & Hposts).
  2:{ intros p Hp. by apply elem_of_nil in Hp. }
  specialize (Hposts parsed eq_refl).
  destruct (unique_sheets_loop_spec (sort_created_desc parsed) ∅ [])
    as (u & Hu & Hin & _).
  { intros p Hp. rewrite sort_created_desc_perm in Hp. by apply Hposts. }
  unfold unique_sheets. rewrite Hu. cbn [app].
  destruct (add_sheet_data_loop_events read_csv open_by_key to_json now u c (trace w) [])
    as (new & r & Hrun & _ & Hall).
  { intros p Hp. destruct (Hin p Hp) as (_ & x & -> & _). eauto. }
  unfold add_sheet_data. rewrite Hrun. exists new. split; [by destruct r|].
  eapply Forall_impl; [exact Hall|]. intros ev (sid & Hab & Hc).
  exists sid. split; [done|]. unfold check_cache, cache_hexists in *. by rewrite <- Hh.
Qed.

(** X24: what a run of [sheet_query] that returns hands back.  The posts
    are in descending order of creation time and each is in the post cache
    under its key; the unique posts and the unique sheets are sub-lists of
    the posts, without a repeated post id and without a repeated document id
    respectively; the downloaded sheets follow the order of the unique
    sheets, and each of them is in the hash [sheets] when the run ends. *)
Theorem sheet_query_result (ss : list Submission) (w w1 : World) (res : QueryResult) :
  sheet_query extract_id_from_url read_csv open_by_key to_json now ss w = (w1, Return res) ->
  search_results res = ss
  /\ desc (posts res)
  /\ (forall p, p ∈ posts res -> cache_get (cache w1) ("post:" +:+ id p) = Return p)
  /\ sublist (unique_sheet_posts res) (posts res)
  /\ NoDup (id <$> unique_sheet_posts res)
  /\ sublist (unique_sheets_out res) (posts res)
  /\ NoDup (sheet_id <$> unique_sheets_out res)
  /\ sublist (id <$> sheets_downloaded res) (id <$> unique_sheets_out res)
  /\ (forall item, item ∈ sheets_downloaded res ->
        check_cache (cache w1) (sheet_id item) = true).
Proof.
  intros (c & parsed & Hparse & Hss & Hposts & Hup & Hus & Hadd & Hc)%sheet_query_return.
  split; [done|]. split; [rewrite Hposts; apply sort_created_desc_sorted|].
  unfold parse_submissions in Hparse.
  pose proof (parse_loop_inv _ _ _ _ _ _ Hparse) as (_ & Hauth).
  { intros p Hp. by apply elem_of_nil in Hp. }
  specialize (Hauth parsed eq_refl).
  apply parse_loop_return in Hparse as (_ & new & Hnew & Hstored).
  cbn [app] in Hnew. subst new. split.
  { intros p Hp. rewrite Hposts, sort_created_desc_perm in Hp.
    unfold cache_get. rewrite Hc, (proj1 (cache_sheets_entries _ c)).
    by rewrite (proj1 (Hstored p Hp)). }
  destruct (dedupe_loop_spec (posts res) ∅ []) as (d & Hd & Hdsub & _ & Hdnd & _).
  cbn [app] in Hd. split; [by rewrite Hup; unfold dedupe_submissions; rewrite Hd|].
  split; [by rewrite Hup; unfold dedupe_submissions; rewrite Hd|].
  destruct (unique_sheets_loop_spec (posts res) ∅ []) as (u & Hu & _ & Hund & _).
  { intros p Hp. rewrite Hposts, sort_created_desc_perm in Hp. by apply Hauth. }
  unfold unique_sheets in Hus. rewrite Hu in Hus. injection Hus as Hus. cbn [app] in Hus.
  destruct (unique_sheets_loop_sublist _ _ _ _ Hu) as (u' & Hu' & Husub).
  cbn [app] in Hu'. subst u'. subst u. split; [done|]. split; [done|].
  unfold add_sheet_data in Hadd.
  apply add_sheet_data_loop_added in Hadd as (added & Hadded & Hasub & _).
  cbn [app] in Hadded. subst added. split; [done|].
  intros item Hitem. rewrite Hc. by apply cache_sheets_stores.
Qed.

Lemma cache_sheets_other_hash (items : list SheetPost) : forall c h,
  h <> "sheets" -> r_hashes (cache_sheets items c) !! h = r_hashes c !! h.
Proof.
  unfold cache_sheets. induction items as [|item items IH]; intros c h Hh; [done|].
  cbn [fold_left]. rewrite IH by done. cbn [cache_hset r_hashes].
  by rewrite lookup_insert_ne.
Qed.

(** X30: what a run of [sheet_query] writes, whether it returns or raises.
    A plain key that is not [post:{id}] for one of the submissions it was
    given holds after the run what it held before; so does every hash but
    [sheets]; and a field of [sheets] holds after the run what it held
    before or a post with a document id, under [sheet:{sheet_id}]. *)
Theorem sheet_query_writes (ss : list Submission) (w : World) :
  let w' := (sheet_query extract_id_from_url read_csv open_by_key to_json now ss w).1 in
  (forall k, (forall post, post ∈ ss -> k <> "post:" +:+ post_id post) ->
     r_keys (cache w') !! k = r_keys (cache w) !! k)
  /\ (forall h, h <> "sheets" -> r_hashes (cache w') !! h = r_hashes (cache w) !! h)
  /\ (forall k p,
       default ∅ (r_hashes (cache w') !! "sheets") !! k = Some p ->
       default ∅ (r_hashes (cache w) !! "sheets") !! k = Some p
       \/ exists sid, sheet_id p = Some sid /\ k = "sheet:" +:+ sid).
Proof.
  unfold sheet_query, parse_submissions.
  destruct (parse_loop _ ss (cache w) []) as [c r] eqn:Hparse.
  pose proof (fun k => parse_loop_other_keys _ _ _ _ _ _ k Hparse) as Hkeys.
  apply parse_loop_inv in Hparse as ((Hh & _ & _) & Hposts).
  2:{ intros p Hp. by apply elem_of_nil in Hp. }
  assert (Hc : (forall k, (forall post, post ∈ ss -> k <> "post:" +:+ post_id post) ->
                  r_keys c !! k = r_keys (cache w) !! k)
               /\ (forall h, h <> "sheets" -> r_hashes c !! h = r_hashes (cache w) !! h)
               /\ (forall k p,
                    default ∅ (r_hashes c !! "sheets") !! k = Some p ->
                    default ∅ (r_hashes (cache w) !! "sheets") !! k = Some p
                    \/ exists sid, sheet_id p = Some sid /\ k = "sheet:" +:+ sid)).
  { split; [exact (fun k => Hkeys k)|]. rewrite Hh. split; auto. }
  destruct r as [parsed|e]; [|exact Hc].
  specialize (Hposts parsed eq_refl).
  destruct (unique_sheets_loop_spec (sort_created_desc parsed) ∅ [])
    as (u & Hu & Hin & _).
  { intros p Hp. rewrite sort_created_desc_perm in Hp. by apply Hposts. }
  unfold unique_sheets. rewrite Hu. cbn [app]. unfold add_sheet_data.
  destruct (add_sheet_data_loop _ _ _ _ u c (trace w) []) as [tr [items|e]] eqn:Hadd;
    [|exact Hc].
  cbn [fst cache]. destruct Hc as (Hc1 & Hc2 & Hc3).
  rewrite (proj1 (cache_sheets_entries items c)). split; [done|]. split.
  { intros h Hne. rewrite cache_sheets_other_hash by done. by apply Hc2. }
  intros k p Hp. apply cache_sheets_entries_key in Hp as [Hold|(Hitem & _ & ->)].
  { by apply Hc3. }
  right.
  destruct (add_sheet_data_loop_items read_csv open_by_key to_json now
              u c (trace w) [] items) with (q := p) as [[sid Hsid] _];
    [| |by rewrite Hadd|done|].
  - intros q Hq. destruct (Hin q Hq) as (Hq' & x & -> & _). split; [eauto|].
    rewrite sort_created_desc_perm in Hq'. by apply Hposts.
  - intros q Hq. by apply elem_of_nil in Hq.
  - exists sid. by rewrite Hsid.
Qed.

End Runs.

Section TwoRuns.
Import Models Sheets.

(** X25: a document that one run of [sheet_query] downloaded is left alone
    by any later run on the cache that run left, whatever the search returns
    and however the collaborators behave then: no call of [download_sheet],
    no CSV export and no API call for its id. *)
Theorem sheet_query_second_run
    (extract1 extract2 : string -> option string)
    (read_csv1 read_csv2 : list Event -> string -> option Transformations.DataFrame)
    (open_by_key1 open_by_key2 : list Event -> string -> string + Transformations.DataFrame)
    (to_json1 to_json2 : Transformations.DataFrame -> string)
    (now1 now2 : list Event -> Z)
    (ss1 ss2 : list Submission) (w w1 : World) (res : QueryResult)
    (item : SheetPost) (sid : string) :
  sheet_query extract1 read_csv1 open_by_key1 to_json1 now1 ss1 w = (w1, Return res) ->
  item ∈ sheets_downloaded res ->
  sheet_id item = Some sid ->
  exists new,
    trace (sheet_query extract2 read_csv2 open_by_key2 to_json2 now2 ss2 w1).1
    = trace w1 ++ new
    /\ forall ev, ev ∈ new ->
         (ev <> EvDownload sid) /\ (ev <> EvReadCsv (dl_url sid))
         /\ (ev <> EvOpenByKey sid).
Proof.
  intros Hrun Hitem Hsid.
  apply sheet_query_return in Hrun as (c & parsed & _ & _ & _ & _ & _ & _ & Hc).
  assert (Hcached : cache_hexists (cache w1) "sheets" ("sheet:" +:+ sid) = true).
  { rewrite Hc. pose proof (cache_sheets_stores (sheets_downloaded res) c item Hitem) as H.
    unfold check_cache in H. by rewrite Hsid in H. }
  destruct (sheet_query_events extract2 read_csv2 open_by_key2 to_json2 now2 ss2 w1)
    as (new & Htr & Hall).
  exists new. split; [done|]. intros ev Hev.
  rewrite Forall_forall in Hall. destruct (Hall ev Hev) as (sid' & Hab & Hnot).
  assert (Hne : sid' <> sid) by congruence.
  destruct Hab as [->|[->|[->|[n ->]]]]; repeat split; try congruence.
  intros Heq. apply Hne, dl_url_inj. congruence.
Qed.

End TwoRuns.
Lemma add_sheet_data_items_witness :
  exists items,
    (Sheets.add_sheet_data (fun _ _ => Some frame_with_preamble)
       (fun _ _ => inl "Quota exceeded") (fun _ => "{}") (fun _ => 1700000300%Z)
       [post_newer] empty_cache []).2 = Return items
    /\ sublist (Models.id <$> items) (Models.id <$> [post_newer]).
Proof.
  destruct (Sheets.add_sheet_data (fun _ _ => Some frame_with_preamble)
              (fun _ _ => inl "Quota exceeded") (fun _ => "{}") (fun _ => 1700000300%Z)
              [post_newer] empty_cache []) as [tr' [items|e]] eqn:E.
  - exists items. split; [reflexivity|].
    exact (proj1 (add_sheet_data_items _ _ _ _ _ _ _ _ _ E)).
  - vm_compute in E. discriminate E.
Defined.

Lemma sheet_query_result_witness :
  exists res, first_run.2 = Return res /\ desc (Sheets.posts res).
Proof.
  destruct first_run as [w1 [res|e]] eqn:E.
  - exists res. split; [reflexivity|].
    unfold first_run in E.
    exact (proj1 (proj2 (sheet_query_result _ _ _ _ _ _ _ _ _ E))).
  - vm_compute in E. discriminate E.
Defined.

Lemma sheet_query_second_run_witness :
  exists new,
    Sheets.trace (Sheets.sheet_query Sheets.gspread_extract_id_from_url
                    (fun _ _ => None) (fun _ _ => inl "Quota exceeded")
                    (fun _ => "{}") (fun _ => 1700000900%Z)
                    [post_spreadsheet_link] first_run.1).1
    = Sheets.trace first_run.1 ++ new
    /\ forall ev, ev ∈ new -> ev <> Sheets.EvOpenByKey "MGAxiQwHHr2t".
Proof.
  destruct first_run as [w1 [res|e]] eqn:E.
  - destruct (Sheets.sheets_downloaded res) as [|item rest] eqn:Hd.
    { vm_compute in E. injection E as _ <-. discriminate Hd. }
    unfold first_run in E.
    destruct (sheet_query_second_run
                _ Sheets.gspread_extract_id_from_url
                _ (fun _ _ => None) _ (fun _ _ => inl "Quota exceeded")
                _ (fun _ => "{}") _ (fun _ => 1700000900%Z)
                _ [post_spreadsheet_link] _ _ _ item "MGAxiQwHHr2t" E)
      as (new & Htr & Hnew).
    + rewrite Hd. left.
    + vm_compute in E. injection E as _ <-. by injection Hd as <- _.
    + exists new. split; [exact Htr|]. intros ev Hev. apply (Hnew ev Hev).
  - vm_compute in E. discriminate E.
Defined.
(** ** In-search-of posts ([app.py]) *)

Section Iso.
Import Models Sheets.

Lemma item_raises {A} (l : list A) (i : nat) (e : exn) :
  item l i = Raise e -> e = IndexError.
Proof. unfold item. destruct (l !! i); congruence. Qed.

Lemma int_raises (s : string) (e : exn) : int s = Raise e -> e = ValueError.
Proof. unfold int. destruct (Py.int s); congruence. Qed.

Lemma parse_flair_raises (t : string) (e : exn) :
  Models.parse_flair t = Raise e -> e = ValueError \/ e = IndexError.
Proof.
  unfold Models.parse_flair, bind.
  destruct (item (Py.split_maxsplit1 t) 0) as [p0|e0] eqn:H0.
  2:{ intros [= <-]. right. by eapply item_raises. }
  destruct (Py.isdigit p0).
  { intros He. left. by eapply int_raises. }
  destruct (item (Py.split_maxsplit1 t) 1) as [p1|e1] eqn:H1.
  2:{ intros [= <-]. right. by eapply item_raises. }
  destruct (item (Py.split p1) 1) as [tok|e2] eqn:H2.
  2:{ intros [= <-]. right. by eapply item_raises. }
  intros He. left. by eapply int_raises.
Qed.

Lemma post_init_returns (text : option string) : exists rank, post_init text = Return rank.
Proof.
  destruct text as [t|]; cbn [post_init]; [|eauto].
  destruct (String.eqb t ""); [eauto|].
  destruct (parse_flair t) as [z|e] eqn:Hp; [eauto|].
  apply parse_flair_raises in Hp as [->| ->]; eauto.
Qed.

Lemma iso_post_returns (flair : option string) (post : Submission) :
  exists r, App.iso_post flair post = Return r
    /\ match r with
       | Some item =>
           flair = Some "In Search Of"
           /\ App.id item = post_id post /\ App.title item = post_title post
           /\ App.created item = post_created_utc post
           /\ App.shortlink item = post_shortlink post
           /\ App.num_comments item = 0%Z /\ App.score item = 0%Z
           /\ (is_Some (App.author item) <-> is_Some (post_author post))
       | None => flair <> Some "In Search Of"
       end.
Proof.
  unfold App.iso_post. case_bool_decide as Hf; [|eauto].
  destruct (post_author post) as [a|].
  - unfold mkAuthor. destruct (post_init_returns (post_author_flair_text post)) as [rank ->].
    cbn. eexists. split; [done|]. cbn. repeat split; eauto.
  - cbn. eexists. split; [done|]. cbn. repeat split; try done; by intros [? ?].
Qed.

(** X28: [new_iso] fails on no flair text and on no submission whose author was
    deleted.  It returns one post for each submission whose link flair is
    exactly [In Search Of], in the order of the listing, with the id of the
    submission and with [num_comments] and [score] left at 0. *)
Theorem new_iso_keeps_in_search_of (posts : list (option string * Submission)) :
  exists iso_posts,
    App.new_iso posts = Return iso_posts
    /\ App.id <$> iso_posts
       = (fun p => post_id p.2) <$> filter (fun p => p.1 = Some "In Search Of") posts
    /\ forall item, item ∈ iso_posts ->
         App.num_comments item = 0%Z /\ App.score item = 0%Z.
Proof.
  induction posts as [|[flair post] rest (l & IH & Hids & Hz)]; cbn [App.new_iso].
  { exists []. split; [done|]. split; [done|]. intros item Hi. by apply elem_of_nil in Hi. }
  destruct (iso_post_returns flair post) as (r & -> & Hr). rewrite IH.
  destruct r as [item|].
  - destruct Hr as (Hf & Hid & _ & _ & _ & Hn & Hs & _).
    rewrite filter_cons_True by done. cbn [bind].
    exists (item :: l). split; [done|]. rewrite !fmap_cons, Hid, Hids. split; [done|].
    intros i [->|Hi]%elem_of_cons; [done|by apply Hz].
  - rewrite filter_cons_False by done. cbn [bind]. by exists l.
Qed.

End Iso.
